(** * AWS translation pipeline: a shallow embedding of the Python sources

    The development follows the three Python programs of the repository:

    - [lambda_function/lambda_function.py], the ingestion handler triggered
      by uploads to the request bucket ([Module Ingestion]);
    - [retrieval_function/lambda_function.py], the HTTP retrieval handler
      ([Module Retrieval]);
    - [python_translator.py], the client class [AWSTranslationClient]
      ([Module Client]).

    Python values are modelled as follows.  A [str] is the list of its
    Unicode code points, so that [len] is [length] and [str.strip] can use
    Python's own whitespace table.  A value obtained from [json.loads] is a
    [json] tree; a dict keeps its items in insertion order.  Exceptions are
    the [Raise] results of a small state-and-error monad whose state, the
    [world], holds the object store, the wall clock and the trace of the
    calls made to the clients of the external services, each recorded
    whether or not it succeeds. *)

From Stdlib Require Import ZArith NArith List String Ascii Bool Lia DecimalString.
From stdpp Require Import base option list gmap sorting.
Import ListNotations.

Local Open Scope Z_scope.

(** ** Python strings *)

Abbreviation str := (list N).
Abbreviation bytes := (list Byte.byte).

(** An ASCII literal of the source, as a Python [str]. *)
Definition lit (s : string) : str := map N_of_ascii (list_ascii_of_string s).
Arguments lit : simpl never.

(** [str.isspace] on one character: the code points CPython's
    [_PyUnicode_IsWhitespace] accepts. *)
Definition isspace (c : N) : bool :=
  ((9 <=? c) && (c <=? 13) || (28 <=? c) && (c <=? 32) || (c =? 133) || (c =? 160)
   || (c =? 5760) || (8192 <=? c) && (c <=? 8202) || (c =? 8232) || (c =? 8233)
   || (c =? 8239) || (c =? 8287) || (c =? 12288))%N.

Fixpoint lstrip (s : str) : str :=
  match s with
  | [] => []
  | c :: s' => if isspace c then lstrip s' else s
  end.

Definition rstrip (s : str) : str := rev (lstrip (rev s)).

(** [s.strip()] *)
Definition strip (s : str) : str := rstrip (lstrip s).

(** [not s.strip()]: an empty [str] is falsy. *)
Definition is_blank (s : str) : bool :=
  match strip s with
  | [] => true
  | _ :: _ => false
  end.

(** A code point [str.encode('utf-8')] refuses: a surrogate. *)
Definition is_surrogate (c : N) : bool := ((55296 <=? c) && (c <=? 57343))%N.

(** [s.encode('ascii')] succeeds. *)
Definition is_ascii (s : str) : bool := forallb (fun c => (c <? 128)%N) s.

(** [len(s)] *)
Definition len {A} (l : list A) : Z := Z.of_nat (length l).

(** [s.startswith(p)] *)
Fixpoint startswith (s p : str) {struct p} : bool :=
  match p, s with
  | [], _ => true
  | _ :: _, [] => false
  | a :: p', b :: s' => (a =? b)%N && startswith s' p'
  end.

(** [p in s] for two strings: substring test. *)
Fixpoint str_contains (s p : str) : bool :=
  startswith s p ||
  match s with
  | [] => false
  | _ :: s' => str_contains s' p
  end.

(** [s.rfind(c)] for a one-character [c]: the highest index, or [-1]. *)
Fixpoint rfind_from (c : N) (s : str) (i : Z) (found : Z) : Z :=
  match s with
  | [] => found
  | d :: s' => rfind_from c s' (i + 1) (if (d =? c)%N then i else found)
  end.

Definition rfind (s : str) (c : N) : Z := rfind_from c s 0 (-1).

(** [s[i:i+1]] *)
Definition char_at (s : str) (i : Z) : str :=
  if i <? 0 then [] else firstn 1 (skipn (Z.to_nat i) s).

(** [s[:i]] and [s[i:]] for [0 <= i]. *)
Definition slice_to (s : str) (i : Z) : str := firstn (Z.to_nat i) s.
Definition slice_from (s : str) (i : Z) : str := skipn (Z.to_nat i) s.

Definition sep : N := 47.     (* "/" *)
Definition extsep : N := 46.  (* "." *)

(** The [while filenameIndex < dotIndex] loop of [posixpath._splitext]:
    [Some] is the early [return p[:dotIndex], p[dotIndex:]], [None] is
    falling out of the loop.  [n] counts the iterations left,
    [dotIndex - filenameIndex]. *)
Fixpoint splitext_scan (p : str) (dotIndex filenameIndex : Z) (n : nat) : option (str * str) :=
  match n with
  | O => None
  | S n' =>
      if negb (bool_decide (char_at p filenameIndex = [extsep]))
      then Some (slice_to p dotIndex, slice_from p dotIndex)
      else splitext_scan p dotIndex (filenameIndex + 1) n'
  end.

(** [os.path.splitext] on a POSIX host ([sep = "/"], no [altsep]). *)
Definition splitext (p : str) : str * str :=
  let sepIndex := rfind p sep in
  let dotIndex := rfind p extsep in
  if dotIndex >? sepIndex then
    match splitext_scan p dotIndex (sepIndex + 1) (Z.to_nat (dotIndex - (sepIndex + 1))) with
    | Some r => r
    | None => (p, [])
    end
  else (p, []).

(** ** JSON values as Python objects *)

(** What [json.loads] can return.  A float is kept as its IEEE-754 bit
    pattern; a dict as its items in insertion order (keys distinct). *)
#[warnings="-register-all"]
Inductive json : Type :=
| JNull
| JBool (b : bool)
| JInt (z : Z)
| JFloat (bits : N)
| JStr (s : str)
| JList (l : list json)
| JDict (d : list (str * json)).

Inductive exn : Type :=
| KeyError (k : str)
| TypeError
| AttributeError
| ValueError
| UnicodeDecodeError
| UnicodeEncodeError
| JSONDecodeError
| ParamValidationError
| NoSuchKey
| ClientError (code : str).

(** The outcome of a Python expression: a value or a raised exception. *)
Inductive res (A : Type) : Type :=
| Ok (a : A)
| Raise (e : exn).
Arguments Ok {A} a.
Arguments Raise {A} e.

(** [d.get(k)] on the items of a dict. *)
Fixpoint dict_get (d : list (str * json)) (k : str) : option json :=
  match d with
  | [] => None
  | (k', v) :: d' => if bool_decide (k' = k) then Some v else dict_get d' k
  end.

(** [x == k] for a JSON value [x] and a string [k]. *)
Definition eq_str (x : json) (k : str) : bool :=
  match x with
  | JStr s => bool_decide (s = k)
  | _ => false
  end.

(** [k in x]: key membership on a dict, element membership on a list,
    substring test on a string, [TypeError] on anything else. *)
Definition py_in (k : str) (x : json) : res bool :=
  match x with
  | JDict d => Ok (match dict_get d k with Some _ => true | None => false end)
  | JList l => Ok (existsb (fun y => eq_str y k) l)
  | JStr s => Ok (str_contains s k)
  | _ => Raise TypeError
  end.

(** [x[k]] with a string subscript. *)
Definition subscript (x : json) (k : str) : res json :=
  match x with
  | JDict d => match dict_get d k with Some v => Ok v | None => Raise (KeyError k) end
  | _ => Raise TypeError
  end.

(** [iter(x)]: the elements a [for] loop visits. *)
Definition py_iter (x : json) : res (list json) :=
  match x with
  | JList l => Ok l
  | JDict d => Ok (map (fun kv => JStr (fst kv)) d)
  | JStr s => Ok (map (fun c => JStr [c]) s)
  | _ => Raise TypeError
  end.

(** [len(x)] *)
Definition py_len (x : json) : res Z :=
  match x with
  | JList l => Ok (len l)
  | JDict d => Ok (len d)
  | JStr s => Ok (len s)
  | _ => Raise TypeError
  end.

(** [sep.join(parts)] *)
Fixpoint join (sep : str) (parts : list str) : str :=
  match parts with
  | [] => []
  | [p] => p
  | p :: ps => p ++ sep ++ join sep ps
  end.

Definition sum_Z (l : list Z) : Z := fold_right Z.add 0 l.

(** [str(z)] for an int. *)
Definition int_str (z : Z) : str := lit (NilZero.string_of_int (Z.to_int z)).

(** Keys are listed in the order of their code points. *)
Fixpoint str_leb (a b : str) : bool :=
  match a, b with
  | [], _ => true
  | _ :: _, [] => false
  | x :: a', y :: b' => (x <? y)%N || ((x =? y)%N && str_leb a' b')
  end.

Definition key_le (a b : str * Z) : Prop := Is_true (str_leb (fst a) (fst b)).

#[global] Instance key_le_dec : RelDecision key_le :=
  fun a b => Is_true_dec (str_leb (fst a) (fst b)).

(** ** The world outside the program *)

(** An object of the store, as [put_object] writes it. *)
Record s3object : Type := {
  body : bytes;
  content_type : str;
  server_side_encryption : str;
  metadata : list (str * str);
  last_modified : Z
}.

(** One interaction with the outside: a call of a method of the client of
    the object store, with the parameters of the call, a call to the
    translation service, or to the clock.  A call is an interaction whether
    or not it succeeds. *)
Inductive effect : Type :=
| GetObject (bucket key : json)
| PutObject (bucket key : str) (content : bytes)
    (content_type server_side_encryption : str) (metadata : list (str * json))
| ListObjectsV2 (bucket prefix : str)
| TranslateText (text : str) (source_language_code target_language_code : json)
| Sleep (secs : Z)
| ReadClock.

(** The interaction writes nothing to the object store. *)
Definition not_put (e : effect) : Prop :=
  match e with
  | PutObject _ _ _ _ _ _ => False
  | _ => True
  end.

(** The state the handlers and the client run against: the buckets (keyed by
    bucket name and object key), every interaction so far, and the wall
    clock in ticks. *)
Record world : Type := {
  objects : gmap (str * str) s3object;
  trace : list effect;
  now : Z
}.

(** What the program does not define itself: library functions of Python
    and the behaviour of the services.  A service answers from the history
    of interactions, so two equal calls may be answered differently. *)
Class Platform : Type := {
  (** [urllib.parse.unquote_plus] on a string *)
  unquote_plus : str -> str;
  (** [bytes.decode('utf-8')], [None] for [UnicodeDecodeError], and
      [str.encode('utf-8')] on a string without surrogates *)
  decode_utf8 : bytes -> option str;
  encode_utf8 : str -> bytes;
  (** [json.loads], [None] for [JSONDecodeError]; [json.dumps] with its
      defaults and with [indent=2, ensure_ascii=False] *)
  json_loads : str -> option json;
  json_dumps : json -> str;
  json_dumps_indent : json -> str;
  (** [repr] of a string and of a float; the latter starts with a digit, a
      sign or a letter *)
  str_repr : str -> str;
  float_repr : N -> str;
  float_repr_visible : forall f, is_blank (float_repr f) = false;
  (** [str(e)] of an exception *)
  exn_str : exn -> str;
  (** the UTC time at a clock reading as [strftime("%Y%m%d_%H%M%S")] and as
      [isoformat()] *)
  strftime_compact : Z -> str;
  isoformat : Z -> str;
  isoformat_ascii : forall t, is_ascii (isoformat t) = true;
  ticks_per_second : positive;
  (** the ticks an interaction takes, given the interactions before it *)
  elapsed : list effect -> effect -> N;
  (** the exception, if a call to a service that passes the checks of the
      parameters modelled below fails all the same: raised by the client
      library before anything is sent (a bucket name it does not accept, a
      parameter it cannot serialise) or for an error the service returns.
      A missing key is not among them: that is for the store to say. *)
  service_fault : list effect -> effect -> option exn;
  service_fault_other : forall h e, service_fault h e <> Some NoSuchKey;
  (** the answer of the translation service: the ['TranslatedText'] or an
      exception *)
  translate_response : list effect -> str -> json -> json -> res str
}.

(** A computation that reads and changes the world and may raise. *)
Definition M (A : Type) : Type := world -> res A * world.

#[global] Instance M_ret : MRet M := fun A a w => (Ok a, w).
#[global] Instance M_bind : MBind M := fun A B f m w =>
  match m w with
  | (Ok a, w') => f a w'
  | (Raise e, w') => (Raise e, w')
  end.

#[global] Instance res_ret : MRet res := fun A a => Ok a.
#[global] Instance res_bind : MBind res := fun A B f m =>
  match m with
  | Ok a => f a
  | Raise e => Raise e
  end.

Definition raise {A} (e : exn) : M A := fun w => (Raise e, w).

(** A pure expression evaluated inside a computation. *)
Definition lift {A} (r : res A) : M A := fun w => (r, w).

(** An expression that reads the world without changing it. *)
Definition inspect {A} (f : world -> res A) : M A := fun w => (f w, w).

Definition or_raise {A} (e : exn) (o : option A) : res A :=
  match o with
  | Some a => Ok a
  | None => Raise e
  end.

(** [try: m except Exception as e: h e] *)
Definition try_except {A} (m : M A) (h : exn -> M A) : M A := fun w =>
  match m w with
  | (Ok a, w') => (Ok a, w')
  | (Raise e, w') => h e w'
  end.

Section Services.
Context `{P : Platform}.

(** [s.encode('utf-8')] *)
Definition encode (s : str) : res bytes :=
  if existsb is_surrogate s then Raise UnicodeEncodeError else Ok (encode_utf8 s).

(** The interaction [e] happens: it is recorded and takes its time. *)
Definition record (e : effect) (w : world) : world :=
  {| objects := objects w;
     trace := trace w ++ [e];
     now := now w + Z.of_N (elapsed (trace w) e) |}.

(** A call whose parameters passed the checks, which may still fail. *)
Definition service_call (e : effect) : M unit := fun w =>
  match service_fault (trace w) e with
  | Some x => (Raise x, record e w)
  | None => (Ok tt, record e w)
  end.

(** A call the client library refuses for its parameters. *)
Definition refused {A} (e : effect) (x : exn) : M A := fun w => (Raise x, record e w).

(** [s3.get_object(Bucket=bucket, Key=key)].  The client library checks the
    parameters before it sends anything: the name of the bucket is matched
    against a pattern, which takes a string ([TypeError] otherwise), and
    [Key] has to be a string of at least one character. *)
Definition get_object (bucket key : json) : M s3object :=
  match bucket, key with
  | JStr b, JStr (c :: k) =>
      _ ← service_call (GetObject bucket key);
      inspect (fun w => or_raise NoSuchKey (objects w !! (b, c :: k)))
  | JStr _, _ => refused (GetObject bucket key) ParamValidationError
  | _, _ => refused (GetObject bucket key) TypeError
  end.

(** The check of [Metadata] the client library makes first of all: every
    key and every value is encoded as ASCII; a value that is not a string
    has no [encode]. *)
Fixpoint validate_ascii_metadata (meta : list (str * json)) : res (list (str * str)) :=
  match meta with
  | [] => Ok []
  | (k, v) :: rest =>
      if negb (is_ascii k) then Raise ParamValidationError
      else
        match v with
        | JStr s =>
            if is_ascii s then
              rest' ← validate_ascii_metadata rest;
              Ok ((k, s) :: rest')
            else Raise ParamValidationError
        | _ => Raise AttributeError
        end
  end.

(** [s3.put_object(Bucket, Key, Body, ContentType, ServerSideEncryption,
    Metadata)]: after the check of the metadata, [Key] has to have at least
    one character. *)
Definition put_object (bucket key : str) (content : bytes) (ctype enc : str)
    (meta : list (str * json)) : M unit := fun w =>
  let call := PutObject bucket key content ctype enc meta in
  match validate_ascii_metadata meta, key with
  | Raise x, _ => refused call x w
  | Ok _, [] => refused call ParamValidationError w
  | Ok meta', _ :: _ =>
      let obj := {| body := content; content_type := ctype;
                    server_side_encryption := enc; metadata := meta';
                    last_modified := now w |} in
      match service_call call w with
      | (Ok _, w') =>
          (Ok tt, {| objects := <[(bucket, key) := obj]> (objects w');
                     trace := trace w'; now := now w' |})
      | (Raise e, w') => (Raise e, w')
      end
  end.

(** [s3.list_objects_v2(Bucket=bucket, Prefix=prefix)]: the [Key] and
    [LastModified] of the first thousand objects of the bucket under the
    prefix, in the order of their keys. *)
Definition listing (bucket prefix : str) (w : world) : list (str * Z) :=
  let under (kv : str * str * s3object) : option (str * Z) :=
    let '(b, k, o) := kv in
    if bool_decide (b = bucket) && startswith k prefix
    then Some (k, last_modified o) else None in
  firstn 1000 (merge_sort key_le (omap under (map_to_list (objects w)))).

Definition list_objects_v2 (bucket prefix : str) : M (list (str * Z)) :=
  _ ← service_call (ListObjectsV2 bucket prefix);
  inspect (fun w => Ok (listing bucket prefix w)).

(** [translate_client.translate_text(...)['TranslatedText']] *)
Definition translate_text (text : str) (source target : json) : M str := fun w =>
  (translate_response (trace w) text source target,
   record (TranslateText text source target) w).

(** [datetime.utcnow()] and [time.time()]: the clock, in ticks. *)
Definition read_clock : M Z := fun w =>
  let w' := record ReadClock w in (Ok (now w'), w').

(** [time.sleep(secs)] *)
Definition sleep (secs : Z) : M unit := fun w =>
  if secs <? 0 then (Raise ValueError, w)
  else
    let w' := record (Sleep secs) w in
    (Ok tt, {| objects := objects w'; trace := trace w';
               now := now w' + secs * Z.pos ticks_per_second |}).

(** ** [str()] and [repr()] of a JSON value *)
Fixpoint py_repr (x : json) : str :=
  match x with
  | JNull => lit "None"
  | JBool true => lit "True"
  | JBool false => lit "False"
  | JInt z => int_str z
  | JFloat f => float_repr f
  | JStr s => str_repr s
  | JList l => lit "[" ++ join (lit ", ") (map py_repr l) ++ lit "]"
  | JDict d =>
      lit "{" ++
      join (lit ", ") (map (fun kv => str_repr (fst kv) ++ lit ": " ++ py_repr (snd kv)) d)
      ++ lit "}"
  end.

Definition py_str (x : json) : str :=
  match x with
  | JStr s => s
  | _ => py_repr x
  end.

End Services.

(** * The ingestion handler, [lambda_function/lambda_function.py] *)
Module Ingestion.

(** One element of [translated_texts]. *)
Record translation : Type := {
  text_id : json;
  original_text : str;
  translated_text : str;
  character_count : Z
}.

Record translation_metadata : Type := {
  source_language : json;
  target_language : json;
  total_texts : Z;
  total_characters : Z;
  timestamp : str;
  processing_status : str
}.

(** The dict [process_translation] returns. *)
Record translation_result : Type := {
  metadata_of : translation_metadata;
  translations : list translation;
  original_request : json
}.

(** The handler's return value. *)
Record response : Type := {
  statusCode : Z;
  response_body : str
}.

Definition required_fields : list str :=
  [lit "source_language"; lit "target_language"; lit "texts"].

(** The loop [for field in required_fields] of
    [validate_translation_request]: [Ok false] is its [return False]. *)
Fixpoint fields_present (fields : list str) (request_data : json) : res bool :=
  match fields with
  | [] => Ok true
  | field :: fields' =>
      present ← py_in field request_data;
      if negb present then Ok false else fields_present fields' request_data
  end.

Definition validate_translation_request (request_data : json) : res bool :=
  complete ← fields_present required_fields request_data;
  if negb complete then Ok false
  else
    texts ← subscript request_data (lit "texts");
    match texts with
    | JList l => if len l =? 0 then Ok false else Ok true
    | _ => Ok false
    end.

(** [json.dumps] sees the result as the dict the source builds. *)
Definition translation_json (t : translation) : json :=
  JDict [(lit "id", text_id t);
         (lit "original_text", JStr (original_text t));
         (lit "translated_text", JStr (translated_text t));
         (lit "character_count", JInt (character_count t))].

Definition result_json (r : translation_result) : json :=
  let m := metadata_of r in
  JDict [(lit "translation_metadata",
          JDict [(lit "source_language", source_language m);
                 (lit "target_language", target_language m);
                 (lit "total_texts", JInt (total_texts m));
                 (lit "total_characters", JInt (total_characters m));
                 (lit "timestamp", JStr (timestamp m));
                 (lit "processing_status", JStr (processing_status m))]);
         (lit "translations", JList (map translation_json (translations r)));
         (lit "original_request", original_request r)].

(** [os.path.splitext(input_key)[0]], then the f-string of
    [generate_output_key] with the formatted time [timestamp]. *)
Definition output_key (input_key timestamp : str) : str :=
  let base_name := fst (splitext input_key) in
  base_name ++ lit "_translated_" ++ timestamp ++ lit ".json".

Section WithPlatform.
Context `{P : Platform}.

(** The first statement of the loop body of [process_translation]:
    [text_to_translate] and [text_id] for the item, when
    [translated_texts] holds [n] entries. *)
Definition item_fields (text_item : json) (n : Z) : json * json :=
  match text_item with
  | JDict d =>
      match dict_get d (lit "text") with
      | Some text =>
          (text, match dict_get d (lit "id") with Some i => i | None => JInt n end)
      | None => (JStr (py_str text_item), JInt n)
      end
  | _ => (JStr (py_str text_item), JInt n)
  end.

(** The loop state: [translated_texts] and [total_characters]. *)
Definition progress : Type := list translation * Z.

(** One iteration of [for text_item in texts]. *)
Definition translate_item (source target : json) (text_item : json)
    (st : progress) : M progress :=
  let '(translated_texts, total_characters) := st in
  let '(text_to_translate, tid) := item_fields text_item (len translated_texts) in
  match text_to_translate with
  | JStr text =>
      if is_blank text then
        mret (translated_texts ++
                [{| text_id := tid; original_text := text;
                    translated_text := []; character_count := 0 |}],
              total_characters)
      else
        translated ← translate_text text source target;
        let count := len text in
        mret (translated_texts ++
                [{| text_id := tid; original_text := text;
                    translated_text := translated; character_count := count |}],
              total_characters + count)
  | _ => raise AttributeError   (* no [strip] on a non-string *)
  end.

Fixpoint translate_items (source target : json) (texts : list json)
    (st : progress) : M progress :=
  match texts with
  | [] => mret st
  | text_item :: rest =>
      st' ← translate_item source target text_item st;
      translate_items source target rest st'
  end.

Definition process_translation (translation_request : json) : M translation_result :=
  source ← lift (subscript translation_request (lit "source_language"));
  target ← lift (subscript translation_request (lit "target_language"));
  texts ← lift (subscript translation_request (lit "texts"));
  items ← lift (py_iter texts);
  st ← translate_items source target items ([], 0);
  count ← lift (py_len texts);
  t ← read_clock;
  mret {| metadata_of :=
            {| source_language := source;
               target_language := target;
               total_texts := count;
               total_characters := snd st;
               timestamp := isoformat t;
               processing_status := lit "completed" |};
          translations := fst st;
          original_request := translation_request |}.

Definition generate_output_key (input_key : str) : M str :=
  t ← read_clock;
  mret (output_key input_key (strftime_compact t)).

Definition upload_result_to_s3 (bucket key : str) (result_data : translation_result)
    : M unit :=
  let json_content := json_dumps_indent (result_json result_data) in
  content ← lift (encode json_content);
  t ← read_clock;
  put_object bucket key content (lit "application/json") (lit "AES256")
    [(lit "processing-timestamp", JStr (isoformat t));
     (lit "content-type", JStr (lit "translation-result"))].

(** [record['s3']['bucket']['name']] and
    [unquote_plus(record['s3']['object']['key'])]. *)
Definition record_target (rec : json) : res (json * str) :=
  s3 ← subscript rec (lit "s3");
  b ← subscript s3 (lit "bucket");
  bucket ← subscript b (lit "name");
  s3' ← subscript rec (lit "s3");
  o ← subscript s3' (lit "object");
  key ← subscript o (lit "key");
  match key with
  | JStr k => Ok (bucket, unquote_plus k)
  | _ => Raise AttributeError
  end.

(** The body of the inner [try] for one record. *)
Definition process_file (response_bucket : str) (bucket : json) (key : str) : M unit :=
  response ← get_object bucket (JStr key);
  file_content ← lift (or_raise UnicodeDecodeError (decode_utf8 (body response)));
  translation_request ← lift (or_raise JSONDecodeError (json_loads file_content));
  valid ← lift (validate_translation_request translation_request);
  if negb valid then mret tt   (* [continue] *)
  else
    translation_result ← process_translation translation_request;
    key' ← generate_output_key key;
    upload_result_to_s3 response_bucket key' translation_result.

(** [for record in event['Records']] *)
Fixpoint process_records (response_bucket : str) (records : list json) : M unit :=
  match records with
  | [] => mret tt
  | rec :: rest =>
      target ← lift (record_target rec);
      _ ← try_except (process_file response_bucket (fst target) (snd target))
            (fun _ => mret tt);
      process_records response_bucket rest
  end.

Definition environ_get (environ : gmap str str) (name : str) : res str :=
  or_raise (KeyError name) (environ !! name).

Definition lambda_handler (environ : gmap str str) (event : json) : M response :=
  try_except
    (request_bucket ← lift (environ_get environ (lit "REQUEST_BUCKET"));
     response_bucket ← lift (environ_get environ (lit "RESPONSE_BUCKET"));
     records ← lift (subscript event (lit "Records"));
     items ← lift (py_iter records);
     _ ← process_records response_bucket items;
     count ← lift (r ← subscript event (lit "Records"); py_len r);
     mret {| statusCode := 200;
             response_body :=
               json_dumps
                 (JDict [(lit "message",
                          JStr (lit "Translation processing completed successfully"));
                         (lit "processed_files", JInt count)]) |})
    (fun e =>
       mret {| statusCode := 500;
               response_body :=
                 json_dumps
                   (JDict [(lit "error", JStr (lit "Translation processing failed"));
                           (lit "message", JStr (exn_str e))]) |}).

(** *** Vocabulary for the statements about the handler *)

(** The text the loop works on for an item, when it is a string. *)
Definition text_of (text_item : json) : option str :=
  match fst (item_fields text_item 0) with
  | JStr text => Some text
  | _ => None
  end.

(** The item carries no ['id'] of its own. *)
Definition lacks_id (text_item : json) : Prop :=
  match text_item with
  | JDict d => dict_get d (lit "id") = None
  | _ => True
  end.

(** The item is neither a string nor a mapping with a ['text'] key. *)
Definition coerced (text_item : json) : Prop :=
  match text_item with
  | JStr _ => False
  | JDict d => dict_get d (lit "text") = None
  | _ => True
  end.

(** The calls to the translation service a run makes for [texts]: one
    for each text that is not blank, in order. *)
Definition calls (source target : json) (texts : list str) : list effect :=
  map (fun text => TranslateText text source target)
      (List.filter (fun text => negb (is_blank text)) texts).

(** [e] is the entry the loop appends for [text_item] when
    [translated_texts] holds [n] entries and the service has the history
    [h]. *)
Definition entry_for (source target : json) (h : list effect) (n : Z)
    (text_item : json) (e : translation) : Prop :=
  item_fields text_item n = (JStr (original_text e), text_id e) /\
  if is_blank (original_text e)
  then translated_text e = [] /\ character_count e = 0
  else translate_response h (original_text e) source target = Ok (translated_text e) /\
       character_count e = len (original_text e).

(** A record of an S3 event notification: it names a bucket and carries
    an object key. *)
Definition s3_record (rec : json) : Prop :=
  exists d s b o name k,
    rec = JDict d /\ dict_get d (lit "s3") = Some (JDict s) /\
    dict_get s (lit "bucket") = Some (JDict b) /\ dict_get b (lit "name") = Some name /\
    dict_get s (lit "object") = Some (JDict o) /\ dict_get o (lit "key") = Some (JStr k).

(** The decoded body does not have the field: [field in request_data]
    is not [True]. *)
Definition missing (field : str) (request_data : json) : Prop :=
  py_in field request_data <> Ok true.

(** The records [for record in event['Records']] visits. *)
Definition batch (event : json) : res (list json) :=
  records ← subscript event (lit "Records");
  py_iter records.


End WithPlatform.
End Ingestion.

(** * The retrieval handler, [retrieval_function/lambda_function.py] *)
Module Retrieval.

Record response : Type := {
  statusCode : Z;
  headers : list (str * str);
  response_body : str
}.

(** The [headers] dict every [return] of the handler writes out. *)
Definition cors_headers : list (str * str) :=
  [(lit "Content-Type", lit "application/json");
   (lit "Access-Control-Allow-Origin", lit "*")].

Section WithPlatform.
Context `{P : Platform}.

Definition message (text : string) : str :=
  json_dumps (JDict [(lit "message", JStr (lit text))]).

(** [response_bucket] is the module-level
    [os.environ['RESPONSE_BUCKET']]. *)
Definition lambda_handler (response_bucket : str) (event : json) : M response :=
  match (params ← subscript event (lit "pathParameters");
         subscript params (lit "request_id")) with
  | Raise (KeyError _) =>
      mret {| statusCode := 400; headers := cors_headers;
              response_body := message "Error: Missing request_id in path." |}
  | Raise e => raise e
  | Ok request_id =>
      try_except
        (response ← get_object (JStr response_bucket) request_id;
         file_content ← lift (or_raise UnicodeDecodeError (decode_utf8 (body response)));
         mret {| statusCode := 200; headers := cors_headers;
                 response_body := file_content |})
        (fun e =>
           match e with
           | NoSuchKey =>
               mret {| statusCode := 404; headers := cors_headers;
                       response_body :=
                         message "Translation not found or still processing." |}
           | _ =>
               mret {| statusCode := 500; headers := cors_headers;
                       response_body := message "An internal server error occurred." |}
           end)
  end.

End WithPlatform.
End Retrieval.

(** * The client, [python_translator.py] *)
Module Client.
Import Ingestion.

(** The attributes of an [AWSTranslationClient]. *)
Record client : Type := {
  request_bucket : str;
  response_bucket : str;
  region : str
}.

Record direct_metadata : Type := {
  direct_source_language : str;
  direct_target_language : str;
  direct_total_texts : Z;
  direct_total_characters : Z;
  direct_timestamp : str;
  direct_processing_status : str;
  method : str
}.

(** The dict [translate_direct] returns. *)
Record direct_result : Type := {
  direct_metadata_of : direct_metadata;
  direct_translations : list translation
}.

(** The key [submit_translation_request] uploads to. *)
Definition request_filename (request_id : str) : str :=
  lit "translation_request_" ++ request_id ++ lit ".json".

(** The [Prefix] [wait_for_translation_result] lists under. *)
Definition result_prefix (request_id : str) : str :=
  lit "translation_request_" ++ request_id ++ lit "_translated".

(** [for i, text in enumerate(texts)] of [create_translation_request],
    from index [i] on. *)
Fixpoint structured_texts (i : Z) (texts : list str) : list json :=
  match texts with
  | [] => []
  | text :: rest =>
      JDict [(lit "id", JInt i); (lit "text", JStr text)] :: structured_texts (i + 1) rest
  end.

(** [max(contents, key=lambda x: x['LastModified'])], the first of the
    latest, with [best] the maximum so far. *)
Fixpoint latest (best : str * Z) (contents : list (str * Z)) : str * Z :=
  match contents with
  | [] => best
  | x :: rest => latest (if snd best <? snd x then x else best) rest
  end.

Section WithPlatform.
Context `{P : Platform}.

(** The ticks of the clock in one second. *)
Definition tick : Z := Z.pos ticks_per_second.

Definition create_translation_request (texts : list str)
    (source_language target_language : str) (request_id : option str) : M json :=
  rid ← match request_id with
        | Some (c :: r) => mret (c :: r)
        | _ => t ← read_clock; mret (lit "req_" ++ strftime_compact t)
        end;
  t ← read_clock;
  mret (JDict [(lit "request_id", JStr rid);
               (lit "source_language", JStr source_language);
               (lit "target_language", JStr target_language);
               (lit "texts", JList (structured_texts 0 texts));
               (lit "timestamp", JStr (isoformat t));
               (lit "client_info",
                JDict [(lit "version", JStr (lit "1.0"));
                       (lit "client_type", JStr (lit "python_client"))])]).

Definition submit_translation_request (self : client) (request_data : json) : M str :=
  rid ← lift (subscript request_data (lit "request_id"));
  let filename := request_filename (py_str rid) in
  let json_content := json_dumps_indent request_data in
  content ← lift (encode json_content);
  meta ← lift (
    rid' ← subscript request_data (lit "request_id");
    source ← subscript request_data (lit "source_language");
    target ← subscript request_data (lit "target_language");
    texts ← subscript request_data (lit "texts");
    count ← py_len texts;
    mret [(lit "request-id", rid'); (lit "source-language", source);
          (lit "target-language", target); (lit "text-count", JStr (int_str count))]);
  _ ← put_object (request_bucket self) filename content
        (lit "application/json") (lit "AES256") meta;
  mret filename.

Definition get_translation_result (self : client) (result_key : str) : M json :=
  response ← get_object (JStr (response_bucket self)) (JStr result_key);
  content ← lift (or_raise UnicodeDecodeError (decode_utf8 (body response)));
  lift (or_raise JSONDecodeError (json_loads content)).

(** The body of the [try] inside the polling loop: [Some] is its
    [return result_data], [None] is reaching the end of the body. *)
Definition poll_once (self : client) (request_id : str) (poll_interval : Z)
    : M (option json) :=
  contents ← list_objects_v2 (response_bucket self) (result_prefix request_id);
  match contents with
  | first :: others =>
      let latest_object := latest first others in
      result_data ← get_translation_result self (fst latest_object);
      mret (Some result_data)
  | [] =>
      _ ← read_clock;   (* the elapsed time in the log line *)
      _ ← sleep poll_interval;
      mret None
  end.

(** [while time.time() - start_time < timeout], for at most [fuel]
    evaluations of the condition.  The outer [None] is running out of
    [fuel]; [Some r] is the value the method returns. *)
Fixpoint polling (fuel : nat) (self : client) (request_id : str)
    (timeout poll_interval start_time : Z) : M (option (option json)) :=
  match fuel with
  | O => mret None
  | S fuel' =>
      t ← read_clock;
      if t - start_time <? timeout * Z.pos ticks_per_second then
        found ← try_except (poll_once self request_id poll_interval)
                  (fun _ => _ ← sleep poll_interval; mret None);
        match found with
        | Some result_data => mret (Some (Some result_data))
        | None => polling fuel' self request_id timeout poll_interval start_time
        end
      else mret (Some None)
  end.

Definition wait_for_translation_result (fuel : nat) (self : client)
    (request_id : str) (timeout poll_interval : Z) : M (option (option json)) :=
  start_time ← read_clock;
  polling fuel self request_id timeout poll_interval start_time.

Definition translate_texts_sync (fuel : nat) (self : client) (texts : list str)
    (source_language target_language : str) (timeout : Z) : M (option (option json)) :=
  request_data ← create_translation_request texts source_language target_language None;
  _ ← submit_translation_request self request_data;
  rid ← lift (subscript request_data (lit "request_id"));
  wait_for_translation_result fuel self (py_str rid) timeout 5.

(** The object a result was read from: in the response bucket, under the
    prefix polled for the request, holding the JSON text of the result. *)
Definition read_from (self : client) (request_id : str) (w : world) (result : json) : Prop :=
  exists key obj content,
    objects w !! (response_bucket self, key) = Some obj /\
    startswith key (result_prefix request_id) = true /\
    decode_utf8 (body obj) = Some content /\
    json_loads content = Some result.

(** One iteration of [for i, text in enumerate(texts)] of
    [translate_direct]. *)
Definition direct_item (source target : str) (i : Z) (text : str)
    (st : progress) : M progress :=
  let '(translated_texts, total_characters) := st in
  if is_blank text then
    mret (translated_texts ++
            [{| text_id := JInt i; original_text := text;
                translated_text := []; character_count := 0 |}],
          total_characters)
  else
    translated ← translate_text text (JStr source) (JStr target);
    let count := len text in
    mret (translated_texts ++
            [{| text_id := JInt i; original_text := text;
                translated_text := translated; character_count := count |}],
          total_characters + count).

Fixpoint direct_items (source target : str) (i : Z) (texts : list str)
    (st : progress) : M progress :=
  match texts with
  | [] => mret st
  | text :: rest =>
      st' ← direct_item source target i text st;
      direct_items source target (i + 1) rest st'
  end.

Definition translate_direct (self : client) (texts : list str)
    (source_language target_language : str) : M direct_result :=
  st ← direct_items source_language target_language 0 texts ([], 0);
  t ← read_clock;
  mret {| direct_metadata_of :=
            {| direct_source_language := source_language;
               direct_target_language := target_language;
               direct_total_texts := len texts;
               direct_total_characters := snd st;
               direct_timestamp := isoformat t;
               direct_processing_status := lit "completed";
               method := lit "direct" |};
          direct_translations := fst st |}.

End WithPlatform.
End Client.

(** * A concrete platform for examples

    Text is ASCII, one byte per character; [json.loads] and the translation
    service are given by tables. *)
Definition ascii_bytes (s : str) : bytes :=
  map (fun c => Ascii.byte_of_ascii (ascii_of_N c)) s.

Definition ascii_text (b : bytes) : option str :=
  Some (map (fun x => N_of_ascii (Ascii.ascii_of_byte x)) b).

Definition toy_platform (loads : str -> option json)
    (translate : list effect -> str -> res str)
    (fault : effect -> option str) : Platform :=
  {| unquote_plus := fun s => s;
     decode_utf8 := ascii_text;
     encode_utf8 := ascii_bytes;
     json_loads := loads;
     json_dumps := fun _ => lit "{}";
     json_dumps_indent := fun _ => lit "{}";
     str_repr := fun s => lit "'" ++ s ++ lit "'";
     float_repr := fun _ => lit "0.0";
     float_repr_visible := fun _ => eq_refl;
     exn_str := fun _ => lit "error";
     strftime_compact := fun _ => lit "20240101_000000";
     isoformat := fun _ => lit "2024-01-01T00:00:00";
     isoformat_ascii := fun _ => eq_refl;
     ticks_per_second := 1000%positive;
     elapsed := fun _ _ => 1%N;
     service_fault := fun _ e => ClientError <$> fault e;
     service_fault_other :=
       (ltac:(intros _ e; destruct (fault e); discriminate)
        : forall (h : list effect) e, ClientError <$> fault e <> Some NoSuchKey);
     translate_response := fun h text _ _ => translate h text |}.

(** A translator that answers every text with ["Hola"], and one that
    answers with the empty string. *)
Definition hola : list effect -> str -> res str := fun _ _ => Ok (lit "Hola").
Definition mute : list effect -> str -> res str := fun _ _ => Ok [].

Definition no_fault : effect -> option str := fun _ => None.

Definition empty_world : world := {| objects := ∅; trace := []; now := 0 |}.

(** The request [{"source_language": "en", "target_language": "es",
    "texts": texts}]. *)
Definition request_of (texts : list json) : json :=
  JDict [(lit "source_language", JStr (lit "en"));
         (lit "target_language", JStr (lit "es"));
         (lit "texts", JList texts)].

(** The record S3 sends for an object [key] created in [bucket]. *)
Definition s3_event_record (bucket key : string) : json :=
  JDict [(lit "s3",
          JDict [(lit "bucket", JDict [(lit "name", JStr (lit bucket))]);
                 (lit "object", JDict [(lit "key", JStr (lit key))])])].

(** An uploaded file with the given content. *)
Definition uploaded (content : string) : s3object :=
  {| body := ascii_bytes (lit content); content_type := lit "application/json";
     server_side_encryption := lit "AES256"; metadata := []; last_modified := 0 |}.

(** A request without ['target_language']. *)
Definition incomplete_request : json :=
  JDict [(lit "source_language", JStr (lit "en"));
         (lit "texts", JList [JStr (lit "Hello")])].

(** A platform on which every file parses to [request], with a working
    translator and no service faults. *)
Definition platform_reading (request : json) : Platform :=
  toy_platform (fun _ => Some request) hola no_fault.

Definition configured : gmap str str :=
  {[ lit "REQUEST_BUCKET" := lit "requests"; lit "RESPONSE_BUCKET" := lit "responses" ]}.

(** A world whose request bucket holds one uploaded file. *)
Definition one_upload : world :=
  {| objects := {[ (lit "requests", lit "translation_request_r1.json") := uploaded "{}" ]};
     trace := []; now := 0 |}.

(** Platforms with a working, a mute and a failing translator; files do
    not parse on them. *)
Definition working_platform : Platform := toy_platform (fun _ => None) hola no_fault.
Definition mute_platform : Platform := toy_platform (fun _ => None) mute no_fault.

(** A translator that answers its first call and fails afterwards. *)
Definition flaky : list effect -> str -> res str := fun h _ =>
  match h with
  | [] => Ok (lit "Hola")
  | _ :: _ => Raise (ClientError (lit "ThrottlingException"))
  end.
Definition flaky_platform : Platform := toy_platform (fun _ => None) flaky no_fault.

(** Two items, a bare string and a mapping without ['id']. *)
Definition two_items : list json :=
  [JStr (lit "Hello"); JDict [(lit "text", JStr (lit "World"))]].

(** The items of the example in the specification: ["Hello"], ["  "] and
    ["World"], the last one in its structured form. *)
Definition three_items : list json :=
  [JStr (lit "Hello"); JStr (lit "  "); JDict [(lit "text", JStr (lit "World"))]].

Definition a_client : Client.client :=
  {| Client.request_bucket := lit "requests";
     Client.response_bucket := lit "responses";
     Client.region := lit "us-east-1" |}.

(** The event API Gateway sends for a route without path parameters. *)
Definition event_without_path_parameters : json :=
  JDict [(lit "httpMethod", JStr (lit "GET")); (lit "pathParameters", JNull)].

(** The interaction, if it writes to the object store, writes to the bucket
    [b]. *)
Definition puts_only_to (b : str) (e : effect) : Prop :=
  match e with
  | PutObject b' _ _ _ _ _ => b' = b
  | _ => True
  end.

(** The interaction is a [get_object] call. *)
Definition is_get_object (e : effect) : bool :=
  match e with
  | GetObject _ _ => true
  | _ => false
  end.

(** The interaction, if it is a call to the translation service, carries a
    text that is not blank. *)
Definition sends_visible_text (e : effect) : Prop :=
  match e with
  | TranslateText text _ _ => is_blank text = false
  | _ => True
  end.

(** The [put_object] call with which [upload_result_to_s3] stores
    [content] under [key] when its clock reads [t]. *)
Definition upload_call `{P : Platform} (bucket key : str) (content : bytes) (t : Z)
    : effect :=
  PutObject bucket key content (lit "application/json") (lit "AES256")
    [(lit "processing-timestamp", JStr (isoformat t));
     (lit "content-type", JStr (lit "translation-result"))].

(** The [put_object] call with which [submit_translation_request] stores
    [content] for a request with the id [rid], the languages [sl] and [tl]
    and [count] texts. *)
Definition submit_call (self : Client.client) (rid sl tl : str) (count : Z)
    (content : bytes) : effect :=
  PutObject (Client.request_bucket self) (Client.request_filename rid) content
    (lit "application/json") (lit "AES256")
    [(lit "request-id", JStr rid); (lit "source-language", JStr sl);
     (lit "target-language", JStr tl); (lit "text-count", JStr (int_str count))].

(** The interaction is a request to the translation service or a reading
    of the clock. *)
Definition translate_or_clock (e : effect) : Prop :=
  match e with
  | TranslateText _ _ _ | ReadClock => True
  | _ => False
  end.

(** The store [m'] has everything [m] has, possibly overwritten, and
    differs from [m] only in the bucket [b]. *)
Definition grown_in (b : str) (m m' : gmap (str * str) s3object) : Prop :=
  (forall key, is_Some (m !! key) -> is_Some (m' !! key)) /\
  (forall b' k, b' <> b -> m' !! (b', k) = m !! (b', k)).


(** The request of a client for ["Hello"] and ["World"], with the id
    ["r1"]. *)
Definition request_r1 : json :=
  JDict [(lit "request_id", JStr (lit "r1"));
         (lit "source_language", JStr (lit "en"));
         (lit "target_language", JStr (lit "es"));
         (lit "texts", JList two_items)].

(** Items for examples: one whose ['text'] is a number, one with an ['id']
    of its own. *)
Definition numeric_text_items : list json :=
  [JStr (lit "Hello"); JDict [(lit "text", JInt 5)]; JStr (lit "World")].
Definition labelled_items : list json :=
  [JDict [(lit "id", JStr (lit "a7")); (lit "text", JStr (lit "Hello"))]].

(** A world whose response bucket holds one result for the request
    ["r1"]. *)
Definition one_result : world :=
  {| objects :=
       {[ (lit "responses", lit "translation_request_r1_translated_20240101_000000.json")
          := uploaded "{}" ]};
     trace := []; now := 0 |}.





(** The event of [GET /.../{request_id}] for the given id. *)
Definition retrieval_event (request_id : json) : json :=
  JDict [(lit "pathParameters", JDict [(lit "request_id", request_id)])].

(** Tactics for running the monadic code of the models. *)
Ltac run_M :=
  unfold mbind, M_bind, mret, M_ret, lift, raise, inspect, try_except,
    res_bind, res_ret in *.

(** * Facts about the Python primitives *)

Lemma lstrip_nil_iff (s : str) : lstrip s = [] <-> forallb isspace s = true.
Proof.
  induction s as [|c s IH]; simpl; [tauto|].
  destruct (isspace c); simpl; [exact IH|].
  split; discriminate.
Qed.

Lemma lstrip_all_space (s : str) : forallb isspace s = true -> lstrip s = [].
Proof. apply lstrip_nil_iff. Qed.

Lemma forallb_lstrip (s : str) :
  forallb isspace (lstrip s) = true -> forallb isspace s = true.
Proof.
  induction s as [|c s IH]; simpl; [done|].
  destruct (isspace c) eqn:Hc; simpl; [exact IH|].
  rewrite Hc. done.
Qed.

(** [not s.strip()] holds exactly when every character of [s] is
    whitespace. *)
Lemma is_blank_forallb (s : str) : is_blank s = forallb isspace s.
Proof.
  unfold is_blank, strip, rstrip.
  destruct (forallb isspace s) eqn:Hs.
  - rewrite (lstrip_all_space s Hs). reflexivity.
  - destruct (rev (lstrip (rev (lstrip s)))) as [|c r] eqn:Hr; [|reflexivity].
    exfalso.
    apply (f_equal (@rev N)) in Hr. rewrite rev_involutive in Hr. simpl in Hr.
    apply lstrip_nil_iff in Hr.
    rewrite forallb_forall in Hr.
    assert (Hl : forallb isspace (lstrip s) = true).
    { apply forallb_forall. intros x Hx. apply Hr. apply in_rev.
      rewrite rev_involutive. exact Hx. }
    apply forallb_lstrip in Hl. congruence.
Qed.

Lemma visible_head_not_blank (c : N) (s : str) :
  isspace c = false -> is_blank (c :: s) = false.
Proof. intros Hc. rewrite is_blank_forallb. simpl. rewrite Hc. reflexivity. Qed.

Lemma int_str_not_blank (z : Z) : is_blank (int_str z) = false.
Proof.
  unfold int_str.
  destruct (Z.to_int z) as [d|d]; [|apply visible_head_not_blank; reflexivity].
  destruct d; apply visible_head_not_blank; reflexivity.
Qed.

(** [str(z)] is written in ASCII. *)
Lemma int_str_ascii (z : Z) : is_ascii (int_str z) = true.
Proof.
  assert (He : forall d, is_ascii (lit (NilEmpty.string_of_uint d)) = true).
  { unfold is_ascii, lit. induction d; simpl; auto. }
  assert (Hu : forall d, is_ascii (lit (NilZero.string_of_uint d)) = true).
  { intros d. destruct d; try apply He. reflexivity. }
  unfold int_str. destruct (Z.to_int z) as [d|d]; [apply Hu|].
  specialize (Hu d). unfold is_ascii, lit in *. simpl. exact Hu.
Qed.

Section ReprFacts.
Context `{P : Platform}.

(** [str(x)] of anything but a string shows at least one visible
    character. *)
Lemma py_str_not_blank (x : json) :
  (forall s, x <> JStr s) -> is_blank (py_str x) = false.
Proof.
  intros Hx. destruct x as [|b|z|f|s|l|d]; simpl.
  - reflexivity.
  - destruct b; reflexivity.
  - apply int_str_not_blank.
  - apply float_repr_visible.
  - destruct (Hx s eq_refl).
  - apply visible_head_not_blank. reflexivity.
  - apply visible_head_not_blank. reflexivity.
Qed.
End ReprFacts.

(** * The calls to the object store *)
Section ServiceFacts.
Context `{P : Platform}.

Lemma get_object_run (bucket key : str) (w : world) :
  get_object (JStr bucket) (JStr key) w =
  let call := GetObject (JStr bucket) (JStr key) in
  match key with
  | [] => (Raise ParamValidationError, record call w)
  | _ :: _ =>
      match service_fault (trace w) call with
      | Some x => (Raise x, record call w)
      | None => (or_raise NoSuchKey (objects w !! (bucket, key)), record call w)
      end
  end.
Proof.
  destruct key as [|c k]; [reflexivity|].
  unfold get_object, service_call. run_M. cbv zeta.
  destruct (service_fault _ _); reflexivity.
Qed.

(** Whatever it returns, a [get_object] is one call, which changes no
    bucket; when it returns an object, the object is the one stored. *)
Lemma get_object_frame (bucket key : json) (w w' : world) (out : res s3object) :
  get_object bucket key w = (out, w') ->
  w' = record (GetObject bucket key) w /\
  forall obj, out = Ok obj ->
    exists b k, bucket = JStr b /\ key = JStr k /\ k <> [] /\
                service_fault (trace w) (GetObject bucket key) = None /\
                objects w !! (b, k) = Some obj.
Proof.
  destruct bucket as [| | | |b| |], key as [| | | |[|c k]| |];
    try (intros [= <- <-]; split; [reflexivity|discriminate]).
  rewrite get_object_run. cbv zeta.
  destruct (service_fault _ _) eqn:Hf; [intros [= <- <-]; split; [reflexivity|discriminate]|].
  intros [= <- <-]. split; [reflexivity|]. intros obj Hobj.
  exists b, (c :: k). split; [reflexivity|]. split; [reflexivity|]. split; [discriminate|].
  split; [reflexivity|].
  destruct (objects w !! (b, c :: k)); simpl in Hobj; [congruence|discriminate].
Qed.

Lemma put_object_run (bucket key : str) (content : bytes) (ctype enc : str)
    (meta : list (str * json)) (w : world) :
  let call := PutObject bucket key content ctype enc meta in
  put_object bucket key content ctype enc meta w =
  match validate_ascii_metadata meta, key with
  | Raise x, _ => (Raise x, record call w)
  | Ok _, [] => (Raise ParamValidationError, record call w)
  | Ok meta', _ :: _ =>
      match service_fault (trace w) call with
      | Some x => (Raise x, record call w)
      | None =>
          (Ok tt,
           {| objects :=
                <[(bucket, key) :=
                    {| body := content; content_type := ctype;
                       server_side_encryption := enc; metadata := meta';
                       last_modified := now w |}]> (objects w);
              trace := trace w ++ [call];
              now := now (record call w) |})
      end
  end.
Proof.
  unfold put_object, service_call, refused. cbv zeta.
  destruct (validate_ascii_metadata meta); [|reflexivity].
  destruct key; [reflexivity|].
  destruct (service_fault (trace w) _); reflexivity.
Qed.

(** Metadata that pass the check are stored as they are. *)
Lemma validate_ascii_metadata_strings (l m : list (str * str)) :
  validate_ascii_metadata (map (fun kv => (fst kv, JStr (snd kv))) l) = Ok m -> m = l.
Proof.
  revert m. induction l as [|[k v] l IH]; intros m; simpl; [congruence|].
  destruct (negb (is_ascii k)); [discriminate|].
  destruct (is_ascii v); [|discriminate].
  destruct (validate_ascii_metadata _) as [m'|]; [|discriminate].
  simpl. intros [= <-]. rewrite (IH m' eq_refl). reflexivity.
Qed.

(** A [put_object] with metadata that pass the check and a key that is not
    empty, when the call goes through. *)
Lemma put_object_stores (bucket key : str) (content : bytes) (ctype enc : str)
    (meta : list (str * json)) (meta' : list (str * str)) (w : world) :
  validate_ascii_metadata meta = Ok meta' ->
  key <> [] ->
  service_fault (trace w) (PutObject bucket key content ctype enc meta) = None ->
  put_object bucket key content ctype enc meta w =
    (Ok tt,
     {| objects :=
          <[(bucket, key) :=
              {| body := content; content_type := ctype;
                 server_side_encryption := enc; metadata := meta';
                 last_modified := now w |}]> (objects w);
        trace := trace w ++ [PutObject bucket key content ctype enc meta];
        now := now (record (PutObject bucket key content ctype enc meta) w) |}).
Proof.
  intros Hmeta Hkey Hfault. rewrite put_object_run. cbv zeta. rewrite Hmeta, Hfault.
  destruct key; [congruence|reflexivity].
Qed.

(** Whatever it returns, a [put_object] is one call; when it raises the
    buckets are as before, when it returns it has stored the content under
    the key. *)
Lemma put_object_frame (bucket key : str) (content : bytes) (ctype enc : str)
    (meta : list (str * json)) (w w' : world) (out : res unit) :
  put_object bucket key content ctype enc meta w = (out, w') ->
  trace w' = trace w ++ [PutObject bucket key content ctype enc meta] /\
  match out with
  | Raise _ => objects w' = objects w
  | Ok _ =>
      exists obj,
        objects w' = <[(bucket, key) := obj]> (objects w) /\
        body obj = content /\ content_type obj = ctype /\
        validate_ascii_metadata meta = Ok (metadata obj)
  end.
Proof.
  rewrite put_object_run. cbv zeta.
  destruct (validate_ascii_metadata meta) as [meta'|x];
    [|intros [= <- <-]; split; reflexivity].
  destruct key; [intros [= <- <-]; split; reflexivity|].
  destruct (service_fault (trace w) _); intros [= <- <-]; (split; [reflexivity|]);
    [reflexivity|].
  eexists. split; [reflexivity|]. split; [reflexivity|]. split; reflexivity.
Qed.

End ServiceFacts.

(** * The translation loop of the ingestion handler *)
Section IngestionLoop.
Import Ingestion.
Context `{P : Platform}.
Variables source target : json.

Lemma item_text_any_position (item : json) (n m : Z) :
  fst (item_fields item n) = fst (item_fields item m).
Proof.
  destruct item as [| | | | |l|d]; try reflexivity.
  simpl. destruct (dict_get d (lit "text")); reflexivity.
Qed.

Lemma item_id_default (item : json) (n : Z) :
  lacks_id item -> snd (item_fields item n) = JInt n.
Proof.
  destruct item as [| | | | |l|d]; try reflexivity.
  simpl. intros Hid. destruct (dict_get d (lit "text")); [|reflexivity].
  simpl. rewrite Hid. reflexivity.
Qed.

Lemma item_fields_coerced (item : json) (n : Z) :
  coerced item -> item_fields item n = (JStr (py_str item), JInt n).
Proof.
  destruct item as [| | | |s|l|d]; try reflexivity.
  unfold coerced, item_fields. intros ->. reflexivity.
Qed.

(** What one iteration does, by the shape of the item's text. *)
Lemma translate_item_run (item : json) (acc : list translation) (total : Z) (w : world) :
  translate_item source target item (acc, total) w =
  match item_fields item (len acc) with
  | (JStr text, tid) =>
      if is_blank text then
        (Ok (acc ++ [{| text_id := tid; original_text := text;
                        translated_text := []; character_count := 0 |}], total), w)
      else
        match translate_response (trace w) text source target with
        | Ok out =>
            (Ok (acc ++ [{| text_id := tid; original_text := text;
                            translated_text := out; character_count := len text |}],
                 total + len text),
             record (TranslateText text source target) w)
        | Raise e => (Raise e, record (TranslateText text source target) w)
        end
  | _ => (Raise AttributeError, w)
  end.
Proof.
  unfold translate_item.
  destruct (item_fields item (len acc)) as [text tid].
  destruct text; try reflexivity.
  destruct (is_blank s); [reflexivity|].
  run_M. unfold translate_text.
  destruct (translate_response (trace w) s source target); reflexivity.
Qed.

(** A successful iteration appends exactly one entry. *)
Lemma translate_item_ok (item : json) (acc acc' : list translation)
    (total total' : Z) (w w' : world) :
  translate_item source target item (acc, total) w = (Ok (acc', total'), w') ->
  exists e,
    acc' = acc ++ [e] /\ total' = total + character_count e /\
    entry_for source target (trace w) (len acc) item e /\
    trace w' = trace w ++ calls source target [original_text e] /\
    objects w' = objects w.
Proof.
  rewrite translate_item_run. unfold entry_for, calls.
  destruct (item_fields item (len acc)) as [text tid].
  destruct text as [| | | |text| |]; try discriminate.
  destruct (is_blank text) eqn:Hb.
  - intros [= <- <- <-]. eexists. split; [reflexivity|]. simpl. rewrite Hb. simpl.
    rewrite app_nil_r. repeat split; lia.
  - destruct (translate_response (trace w) text source target) as [out|] eqn:Hr;
      [|discriminate].
    intros [= <- <- <-]. eexists. split; [reflexivity|]. simpl. rewrite Hb. simpl.
    repeat split; done.
Qed.

Lemma calls_app (xs ys : list str) :
  calls source target (xs ++ ys) = calls source target xs ++ calls source target ys.
Proof. unfold calls. rewrite List.filter_app, map_app. reflexivity. Qed.

Lemma translate_items_cons (item : json) (items : list json) (st : progress) (w : world) :
  translate_items source target (item :: items) st w =
  match translate_item source target item st w with
  | (Ok st', w') => translate_items source target items st' w'
  | (Raise e, w') => (Raise e, w')
  end.
Proof. reflexivity. Qed.

(** The loop invariant: a run that succeeds appends one entry per item, in
    order, each the entry for its item at its position; the total grows by
    the character counts; the only effects are the service calls. *)
Lemma translate_items_ok (items : list json) :
  forall (acc acc' : list translation) (total total' : Z) (w w' : world),
    translate_items source target items (acc, total) w = (Ok (acc', total'), w') ->
    exists new,
      acc' = acc ++ new /\ length new = length items /\
      total' = total + sum_Z (map character_count new) /\
      trace w' = trace w ++ calls source target (map original_text new) /\
      objects w' = objects w /\
      forall (i : nat) item e,
        items !! i = Some item -> new !! i = Some e ->
        entry_for source target
          (trace w ++ calls source target (map original_text (take i new)))
          (len acc + Z.of_nat i) item e.
Proof.
  induction items as [|item items IH]; intros acc acc' total total' w w'.
  - simpl. run_M. intros [= <- <- <-]. exists []. unfold calls. simpl.
    rewrite !app_nil_r. split_and!; try done; try lia.
  - rewrite translate_items_cons.
    destruct (translate_item source target item (acc, total) w) as [[[acc1 total1]|e1] w1] eqn:H1;
      [|discriminate].
    intros Hrest.
    apply translate_item_ok in H1 as (e & -> & -> & He & Htr & Hobj).
    apply IH in Hrest as (new & -> & Hlen & -> & Htr' & Hobj' & Hnew).
    exists (e :: new). simpl.
    rewrite <- app_assoc. split; [reflexivity|].
    split; [lia|]. split; [lia|].
    split.
    { rewrite Htr', Htr. rewrite <- app_assoc.
      change (original_text e :: map original_text new)
        with ([original_text e] ++ map original_text new).
      rewrite calls_app. reflexivity. }
    split; [congruence|].
    intros [|i] item' e' Hi He'; simpl in *.
    + injection Hi as <-. injection He' as <-.
      unfold calls at 1. simpl. rewrite app_nil_r, Z.add_0_r. exact He.
    + specialize (Hnew i item' e' Hi He').
      rewrite Htr in Hnew. rewrite <- app_assoc in Hnew.
      change (original_text e :: map original_text (take i new))
        with ([original_text e] ++ map original_text (take i new)).
      rewrite calls_app.
      replace (len acc + Z.of_nat (S i)) with (len (acc ++ [e]) + Z.of_nat i);
        [exact Hnew|].
      unfold len. rewrite length_app. simpl. lia.
Qed.

Lemma item_fields_text (item : json) (text : str) (n : Z) :
  text_of item = Some text -> item_fields item n = (JStr text, snd (item_fields item n)).
Proof.
  unfold text_of. rewrite (item_text_any_position item 0 n).
  destruct (item_fields item n) as [t tid]. simpl.
  destruct t; try discriminate. intros [= ->]. reflexivity.
Qed.

(** The loop runs to its end when every item has a string for its text
    and the service answers each call it receives. *)
Lemma translate_items_total (items : list json) (texts : list str) :
  Forall2 (fun item text => text_of item = Some text) items texts ->
  forall (acc : list translation) (total : Z) (w : world),
    (forall (i : nat) text,
        texts !! i = Some text -> is_blank text = false ->
        exists out,
          translate_response (trace w ++ calls source target (take i texts))
            text source target = Ok out) ->
    exists st w', translate_items source target items (acc, total) w = (Ok st, w').
Proof.
  induction 1 as [|item text items texts Htext _ IH]; intros acc total w Hans.
  - simpl. run_M. eauto.
  - rewrite translate_items_cons, translate_item_run.
    rewrite (item_fields_text item text (len acc) Htext).
    destruct (is_blank text) eqn:Hb.
    + apply IH. intros i t Hi Ht.
      destruct (Hans (S i) t Hi Ht) as [out Hout]. exists out.
      simpl in Hout. unfold calls in *. simpl in Hout. rewrite Hb in Hout. exact Hout.
    + destruct (Hans 0%nat text eq_refl Hb) as [out Hout].
      unfold calls in Hout. simpl in Hout. rewrite app_nil_r in Hout. rewrite Hout.
      apply IH. intros i t Hi Ht.
      destruct (Hans (S i) t Hi Ht) as [out' Hout']. exists out'.
      simpl in *. unfold calls in *. simpl in Hout'. rewrite Hb in Hout'. simpl in Hout'.
      rewrite <- app_assoc. exact Hout'.
Qed.

Lemma entries_texts (items : list json) :
  forall (new : list translation) (texts : list str),
    length new = length items ->
    (forall (i : nat) item e,
        items !! i = Some item -> new !! i = Some e ->
        text_of item = Some (original_text e)) ->
    Forall2 (fun item text => text_of item = Some text) items texts ->
    map original_text new = texts.
Proof.
  induction items as [|item items IH]; intros new texts Hlen Hent Hall;
    inversion Hall as [|? text ? texts' Htext Hall']; subst;
    destruct new as [|e new]; try discriminate; [reflexivity|].
  simpl. f_equal.
  - specialize (Hent 0%nat item e eq_refl eq_refl). congruence.
  - apply IH; [simpl in Hlen; lia| |exact Hall'].
    intros i it e' Hi He'. exact (Hent (S i) it e' Hi He').
Qed.

Lemma counts_of_entries (new : list translation) :
  Forall (fun e => character_count e =
                   if is_blank (original_text e) then 0 else len (original_text e)) new ->
  sum_Z (map character_count new) =
  sum_Z (map len (List.filter (fun text => negb (is_blank text)) (map original_text new))).
Proof.
  induction 1 as [|e new He _ IH]; simpl; [reflexivity|].
  rewrite He, IH. destruct (is_blank (original_text e)); reflexivity.
Qed.

End IngestionLoop.

(** * The ingestion handler's translation step *)
Section IngestionClaims.
Import Ingestion.
Context `{P : Platform}.

Lemma process_translation_run (req source target : json) (items : list json) (w : world) :
  subscript req (lit "source_language") = Ok source ->
  subscript req (lit "target_language") = Ok target ->
  subscript req (lit "texts") = Ok (JList items) ->
  process_translation req w =
  match translate_items source target items ([], 0) w with
  | (Ok st, w1) =>
      (Ok {| metadata_of :=
               {| source_language := source; target_language := target;
                  total_texts := len items; total_characters := snd st;
                  timestamp := isoformat (now (record ReadClock w1));
                  processing_status := lit "completed" |};
             translations := fst st;
             original_request := req |},
       record ReadClock w1)
  | (Raise e, w1) => (Raise e, w1)
  end.
Proof.
  intros Hs Ht Hx. unfold process_translation. run_M. rewrite Hs, Ht, Hx. simpl.
  destruct (translate_items source target items ([], 0) w) as [[st|e] w1]; reflexivity.
Qed.

Lemma process_translation_ok (req : json) (items : list json) (w w' : world)
    (r : translation_result) :
  subscript req (lit "texts") = Ok (JList items) ->
  process_translation req w = (Ok r, w') ->
  exists source target total w1,
    translate_items source target items ([], 0) w = (Ok (translations r, total), w1) /\
    total_characters (metadata_of r) = total.
Proof.
  intros Hx. unfold process_translation. run_M.
  destruct (subscript req (lit "source_language")) as [source|]; [|discriminate].
  destruct (subscript req (lit "target_language")) as [target|]; [|discriminate].
  rewrite Hx. simpl.
  destruct (translate_items source target items ([], 0) w) as [[[new total]|e] w1] eqn:Hrun;
    [|discriminate].
  intros [= <- <-]. simpl. eauto 6.
Qed.

(** C2, as amended.  For a request that passes validation and in which
    every item gives a string to work on (no mapping item carries a
    ['text'] that is not a string), when the translation service answers
    every call: [process_translation] returns a result with one entry per
    text item, in the order of the request, so exactly N entries when the N
    items are all non-blank.  The entry of a
    non-blank item carries the item's text, as [translated_text] the answer
    the service gave for that text (the handler does not look at it, so it
    is non-empty only if the answer is) and the untrimmed length as
    [character_count]; the entry of a blank item carries the empty string
    and zero.  [total_characters] is the sum of the untrimmed lengths of the
    non-blank texts. *)
Theorem C2_result_follows_request (req source target : json) (items : list json)
    (texts : list str) (w : world) :
  validate_translation_request req = Ok true ->
  subscript req (lit "source_language") = Ok source ->
  subscript req (lit "target_language") = Ok target ->
  subscript req (lit "texts") = Ok (JList items) ->
  Forall2 (fun item text => text_of item = Some text) items texts ->
  (forall (i : nat) text,
      texts !! i = Some text -> is_blank text = false ->
      exists out,
        translate_response (trace w ++ calls source target (take i texts))
          text source target = Ok out) ->
  exists r w',
    process_translation req w = (Ok r, w') /\
    length (translations r) = length items /\
    map original_text (translations r) = texts /\
    (forall (i : nat) e,
        translations r !! i = Some e ->
        if is_blank (original_text e)
        then translated_text e = [] /\ character_count e = 0
        else translate_response (trace w ++ calls source target (take i texts))
               (original_text e) source target = Ok (translated_text e) /\
             character_count e = len (original_text e)) /\
    total_characters (metadata_of r) =
      sum_Z (map len (List.filter (fun text => negb (is_blank text)) texts)).
Proof.
  intros _ Hs Ht Hx Htexts Hans.
  destruct (translate_items_total source target items texts Htexts [] 0 w Hans)
    as ([new total] & w1 & Hrun).
  rewrite (process_translation_run req source target items w Hs Ht Hx), Hrun.
  apply translate_items_ok in Hrun as (new' & Hnew & Hlen & Htot & _ & _ & Hent).
  simpl in Hnew. subst new'.
  assert (Horig : map original_text new = texts).
  { apply (entries_texts items); [exact Hlen| |exact Htexts].
    intros i item e Hi He. destruct (Hent i item e Hi He) as [Hf _].
    unfold text_of. rewrite (item_text_any_position item 0 (len (@nil translation) + Z.of_nat i)).
    rewrite Hf. reflexivity. }
  assert (Heach : forall (i : nat) e,
             new !! i = Some e ->
             if is_blank (original_text e)
             then translated_text e = [] /\ character_count e = 0
             else translate_response (trace w ++ calls source target (take i texts))
                    (original_text e) source target = Ok (translated_text e) /\
                  character_count e = len (original_text e)).
  { intros i e He.
    destruct (items !! i) as [item|] eqn:Hi.
    2:{ apply lookup_ge_None in Hi. apply lookup_lt_Some in He. lia. }
    destruct (Hent i item e Hi He) as [_ Hcase].
    rewrite <- Horig, firstn_map. exact Hcase. }
  eexists _, _. split; [reflexivity|]. simpl.
  split; [exact Hlen|]. split; [exact Horig|]. split; [exact Heach|].
  rewrite Htot, <- Horig. rewrite Z.add_0_l. apply counts_of_entries.
  apply Forall_lookup_2. intros i e He. specialize (Heach i e He).
  destruct (is_blank (original_text e)); apply Heach.
Qed.

Lemma structured_texts_length (texts : list str) :
  forall i0, length (Client.structured_texts i0 texts) = length texts.
Proof. induction texts as [|t texts IH]; intros i0; simpl; [reflexivity|]. rewrite IH. reflexivity. Qed.

Lemma structured_texts_lookup (texts : list str) :
  forall (i0 : Z) (i : nat) text,
    texts !! i = Some text ->
    Client.structured_texts i0 texts !! i =
      Some (JDict [(lit "id", JInt (i0 + Z.of_nat i)); (lit "text", JStr text)]).
Proof.
  induction texts as [|t texts IH]; intros i0 [|i] text Hi; try discriminate; simpl in *.
  - injection Hi as ->. rewrite Z.add_0_r. reflexivity.
  - rewrite (IH (i0 + 1) i text Hi).
    replace (i0 + 1 + Z.of_nat i) with (i0 + Z.of_nat (S i)) by lia. reflexivity.
Qed.

(** C8.  [create_translation_request] returns a request whose ['texts']
    holds, for each input string, the pair of its 0-based position as
    ['id'] and the string as ['text'], in order.  And in a result of
    [process_translation], the entry of an item that carries no ['id']
    (a bare string among them) has for [id] the item's 0-based position in
    the request. *)
Theorem C8_ids_are_positions :
  (forall (texts : list str) (src tgt : str) (rid : option str) (w : world),
      exists req w' l,
        Client.create_translation_request texts src tgt rid w = (Ok req, w') /\
        subscript req (lit "texts") = Ok (JList l) /\
        length l = length texts /\
        forall (i : nat) text,
          texts !! i = Some text ->
          l !! i = Some (JDict [(lit "id", JInt (Z.of_nat i)); (lit "text", JStr text)])) /\
  (forall (req : json) (items : list json) (w w' : world) (r : translation_result),
      subscript req (lit "texts") = Ok (JList items) ->
      process_translation req w = (Ok r, w') ->
      forall (i : nat) item,
        items !! i = Some item -> lacks_id item ->
        exists e, translations r !! i = Some e /\ text_id e = JInt (Z.of_nat i)).
Proof.
  split.
  - intros texts src tgt rid w.
    assert (Hl : forall i text, texts !! i = Some text ->
              Client.structured_texts 0 texts !! i =
                Some (JDict [(lit "id", JInt (Z.of_nat i)); (lit "text", JStr text)])).
    { intros i text Hi. rewrite (structured_texts_lookup texts 0 i text Hi). reflexivity. }
    unfold Client.create_translation_request. run_M.
    destruct rid as [[|c rid]|]; simpl;
      (eexists _, _, _; split; [reflexivity|]; split; [reflexivity|];
       split; [apply structured_texts_length|exact Hl]).
  - intros req items w w' r Hx Hrun i item Hi Hid.
    destruct (process_translation_ok req items w w' r Hx Hrun)
      as (source & target & total & w1 & Hloop & _).
    apply translate_items_ok in Hloop as (new & Hnew & Hlen & _ & _ & _ & Hent).
    simpl in Hnew. subst new.
    destruct (translations r !! i) as [e|] eqn:He.
    2:{ apply lookup_ge_None in He. apply lookup_lt_Some in Hi. lia. }
    exists e. split; [reflexivity|].
    destruct (Hent i item e Hi He) as [Hf _].
    apply (f_equal snd) in Hf. rewrite (item_id_default item _ Hid) in Hf.
    simpl in Hf. rewrite <- Hf. reflexivity.
Qed.

End IngestionClaims.

(** * The ingestion handler's batch loop *)
Section IngestionBatch.
Import Ingestion.
Context `{P : Platform}.

Lemma validate_true_inv (req : json) :
  validate_translation_request req = Ok true ->
  (forall field, In field required_fields -> py_in field req = Ok true) /\
  exists item items, subscript req (lit "texts") = Ok (JList (item :: items)).
Proof.
  unfold validate_translation_request, required_fields, fields_present. run_M.
  destruct (py_in (lit "source_language") req) as [[|]|] eqn:H1; try discriminate.
  destruct (py_in (lit "target_language") req) as [[|]|] eqn:H2; try discriminate.
  destruct (py_in (lit "texts") req) as [[|]|] eqn:H3; try discriminate.
  simpl.
  destruct (subscript req (lit "texts")) as [texts|] eqn:Hx; [|discriminate].
  destruct texts as [| | | | |l|]; try discriminate.
  destruct l as [|item items]; [discriminate|].
  intros _. split; [|eauto].
  intros field [<-|[<-|[<-|[]]]]; assumption.
Qed.

Lemma record_target_s3 (rec : json) :
  s3_record rec -> exists name k, record_target rec = Ok (name, unquote_plus k).
Proof.
  intros (d & s & b & o & name & k & -> & Hs & Hb & Hn & Ho & Hk).
  exists name, k. unfold record_target, subscript. run_M.
  rewrite Hs, Hb, Hn, Ho, Hk. reflexivity.
Qed.

Lemma process_records_cons (rb : str) (rec : json) (rest : list json) (w : world) :
  process_records rb (rec :: rest) w =
  match record_target rec with
  | Ok target =>
      match try_except (process_file rb (fst target) (snd target)) (fun _ => mret tt) w with
      | (Ok _, w') => process_records rb rest w'
      | (Raise e, w') => (Raise e, w')
      end
  | Raise e => (Raise e, w)
  end.
Proof.
  simpl. run_M. destruct (record_target rec); reflexivity.
Qed.

(** An error while one object is handled never leaves its iteration. *)
Lemma guarded_file_returns (rb : str) (bucket : json) (key : str) (w : world) :
  exists w', try_except (process_file rb bucket key) (fun _ => mret tt) w = (Ok tt, w').
Proof.
  unfold try_except.
  destruct (process_file rb bucket key w) as [[[]|e] w']; eauto.
Qed.

(** The loop reaches the end of a batch of S3 records, whatever happens
    to the single objects. *)
Lemma process_records_completes (rb : str) (records : list json) :
  Forall s3_record records ->
  forall w, exists w', process_records rb records w = (Ok tt, w').
Proof.
  induction 1 as [|rec records Hrec _ IH]; intros w.
  - simpl. run_M. eauto.
  - rewrite process_records_cons.
    destruct (record_target_s3 rec Hrec) as (name & k & ->).
    destruct (guarded_file_returns rb (fst (name, unquote_plus k))
                (snd (name, unquote_plus k)) w) as [w1 ->].
    apply IH.
Qed.

Lemma py_len_of_iterable (x : json) (items : list json) :
  py_iter x = Ok items -> py_len x = Ok (len items).
Proof.
  destruct x; simpl; try discriminate; intros [= <-]; unfold len;
    rewrite ?length_map; reflexivity.
Qed.

(** What the handler returns, by what happens before the loop. *)
Lemma lambda_handler_run (environ : gmap str str) (event : json) (w : world) :
  lambda_handler environ event w =
  match environ_get environ (lit "REQUEST_BUCKET"),
        environ_get environ (lit "RESPONSE_BUCKET"),
        batch event with
  | Ok _, Ok rb, Ok items =>
      match process_records rb items w with
      | (Ok _, w') =>
          (Ok {| statusCode := 200;
                 response_body :=
                   json_dumps
                     (JDict [(lit "message",
                              JStr (lit "Translation processing completed successfully"));
                             (lit "processed_files", JInt (len items))]) |}, w')
      | (Raise e, w') =>
          (Ok {| statusCode := 500;
                 response_body :=
                   json_dumps
                     (JDict [(lit "error", JStr (lit "Translation processing failed"));
                             (lit "message", JStr (exn_str e))]) |}, w')
      end
  | Raise e, _, _ | Ok _, Raise e, _ | Ok _, Ok _, Raise e =>
      (Ok {| statusCode := 500;
             response_body :=
               json_dumps
                 (JDict [(lit "error", JStr (lit "Translation processing failed"));
                         (lit "message", JStr (exn_str e))]) |}, w)
  end.
Proof.
  unfold lambda_handler, batch. run_M.
  destruct (environ_get environ (lit "REQUEST_BUCKET")) as [rq|e]; [|reflexivity].
  destruct (environ_get environ (lit "RESPONSE_BUCKET")) as [rb|e]; [|reflexivity].
  destruct (subscript event (lit "Records")) as [records|e]; [|reflexivity].
  destruct (py_iter records) as [items|e] eqn:Hit; [|reflexivity].
  destruct (process_records rb items w) as [[[]|e] w']; [|reflexivity].
  rewrite (py_len_of_iterable records items Hit). reflexivity.
Qed.

End IngestionBatch.

(** * Validation failures and the status of a batch *)
Section IngestionHandlerClaims.
Import Ingestion.
Context `{P : Platform}.

(** C4.  When the file fetched for a record decodes to a body that lacks
    ['source_language'], ['target_language'] or ['texts'], or whose
    ['texts'] is the empty list, validation does not accept it; the
    iteration for that record ends normally after the one [get_object]
    call, so the buckets are as before and nothing was put; and the loop
    goes on with the remaining records of the batch. *)
Theorem C4_invalid_request_is_skipped (rb : str) (rec : json) (rest : list json)
    (bucket key : str) (obj : s3object) (content : str) (req : json) (w : world) :
  record_target rec = Ok (JStr bucket, key) ->
  service_fault (trace w) (GetObject (JStr bucket) (JStr key)) = None ->
  objects w !! (bucket, key) = Some obj ->
  decode_utf8 (body obj) = Some content ->
  json_loads content = Some req ->
  missing (lit "source_language") req \/ missing (lit "target_language") req \/
    missing (lit "texts") req \/ subscript req (lit "texts") = Ok (JList []) ->
  let w1 := record (GetObject (JStr bucket) (JStr key)) w in
  validate_translation_request req <> Ok true /\
  try_except (process_file rb (JStr bucket) key) (fun _ => mret tt) w = (Ok tt, w1) /\
  objects w1 = objects w /\
  trace w1 = trace w ++ [GetObject (JStr bucket) (JStr key)] /\
  process_records rb (rec :: rest) w = process_records rb rest w1.
Proof.
  intros Hrec Hfault Hobj Hdec Hload Hbad w1.
  assert (Hinv : validate_translation_request req <> Ok true).
  { intros Hv. apply validate_true_inv in Hv as (Hin & item & items & Hx).
    unfold missing, required_fields in *.
    destruct Hbad as [H|[H|[H|H]]]; try (apply H, Hin; simpl; tauto).
    congruence. }
  assert (Hfile : try_except (process_file rb (JStr bucket) key) (fun _ => mret tt) w
                  = (Ok tt, w1)).
  { unfold process_file. run_M. rewrite get_object_run. cbv zeta.
    destruct key as [|c k]; [reflexivity|].
    rewrite Hfault, Hobj. simpl. rewrite Hdec. simpl. rewrite Hload. simpl.
    destruct (validate_translation_request req) as [[|]|e]; [congruence| |]; reflexivity. }
  split; [exact Hinv|]. split; [exact Hfile|].
  split; [reflexivity|]. split; [reflexivity|].
  rewrite process_records_cons, Hrec. simpl. rewrite Hfile. reflexivity.
Qed.

End IngestionHandlerClaims.

(** * The retrieval handler *)
Section RetrievalClaims.
Import Retrieval.
Context `{P : Platform}.

(** The responses of the handler for an event whose ['pathParameters'] is
    absent or a mapping: 400 without a ['request_id'], 200 with the
    decoded body of the stored object, 404 when the store has no object
    at the key, 500 with a fixed message for every other failure; each
    with the same two headers. *)
Lemma retrieval_responses (rb : str) (event : json) (w : world) :
  (forall k, (params ← subscript event (lit "pathParameters");
              subscript params (lit "request_id")) = Raise (KeyError k) ->
     lambda_handler rb event w =
       (Ok {| statusCode := 400; headers := cors_headers;
              response_body := message "Error: Missing request_id in path." |}, w)) /\
  (forall rid,
     (params ← subscript event (lit "pathParameters");
      subscript params (lit "request_id")) = Ok rid ->
     exists r w',
       lambda_handler rb event w = (Ok r, w') /\ headers r = cors_headers /\
       objects w' = objects w /\
       match rid with
       | JStr ((_ :: _) as key) =>
           match service_fault (trace w) (GetObject (JStr rb) rid), objects w !! (rb, key) with
           | None, Some obj =>
               match decode_utf8 (body obj) with
               | Some text => statusCode r = 200 /\ response_body r = text
               | None =>
                   statusCode r = 500 /\
                   response_body r = message "An internal server error occurred."
               end
           | None, None =>
               statusCode r = 404 /\
               response_body r = message "Translation not found or still processing."
           | Some _, _ =>
               statusCode r = 500 /\
               response_body r = message "An internal server error occurred."
           end
       | _ =>
           statusCode r = 500 /\
           response_body r = message "An internal server error occurred."
       end).
Proof.
  split.
  - intros k Hk. unfold lambda_handler. rewrite Hk. reflexivity.
  - intros rid Hrid. unfold lambda_handler. rewrite Hrid. run_M.
    destruct rid as [| | | |[|c k]| |]; try (eexists _, _; repeat split; reflexivity).
    unfold get_object, service_call. run_M.
    destruct (service_fault (trace w) (GetObject (JStr rb) (JStr (c :: k)))) as [x|] eqn:Hf.
    { destruct x; try (eexists _, _; repeat split; reflexivity).
      destruct (service_fault_other _ _ Hf). }
    simpl. destruct (objects w !! (rb, c :: k)) as [obj|]; simpl;
      [|eexists _, _; repeat split; reflexivity].
    destruct (decode_utf8 (body obj)) as [text|]; simpl;
      eexists _, _; repeat split; reflexivity.
Qed.

(** C6, at the input where the handler departs from it.  For the event of
    a request without path parameters, ['pathParameters'] is [None]; the
    subscript raises [TypeError], which [except KeyError] does not catch:
    the handler raises instead of returning the 400 response. *)
Theorem C6_null_path_parameters_raise (rb : str) (w : world) :
  lambda_handler rb event_without_path_parameters w = (Raise TypeError, w).
Proof. reflexivity. Qed.

End RetrievalClaims.

(** * The client: polling and direct translation *)
Section ClientClaims.
Import Ingestion Client.
Context `{P : Platform}.

Lemma listing_without_match (bucket prefix : str) (w : world) :
  (forall key obj, objects w !! (bucket, key) = Some obj -> startswith key prefix = false) ->
  listing bucket prefix w = [].
Proof.
  intros Hno. unfold listing.
  match goal with |- context [omap ?f ?l] => destruct (omap f l) as [|x xs] eqn:Hx end;
    [reflexivity|].
  exfalso.
  assert (Hin : x ∈ x :: xs) by apply list_elem_of_here.
  rewrite <- Hx in Hin. apply list_elem_of_omap in Hin as ([[b k] o] & Hel & Hsome).
  apply elem_of_map_to_list in Hel.
  destruct (bool_decide (b = bucket)) eqn:Hb; simpl in Hsome; [|discriminate].
  apply bool_decide_eq_true in Hb. subst b.
  rewrite (Hno k o Hel) in Hsome. discriminate.
Qed.


Lemma polling_succ (fuel : nat) (self : client) (request_id : str)
    (timeout poll_interval start_time : Z) (w : world) :
  polling (S fuel) self request_id timeout poll_interval start_time w =
  let w1 := record ReadClock w in
  if now w1 - start_time <? timeout * tick then
    match try_except (poll_once self request_id poll_interval)
            (fun _ => _ ← sleep poll_interval; mret None) w1 with
    | (Ok (Some result_data), w2) => (Ok (Some (Some result_data)), w2)
    | (Ok None, w2) => polling fuel self request_id timeout poll_interval start_time w2
    | (Raise e, w2) => (Raise e, w2)
    end
  else (Ok (Some None), w1).
Proof.
  cbn [polling]. unfold read_clock, tick. run_M. cbv zeta.
  destruct (now (record ReadClock w) - start_time <? timeout * Z.pos ticks_per_second);
    [|reflexivity].
  destruct (poll_once self request_id poll_interval (record ReadClock w)) as [[[r|]|e] w2];
    try reflexivity.
  destruct (sleep poll_interval w2) as [[[]|e'] w3]; reflexivity.
Qed.



(** What one iteration of the direct loop does. *)
Lemma direct_item_run (src tgt : str) (i : Z) (text : str)
    (acc : list translation) (total : Z) (w : world) :
  direct_item src tgt i text (acc, total) w =
  if is_blank text then
    (Ok (acc ++ [{| text_id := JInt i; original_text := text;
                    translated_text := []; character_count := 0 |}], total), w)
  else
    match translate_response (trace w) text (JStr src) (JStr tgt) with
    | Ok out =>
        (Ok (acc ++ [{| text_id := JInt i; original_text := text;
                        translated_text := out; character_count := len text |}],
             total + len text),
         record (TranslateText text (JStr src) (JStr tgt)) w)
    | Raise e => (Raise e, record (TranslateText text (JStr src) (JStr tgt)) w)
    end.
Proof.
  unfold direct_item. destruct (is_blank text); [reflexivity|].
  run_M. unfold translate_text.
  destruct (translate_response (trace w) text (JStr src) (JStr tgt)); reflexivity.
Qed.

Lemma direct_items_cons (src tgt : str) (i : Z) (text : str) (rest : list str)
    (st : progress) (w : world) :
  direct_items src tgt i (text :: rest) st w =
  match direct_item src tgt i text st w with
  | (Ok st', w') => direct_items src tgt (i + 1) rest st' w'
  | (Raise e, w') => (Raise e, w')
  end.
Proof. reflexivity. Qed.

(** The loop over [pre ++ post] is the loop over [pre] followed, if it
    did not raise, by the loop over [post]. *)
Lemma direct_items_app (src tgt : str) (pre post : list str) :
  forall (i : Z) (st : progress) (w : world),
    direct_items src tgt i (pre ++ post) st w =
    match direct_items src tgt i pre st w with
    | (Ok st', w') => direct_items src tgt (i + len pre) post st' w'
    | (Raise e, w') => (Raise e, w')
    end.
Proof.
  induction pre as [|text pre IH]; intros i st w.
  - simpl. run_M. unfold len. simpl. rewrite Z.add_0_r. reflexivity.
  - rewrite <- app_comm_cons, !direct_items_cons.
    destruct (direct_item src tgt i text st w) as [[st'|e] w']; [|reflexivity].
    rewrite IH. unfold len. simpl length.
    replace (i + 1 + Z.of_nat (length pre)) with (i + Z.of_nat (S (length pre))) by lia.
    reflexivity.
Qed.

(** The loop either reaches its end, or stops at a call the translation
    service answered with an error, and raises that error. *)
Lemma direct_items_outcome (src tgt : str) (texts : list str) :
  forall (i : Z) (st : progress) (w : world),
    (exists st' w', direct_items src tgt i texts st w = (Ok st', w')) \/
    (exists e w1 text,
        direct_items src tgt i texts st w =
          (Raise e, record (TranslateText text (JStr src) (JStr tgt)) w1) /\
        translate_response (trace w1) text (JStr src) (JStr tgt) = Raise e).
Proof.
  induction texts as [|text texts IH]; intros i [acc total] w.
  - left. simpl. run_M. eauto.
  - rewrite direct_items_cons, direct_item_run.
    destruct (is_blank text); [apply IH|].
    destruct (translate_response (trace w) text (JStr src) (JStr tgt)) as [out|e] eqn:Hr;
      [apply IH|].
    right. exists e, w, text. split; [reflexivity|exact Hr].
Qed.

Lemma translate_direct_run (self : client) (texts : list str) (src tgt : str) (w : world) :
  translate_direct self texts src tgt w =
  match direct_items src tgt 0 texts ([], 0) w with
  | (Ok st, w1) =>
      (Ok {| direct_metadata_of :=
               {| direct_source_language := src;
                  direct_target_language := tgt;
                  direct_total_texts := len texts;
                  direct_total_characters := snd st;
                  direct_timestamp := isoformat (now (record ReadClock w1));
                  direct_processing_status := lit "completed";
                  method := lit "direct" |};
             direct_translations := fst st |},
       record ReadClock w1)
  | (Raise e, w1) => (Raise e, w1)
  end.
Proof.
  unfold translate_direct. run_M.
  destruct (direct_items src tgt 0 texts ([], 0) w) as [[st|e] w1]; reflexivity.
Qed.

(** C9.  In [translate_direct], when the translation service fails on an
    item, after the items before it went through, the call raises that
    error: no result is returned, and the failing call is the last
    interaction, so no later item is sent.  A call that returns has the
    method tag ["direct"] in its metadata.  There is no third outcome: the
    call returns a result unless a call to the service failed. *)
Theorem C9_direct_call_outcomes (self : client) (src tgt : str) :
  (forall (pre : list str) (text : str) (post : list str) (st : progress)
          (w w1 : world) (e : exn),
      direct_items src tgt 0 pre ([], 0) w = (Ok st, w1) ->
      is_blank text = false ->
      translate_response (trace w1) text (JStr src) (JStr tgt) = Raise e ->
      translate_direct self (pre ++ text :: post) src tgt w =
        (Raise e, record (TranslateText text (JStr src) (JStr tgt)) w1)) /\
  (forall (texts : list str) (w w' : world) (r : direct_result),
      translate_direct self texts src tgt w = (Ok r, w') ->
      method (direct_metadata_of r) = lit "direct") /\
  (forall (texts : list str) (w : world),
      (exists r w', translate_direct self texts src tgt w = (Ok r, w')) \/
      (exists e w1 text,
          translate_direct self texts src tgt w =
            (Raise e, record (TranslateText text (JStr src) (JStr tgt)) w1) /\
          translate_response (trace w1) text (JStr src) (JStr tgt) = Raise e)).
Proof.
  split; [|split].
  - intros pre text post [acc total] w w1 e Hpre Hb Hr.
    rewrite translate_direct_run, direct_items_app, Hpre.
    rewrite direct_items_cons, direct_item_run, Hb, Hr. reflexivity.
  - intros texts w w' r. rewrite translate_direct_run.
    destruct (direct_items src tgt 0 texts ([], 0) w) as [[st|e] w1]; [|discriminate].
    intros [= <- _]. reflexivity.
  - intros texts w. rewrite translate_direct_run.
    destruct (direct_items_outcome src tgt texts 0 ([], 0) w)
      as [(st & w1 & ->)|(e & w1 & text & -> & Hr)]; [left; eauto|right; eauto].
Qed.

End ClientClaims.

(** * The key convention between client and ingestion handler *)
Section KeyConvention.
Import Ingestion Client.

Lemma rfind_from_absent (c : N) (s : str) :
  forall i found, Forall (fun d => d <> c) s -> rfind_from c s i found = found.
Proof.
  induction s as [|d s IH]; intros i found Hs; simpl; [reflexivity|].
  inversion Hs as [|? ? Hd Hs']; subst.
  apply N.eqb_neq in Hd. rewrite Hd. apply IH, Hs'.
Qed.

(** [rfind] finds the last occurrence. *)
Lemma rfind_from_last (c : N) (pre post : str) :
  forall i found,
    Forall (fun d => d <> c) post ->
    rfind_from c (pre ++ c :: post) i found = i + len pre.
Proof.
  induction pre as [|d pre IH]; intros i found Hpost; simpl.
  - rewrite N.eqb_refl, rfind_from_absent by exact Hpost. unfold len. simpl. lia.
  - rewrite IH by exact Hpost. unfold len. simpl length. lia.
Qed.



Lemma last_occurrence (c : N) (s : str) :
  Forall (fun d => d <> c) s \/
  exists pre post, s = pre ++ c :: post /\ Forall (fun d => d <> c) post.
Proof.
  induction s as [|d s [IH|(pre & post & -> & Hpost)]].
  - left. constructor.
  - destruct (N.eq_dec d c) as [->|Hd].
    + right. exists [], s. split; [reflexivity|exact IH].
    + left. constructor; assumption.
  - right. exists (d :: pre), post. split; [reflexivity|exact Hpost].
Qed.






(** C1, at an input where the code departs from it.  For the request id
    ["batch/"] the uploaded key is ["translation_request_batch/.json"];
    [os.path.splitext] takes [".json"] for a dot-file name and strips
    nothing, so the derived key, for every timestamp, starts with
    ["translation_request_batch/.json_translated_"] and does not lie under
    the prefix ["translation_request_batch/_translated"] the client
    lists. *)
Theorem C1_key_outside_polled_prefix (ts : str) :
  startswith (output_key (request_filename (lit "batch/")) ts)
             (result_prefix (lit "batch/")) = false.
Proof. reflexivity. Qed.

End KeyConvention.

(** * Examples *)

(** C2, counterexamples.  A valid request with the single non-blank item
    ["Hello"], on a platform whose translation service answers with the
    empty string: the one entry of the result has an empty
    [translated_text].  And a valid request with the items ["Hello"] and
    ["  "], one of them non-blank, on a platform with a working service: the
    result has two entries, the second with an empty [translated_text]. *)
Lemma C2_entries_with_empty_translation :
  (Ingestion.validate_translation_request (request_of [JStr (lit "Hello")]) = Ok true /\
   is_blank (lit "Hello") = false /\
   exists r w',
     @Ingestion.process_translation mute_platform (request_of [JStr (lit "Hello")]) empty_world
       = (Ok r, w') /\
     map Ingestion.translated_text (Ingestion.translations r) = [[]]) /\
  (Ingestion.validate_translation_request
     (request_of [JStr (lit "Hello"); JStr (lit "  ")]) = Ok true /\
   is_blank (lit "Hello") = false /\ is_blank (lit "  ") = true /\
   exists r w',
     @Ingestion.process_translation working_platform
       (request_of [JStr (lit "Hello"); JStr (lit "  ")]) empty_world = (Ok r, w') /\
     map Ingestion.translated_text (Ingestion.translations r) = [lit "Hola"; []]).
Proof.
  split.
  - split; [reflexivity|]. split; [reflexivity|].
    eexists _, _. split; [vm_compute; reflexivity|reflexivity].
  - split; [reflexivity|]. split; [reflexivity|]. split; [reflexivity|].
    eexists _, _. split; [vm_compute; reflexivity|reflexivity].
Qed.

(** C2 on the request ["Hello"], ["  "], [{"text": "World"}]. *)
Lemma C2_result_follows_request_witness :
  exists r w',
    @Ingestion.process_translation working_platform (request_of three_items) empty_world
      = (Ok r, w') /\
    map Ingestion.original_text (Ingestion.translations r)
      = [lit "Hello"; lit "  "; lit "World"] /\
    Ingestion.total_characters (Ingestion.metadata_of r) = 10.
Proof.
  destruct (@C2_result_follows_request working_platform (request_of three_items)
              (JStr (lit "en")) (JStr (lit "es")) three_items
              [lit "Hello"; lit "  "; lit "World"] empty_world)
    as (r & w' & Hrun & _ & Horig & _ & Htot).
  - reflexivity.
  - reflexivity.
  - reflexivity.
  - reflexivity.
  - repeat constructor.
  - intros i text _ _. eexists. reflexivity.
  - exists r, w'. split; [exact Hrun|]. split; [exact Horig|exact Htot].
Defined.

(** C4 on a batch of two records whose first file has no
    ['target_language']. *)
Lemma C4_invalid_request_is_skipped_witness :
  @Ingestion.process_records (platform_reading incomplete_request) (lit "responses")
    [s3_event_record "requests" "translation_request_r1.json";
     s3_event_record "requests" "translation_request_r2.json"] one_upload
  = @Ingestion.process_records (platform_reading incomplete_request) (lit "responses")
      [s3_event_record "requests" "translation_request_r2.json"]
      (@record (platform_reading incomplete_request)
         (GetObject (JStr (lit "requests")) (JStr (lit "translation_request_r1.json")))
         one_upload).
Proof.
  apply (@C4_invalid_request_is_skipped (platform_reading incomplete_request)
           (lit "responses") (s3_event_record "requests" "translation_request_r1.json")
           [s3_event_record "requests" "translation_request_r2.json"]
           (lit "requests") (lit "translation_request_r1.json")
           (uploaded "{}") (lit "{}") incomplete_request one_upload).
  - reflexivity.
  - reflexivity.
  - apply lookup_singleton_eq.
  - reflexivity.
  - reflexivity.
  - right. left. unfold Ingestion.missing. vm_compute. discriminate.
Defined.


(** C8 on the second item of ["Hello"], [{"text": "World"}]. *)
Lemma C8_ids_are_positions_witness :
  exists r w',
    @Ingestion.process_translation working_platform (request_of two_items) empty_world
      = (Ok r, w') /\
    exists e, Ingestion.translations r !! 1%nat = Some e /\ Ingestion.text_id e = JInt 1.
Proof.
  destruct (@Ingestion.process_translation working_platform (request_of two_items) empty_world)
    as [[r|e] w'] eqn:Hrun; [|vm_compute in Hrun; discriminate].
  exists r, w'. split; [reflexivity|].
  apply (proj2 (@C8_ids_are_positions working_platform) (request_of two_items) two_items
           empty_world w' r eq_refl Hrun 1%nat
           (JDict [(lit "text", JStr (lit "World"))]) eq_refl).
  reflexivity.
Defined.

(** C9 on three texts when the service fails at its second call: the third
    text is never sent. *)
Lemma C9_direct_call_outcomes_witness :
  exists w',
    @Client.translate_direct flaky_platform a_client
      [lit "Hello"; lit "World"; lit "again"] (lit "en") (lit "es") empty_world
    = (Raise (ClientError (lit "ThrottlingException")), w') /\
    trace w' = [TranslateText (lit "Hello") (JStr (lit "en")) (JStr (lit "es"));
                TranslateText (lit "World") (JStr (lit "en")) (JStr (lit "es"))].
Proof.
  destruct (@Client.direct_items flaky_platform (lit "en") (lit "es") 0 [lit "Hello"]
              ([], 0) empty_world) as [[st|e] w1] eqn:Hpre;
    [|vm_compute in Hpre; discriminate].
  assert (Htrace : trace w1 = [TranslateText (lit "Hello") (JStr (lit "en")) (JStr (lit "es"))]).
  { vm_compute in Hpre. injection Hpre as _ <-. reflexivity. }
  eexists. split.
  - apply (proj1 (@C9_direct_call_outcomes flaky_platform a_client (lit "en") (lit "es"))
             [lit "Hello"] (lit "World") [lit "again"] st empty_world w1
             (ClientError (lit "ThrottlingException")) Hpre eq_refl).
    rewrite Htrace. reflexivity.
  - simpl. rewrite Htrace. reflexivity.
Defined.


(** * Further properties of the ingestion handler *)
Section IngestionValidation.
Import Ingestion.
Context `{P : Platform}.

(** X1.  [validate_translation_request] returns [True] exactly for a JSON
    object that has the keys ['source_language'], ['target_language'] and
    ['texts'] with a non-empty list under ['texts']; no list, string or
    scalar body is accepted. *)
Theorem X1_validation_accepts_exactly (req : json) :
  validate_translation_request req = Ok true <->
  exists d source target item items,
    req = JDict d /\
    dict_get d (lit "source_language") = Some source /\
    dict_get d (lit "target_language") = Some target /\
    dict_get d (lit "texts") = Some (JList (item :: items)).
Proof.
  split.
  - intros Hv. destruct (validate_true_inv req Hv) as (Hin & item & items & Hx).
    destruct req as [| | | | | |d]; try discriminate.
    assert (Hs := Hin (lit "source_language")).
    assert (Ht := Hin (lit "target_language")).
    unfold required_fields in Hs, Ht. simpl in Hs, Ht, Hx.
    destruct (dict_get d (lit "source_language")) as [source|] eqn:Es;
      [|specialize (Hs (or_introl eq_refl)); discriminate].
    destruct (dict_get d (lit "target_language")) as [target|] eqn:Et;
      [|specialize (Ht (or_intror (or_introl eq_refl))); discriminate].
    destruct (dict_get d (lit "texts")) as [texts|] eqn:Ex; [|discriminate].
    injection Hx as ->. eauto 10.
  - intros (d & source & target & item & items & -> & Hs & Ht & Hx).
    unfold validate_translation_request, required_fields, fields_present, py_in, subscript.
    run_M. rewrite Hs, Ht, Hx. reflexivity.
Qed.

End IngestionValidation.

(** * The effects of the ingestion handler *)
Section IngestionEffects.
Import Ingestion.
Context `{P : Platform}.

Lemma grown_in_refl (b : str) (m : gmap (str * str) s3object) : grown_in b m m.
Proof. split; auto. Qed.

Lemma grown_in_trans (b : str) (m1 m2 m3 : gmap (str * str) s3object) :
  grown_in b m1 m2 -> grown_in b m2 m3 -> grown_in b m1 m3.
Proof.
  intros [H1 H1'] [H2 H2']. split; [auto|].
  intros b' k Hb. rewrite H2', H1' by exact Hb. reflexivity.
Qed.

Lemma grown_in_insert (b k : str) (obj : s3object) (m : gmap (str * str) s3object) :
  grown_in b m (<[(b, k) := obj]> m).
Proof.
  split.
  - intros key Hkey. destruct (decide ((b, k) = key)) as [<-|Hne].
    + rewrite lookup_insert_eq. eauto.
    + rewrite lookup_insert_ne by exact Hne. exact Hkey.
  - intros b' k' Hb. apply lookup_insert_ne. congruence.
Qed.

Lemma translate_item_frame (source target item : json) (st : progress) (w w' : world)
    (out : res progress) :
  translate_item source target item st w = (out, w') ->
  objects w' = objects w /\
  exists ext, trace w' = trace w ++ ext /\ Forall translate_or_clock ext.
Proof.
  destruct st as [acc total]. rewrite translate_item_run.
  destruct (item_fields item (len acc)) as [text tid].
  destruct text as [| | | |text| |];
    try (intros [= <- <-]; split; [reflexivity|]; exists []; rewrite app_nil_r; split;
         [reflexivity|constructor]).
  destruct (is_blank text);
    [intros [= <- <-]; split; [reflexivity|]; exists []; rewrite app_nil_r; split;
     [reflexivity|constructor]|].
  destruct (translate_response (trace w) text source target);
    intros [= <- <-]; (split; [reflexivity|]); eexists; (split; [reflexivity|]);
    repeat constructor.
Qed.

(** Whatever its outcome, the loop leaves the buckets alone and only talks
    to the translation service. *)
Lemma translate_items_frame (source target : json) (items : list json) :
  forall (st : progress) (w w' : world) (out : res progress),
    translate_items source target items st w = (out, w') ->
    objects w' = objects w /\
    exists ext, trace w' = trace w ++ ext /\ Forall translate_or_clock ext.
Proof.
  induction items as [|item items IH]; intros st w w' out.
  - simpl. run_M. intros [= <- <-]. split; [reflexivity|]. exists [].
    rewrite app_nil_r. split; [reflexivity|constructor].
  - rewrite translate_items_cons.
    destruct (translate_item source target item st w) as [[st1|e] w1] eqn:H1;
      apply translate_item_frame in H1 as (Hobj & ext & Htr & Hext).
    + intros Hrest. apply IH in Hrest as (Hobj' & ext' & Htr' & Hext').
      split; [congruence|]. exists (ext ++ ext'). rewrite Htr', Htr, app_assoc.
      split; [reflexivity|]. apply Forall_app; split; assumption.
    + intros [= <- <-]. split; [exact Hobj|]. eauto.
Qed.

Lemma process_translation_frame (req : json) (w w' : world) (out : res translation_result) :
  process_translation req w = (out, w') ->
  objects w' = objects w /\
  exists ext, trace w' = trace w ++ ext /\ Forall translate_or_clock ext.
Proof.
  assert (Hstay : forall e : exn, (@Raise translation_result e, w) = (out, w') ->
            objects w' = objects w /\
            exists ext, trace w' = trace w ++ ext /\ Forall translate_or_clock ext).
  { intros e [= <- <-]. split; [reflexivity|]. exists []. rewrite app_nil_r.
    split; [reflexivity|constructor]. }
  unfold process_translation. run_M.
  destruct (subscript req (lit "source_language")) as [source|e]; [|apply Hstay].
  destruct (subscript req (lit "target_language")) as [target|e]; [|apply Hstay].
  destruct (subscript req (lit "texts")) as [texts|e]; [|apply Hstay].
  destruct (py_iter texts) as [items|e]; [|apply Hstay].
  destruct (translate_items source target items ([], 0) w) as [[st|e] w1] eqn:Hloop;
    apply translate_items_frame in Hloop as (Hobj & ext & Htr & Hext).
  - destruct (py_len texts) as [count|e].
    + unfold read_clock. intros [= <- <-]. simpl. split; [exact Hobj|].
      exists (ext ++ [ReadClock]). rewrite Htr, app_assoc. split; [reflexivity|].
      apply Forall_app; split; [exact Hext|repeat constructor].
    + intros [= <- <-]. split; [exact Hobj|]. eauto.
  - intros [= <- <-]. split; [exact Hobj|]. eauto.
Qed.

Lemma translate_or_clock_no_fetch (ext : list effect) :
  Forall translate_or_clock ext -> List.filter is_get_object ext = [].
Proof.
  induction 1 as [|e ext He _ IH]; [reflexivity|].
  simpl. destruct e; try destruct He; exact IH.
Qed.

Lemma output_key_not_empty (key ts : str) : output_key key ts <> [].
Proof.
  unfold output_key. intros H. apply (f_equal (@length N)) in H.
  rewrite !length_app in H. change (length (lit "_translated_")) with 12%nat in H.
  simpl in H. lia.
Qed.

Lemma upload_result_to_s3_run (bucket key : str) (r : translation_result) (w : world) :
  upload_result_to_s3 bucket key r w =
  match encode (json_dumps_indent (result_json r)) with
  | Raise e => (Raise e, w)
  | Ok content =>
      let w1 := record ReadClock w in
      put_object bucket key content (lit "application/json") (lit "AES256")
        [(lit "processing-timestamp", JStr (isoformat (now w1)));
         (lit "content-type", JStr (lit "translation-result"))] w1
  end.
Proof.
  unfold upload_result_to_s3, read_clock. run_M.
  destruct (encode _); reflexivity.
Qed.

(** The metadata of a result passes the check of the client library. *)
Lemma result_metadata_valid (t : Z) :
  validate_ascii_metadata
    [(lit "processing-timestamp", JStr (isoformat t));
     (lit "content-type", JStr (lit "translation-result"))] =
  Ok [(lit "processing-timestamp", isoformat t);
      (lit "content-type", lit "translation-result")].
Proof. simpl. rewrite isoformat_ascii. reflexivity. Qed.

(** Whatever it returns, the upload makes no [get_object] call and writes,
    if at all, the encoded result under the key. *)
Lemma upload_result_to_s3_frame (bucket key : str) (r : translation_result)
    (w w' : world) (out : res unit) :
  upload_result_to_s3 bucket key r w = (out, w') ->
  (exists ext, trace w' = trace w ++ ext /\ List.filter is_get_object ext = [] /\
               Forall (puts_only_to bucket) ext) /\
  match out with
  | Raise _ => objects w' = objects w
  | Ok _ =>
      exists obj,
        objects w' = <[(bucket, key) := obj]> (objects w) /\
        encode (json_dumps_indent (result_json r)) = Ok (body obj) /\
        content_type obj = lit "application/json"
  end.
Proof.
  rewrite upload_result_to_s3_run.
  destruct (encode _) as [content|e].
  2:{ intros [= <- <-]. split; [|reflexivity]. exists []. rewrite app_nil_r.
      split; [reflexivity|]. split; [reflexivity|constructor]. }
  cbv zeta. intros Hput. apply put_object_frame in Hput as [Htr Hout]. split.
  - eexists. rewrite Htr. simpl. rewrite <- app_assoc. split; [reflexivity|].
    split; [reflexivity|]. repeat constructor.
  - destruct out as [[]|e]; [|exact Hout].
    destruct Hout as (obj & Hobj & Hbody & Hct & _). exists obj.
    rewrite Hobj, Hbody. auto.
Qed.

(** The steps of [process_file] up to the validated request. *)
Lemma process_file_run (rb bucket key : str) (w : world) :
  process_file rb (JStr bucket) key w =
  let w1 := record (GetObject (JStr bucket) (JStr key)) w in
  match key with
  | [] => (Raise ParamValidationError, w1)
  | _ :: _ =>
      match service_fault (trace w) (GetObject (JStr bucket) (JStr key)) with
      | Some x => (Raise x, w1)
      | None =>
          match objects w !! (bucket, key) with
          | None => (Raise NoSuchKey, w1)
          | Some obj =>
              match decode_utf8 (body obj) with
              | None => (Raise UnicodeDecodeError, w1)
              | Some content =>
                  match json_loads content with
                  | None => (Raise JSONDecodeError, w1)
                  | Some req =>
                      match validate_translation_request req with
                      | Raise e => (Raise e, w1)
                      | Ok false => (Ok tt, w1)
                      | Ok true =>
                          match process_translation req w1 with
                          | (Raise e, w2) => (Raise e, w2)
                          | (Ok r, w2) =>
                              let w3 := record ReadClock w2 in
                              upload_result_to_s3 rb
                                (output_key key (strftime_compact (now w3))) r w3
                          end
                      end
                  end
              end
          end
      end
  end.
Proof.
  unfold process_file. run_M. rewrite get_object_run. cbv zeta.
  destruct key as [|c k]; [reflexivity|].
  destruct (service_fault (trace w) _); [reflexivity|].
  destruct (objects w !! (bucket, c :: k)) as [obj|]; [|reflexivity]. simpl.
  destruct (decode_utf8 (body obj)) as [content|]; [|reflexivity]. simpl.
  destruct (json_loads content) as [req|]; [|reflexivity]. simpl.
  destruct (validate_translation_request req) as [[|]|e]; reflexivity.
Qed.


(** Handling a fetched file that holds a valid request. *)
Lemma process_file_valid_run (rb bucket key : str) (obj : s3object) (content : str)
    (req : json) (w : world) :
  key <> [] ->
  service_fault (trace w) (GetObject (JStr bucket) (JStr key)) = None ->
  objects w !! (bucket, key) = Some obj ->
  decode_utf8 (body obj) = Some content ->
  json_loads content = Some req ->
  validate_translation_request req = Ok true ->
  process_file rb (JStr bucket) key w =
  match process_translation req (record (GetObject (JStr bucket) (JStr key)) w) with
  | (Raise e, w2) => (Raise e, w2)
  | (Ok r, w2) =>
      upload_result_to_s3 rb
        (output_key key (strftime_compact (now (record ReadClock w2)))) r
        (record ReadClock w2)
  end.
Proof.
  intros Hkey Hfault Hobj Hdec Hload Hvalid. rewrite process_file_run. cbv zeta.
  destruct key as [|c k]; [congruence|].
  rewrite Hfault, Hobj, Hdec, Hload, Hvalid. reflexivity.
Qed.

(** In every outcome, handling an object starts with the [get_object] call
    for it and makes no other; it leaves the buckets as they were or adds
    one object to the response bucket; when it raises, the buckets are as
    they were. *)
Lemma process_file_frame (rb : str) (bucket : json) (key : str) (w w' : world)
    (out : res unit) :
  process_file rb bucket key w = (out, w') ->
  (objects w' = objects w \/
   exists k obj, out = Ok tt /\ objects w' = <[(rb, k) := obj]> (objects w)) /\
  (forall e, out = Raise e -> objects w' = objects w) /\
  exists ext, trace w' = trace w ++ GetObject bucket (JStr key) :: ext /\
              List.filter is_get_object ext = [].
Proof.
  assert (Hstay : forall (o : res unit) (w1 : world) (ext : list effect),
            objects w1 = objects w ->
            trace w1 = trace w ++ GetObject bucket (JStr key) :: ext ->
            List.filter is_get_object ext = [] ->
            (o, w1) = (out, w') ->
            (objects w' = objects w \/
             exists k obj, out = Ok tt /\ objects w' = <[(rb, k) := obj]> (objects w)) /\
            (forall e, out = Raise e -> objects w' = objects w) /\
            exists ext, trace w' = trace w ++ GetObject bucket (JStr key) :: ext /\
                        List.filter is_get_object ext = []).
  { intros o w1 ext Hw1 Htr Hext [= <- <-]. eauto 6. }
  unfold process_file, or_raise. run_M.
  destruct (get_object bucket (JStr key) w) as [[obj|e] w1] eqn:Hget;
    apply get_object_frame in Hget as [-> _];
    [|apply (Hstay _ _ []); reflexivity].
  destruct (decode_utf8 (body obj)) as [content|]; cbv beta iota;
    [|apply (Hstay _ _ []); reflexivity].
  destruct (json_loads content) as [req|]; cbv beta iota;
    [|apply (Hstay _ _ []); reflexivity].
  destruct (validate_translation_request req) as [[|]|e]; cbn [negb]; cbv beta iota;
    try (apply (Hstay _ _ []); reflexivity).
  destruct (process_translation req _) as [[r|e] w2] eqn:Hrun;
    apply process_translation_frame in Hrun as (Hobj & ext & Htr & Hext);
    simpl in Hobj, Htr; apply translate_or_clock_no_fetch in Hext.
  2:{ apply (Hstay _ _ ext); [exact Hobj| |exact Hext].
      rewrite Htr, <- app_assoc. reflexivity. }
  unfold generate_output_key, read_clock. run_M.
  match goal with
  | |- upload_result_to_s3 ?b ?k ?r ?w0 = _ -> _ =>
      destruct (upload_result_to_s3 b k r w0) as [o w3] eqn:Hup;
      apply upload_result_to_s3_frame in Hup as [(ext' & Htr' & Hext' & _) Hout]
  end.
  simpl in Htr'.
  assert (Htrace : trace w3 = trace w ++ GetObject bucket (JStr key)
                                 :: (ext ++ [ReadClock] ++ ext')).
  { rewrite Htr', Htr, <- !app_assoc. reflexivity. }
  assert (Hnone : List.filter is_get_object (ext ++ [ReadClock] ++ ext') = []).
  { rewrite !List.filter_app, Hext, Hext'. reflexivity. }
  destruct o as [[]|e].
  - destruct Hout as (obj' & Hobj' & _). intros [= <- <-].
    split; [right; eexists _, obj'; split; [reflexivity|]|].
    + rewrite Hobj'. simpl. rewrite Hobj. reflexivity.
    + split; [discriminate|]. eauto.
  - simpl in Hout. apply (Hstay _ _ _ ltac:(rewrite Hout; exact Hobj) Htrace Hnone).
Qed.

Lemma process_records_frame (rb : str) (records : list json) :
  forall (w w' : world) (out : res unit),
    process_records rb records w = (out, w') -> grown_in rb (objects w) (objects w').
Proof.
  induction records as [|rec records IH]; intros w w' out.
  - simpl. run_M. intros [= <- <-]. apply grown_in_refl.
  - rewrite process_records_cons.
    destruct (record_target rec) as [[bucket key]|e];
      [|intros [= <- <-]; apply grown_in_refl].
    simpl. unfold try_except.
    destruct (process_file rb bucket key w) as [[[]|e] w1] eqn:Hfile;
      apply process_file_frame in Hfile as [[Hsame|(k & obj & _ & Hput)] _];
      run_M; intros Hrest; apply IH in Hrest;
      (eapply grown_in_trans; [|exact Hrest]);
      rewrite ?Hsame, ?Hput; auto using grown_in_refl, grown_in_insert.
Qed.

End IngestionEffects.

(** * Further properties of the translation step *)
Section IngestionStep.
Import Ingestion.
Context `{P : Platform}.

Lemma translate_items_app (source target : json) (pre post : list json) :
  forall (st : progress) (w : world),
    translate_items source target (pre ++ post) st w =
    match translate_items source target pre st w with
    | (Ok st', w') => translate_items source target post st' w'
    | (Raise e, w') => (Raise e, w')
    end.
Proof.
  induction pre as [|item pre IH]; intros st w; [reflexivity|].
  rewrite <- app_comm_cons, !translate_items_cons.
  destruct (translate_item source target item st w) as [[st'|e] w']; [apply IH|reflexivity].
Qed.

(** X7.  A call of [process_translation] that returns has sent to the
    translation service exactly the non-blank texts of its entries, each
    once and in the order of the request, then read the clock once; the
    entries carry the texts of the items, position by position, and the
    buckets are untouched. *)
Theorem X7_one_call_per_visible_text (req : json) (items : list json)
    (w w' : world) (r : translation_result) :
  subscript req (lit "texts") = Ok (JList items) ->
  process_translation req w = (Ok r, w') ->
  trace w' = trace w
             ++ calls (source_language (metadata_of r)) (target_language (metadata_of r))
                  (map original_text (translations r))
             ++ [ReadClock] /\
  objects w' = objects w /\
  length (translations r) = length items /\
  forall (i : nat) item e,
    items !! i = Some item -> translations r !! i = Some e ->
    text_of item = Some (original_text e).
Proof.
  intros Hx. unfold process_translation. run_M.
  destruct (subscript req (lit "source_language")) as [source|]; [|discriminate].
  destruct (subscript req (lit "target_language")) as [target|]; [|discriminate].
  rewrite Hx. simpl.
  destruct (translate_items source target items ([], 0) w) as [[[new total]|e] w1] eqn:Hrun;
    [|discriminate].
  intros [= <- <-]. simpl.
  apply translate_items_ok in Hrun as (new' & Hnew & Hlen & _ & Htr & Hobj & Hent).
  simpl in Hnew. subst new'.
  split; [rewrite Htr, <- app_assoc; reflexivity|].
  split; [exact Hobj|]. split; [exact Hlen|].
  intros i item e Hi He. destruct (Hent i item e Hi He) as [Hf _].
  unfold text_of. rewrite (item_text_any_position item 0 (len (@nil translation) + Z.of_nat i)).
  rewrite Hf. reflexivity.
Qed.

(** X8.  When the translation service fails on an item, after the items
    before it went through, [process_translation] raises that error: it
    returns no result, and the failing call is its last interaction, so no
    later item is sent. *)
Theorem X8_service_error_aborts_request (req source target : json)
    (pre : list json) (item : json) (post : list json) (text : str)
    (st : progress) (w w1 : world) (e : exn) :
  subscript req (lit "source_language") = Ok source ->
  subscript req (lit "target_language") = Ok target ->
  subscript req (lit "texts") = Ok (JList (pre ++ item :: post)) ->
  translate_items source target pre ([], 0) w = (Ok st, w1) ->
  text_of item = Some text ->
  is_blank text = false ->
  translate_response (trace w1) text source target = Raise e ->
  process_translation req w = (Raise e, record (TranslateText text source target) w1).
Proof.
  intros Hs Ht Hx Hpre Htext Hb Hr.
  rewrite (process_translation_run req source target _ w Hs Ht Hx).
  rewrite translate_items_app, Hpre, translate_items_cons.
  destruct st as [acc total].
  rewrite translate_item_run, (item_fields_text item text (len acc) Htext), Hb, Hr.
  reflexivity.
Qed.

(** X9.  A mapping item whose ['text'] is not a string makes
    [process_translation] raise [AttributeError] when the loop reaches it:
    no result is returned and nothing is sent for that item or any later
    one. *)
Theorem X9_text_must_be_a_string (req source target : json)
    (pre : list json) (d : list (str * json)) (v : json) (post : list json)
    (st : progress) (w w1 : world) :
  subscript req (lit "source_language") = Ok source ->
  subscript req (lit "target_language") = Ok target ->
  subscript req (lit "texts") = Ok (JList (pre ++ JDict d :: post)) ->
  translate_items source target pre ([], 0) w = (Ok st, w1) ->
  dict_get d (lit "text") = Some v ->
  (forall s, v <> JStr s) ->
  process_translation req w = (Raise AttributeError, w1).
Proof.
  intros Hs Ht Hx Hpre Hv Hns.
  rewrite (process_translation_run req source target _ w Hs Ht Hx).
  rewrite translate_items_app, Hpre, translate_items_cons.
  destruct st as [acc total]. rewrite translate_item_run.
  unfold item_fields. rewrite Hv.
  destruct v; try reflexivity. destruct (Hns s eq_refl).
Qed.

(** X10.  In a result of [process_translation], the entry of a mapping
    item that has both ['text'] and ['id'] carries that ['id'] unchanged,
    whatever JSON value it is. *)
Theorem X10_given_id_is_kept (req : json) (items : list json) (w w' : world)
    (r : translation_result) (i : nat) (d : list (str * json)) (t v : json) :
  subscript req (lit "texts") = Ok (JList items) ->
  process_translation req w = (Ok r, w') ->
  items !! i = Some (JDict d) ->
  dict_get d (lit "text") = Some t ->
  dict_get d (lit "id") = Some v ->
  exists e, translations r !! i = Some e /\ text_id e = v.
Proof.
  intros Hx Hrun Hi Ht Hv.
  destruct (process_translation_ok req items w w' r Hx Hrun)
    as (source & target & total & w1 & Hloop & _).
  apply translate_items_ok in Hloop as (new & Hnew & Hlen & _ & _ & _ & Hent).
  simpl in Hnew. subst new.
  destruct (translations r !! i) as [e|] eqn:He.
  2:{ apply lookup_ge_None in He. apply lookup_lt_Some in Hi. lia. }
  exists e. split; [reflexivity|].
  destruct (Hent i (JDict d) e Hi He) as [Hf _].
  unfold item_fields in Hf. rewrite Ht, Hv in Hf. congruence.
Qed.

End IngestionStep.

(** * Further properties of the batch loop *)
Section IngestionBatchMore.
Import Ingestion.
Context `{P : Platform}.

Lemma process_records_app (rb : str) (pre post : list json) :
  forall w,
    process_records rb (pre ++ post) w =
    match process_records rb pre w with
    | (Ok _, w1) => process_records rb post w1
    | (Raise e, w1) => (Raise e, w1)
    end.
Proof.
  induction pre as [|rec pre IH]; intros w; [reflexivity|].
  rewrite <- app_comm_cons, !process_records_cons.
  destruct (record_target rec) as [target|e]; [|reflexivity].
  destruct (try_except _ _ w) as [[[]|e] w1]; [apply IH|reflexivity].
Qed.

(** X2.  The handler never raises: for every environment, event and state
    of the services it returns a response, with status 200 or 500. *)
Theorem X2_handler_always_responds (environ : gmap str str) (event : json) (w : world) :
  exists r w',
    lambda_handler environ event w = (Ok r, w') /\
    (statusCode r = 200 \/ statusCode r = 500).
Proof.
  rewrite lambda_handler_run.
  destruct (environ_get environ (lit "REQUEST_BUCKET")); [|eauto].
  destruct (environ_get environ (lit "RESPONSE_BUCKET")); [|eauto].
  destruct (batch event) as [items|]; [|eauto].
  destruct (process_records _ items w) as [[[]|e] w']; eauto.
Qed.

(** X3.  A record without a bucket name or without a string as object key
    ends the whole invocation: the records before it have been handled, the
    records after it are never looked at, and the handler returns 500 with
    the error's text. *)
Theorem X3_malformed_record_ends_batch (environ : gmap str str) (rq rb : str)
    (event : json) (pre : list json) (bad : json) (post : list json) (e : exn) (w : world) :
  environ !! lit "REQUEST_BUCKET" = Some rq ->
  environ !! lit "RESPONSE_BUCKET" = Some rb ->
  batch event = Ok (pre ++ bad :: post) ->
  Forall s3_record pre ->
  record_target bad = Raise e ->
  exists w1,
    process_records rb pre w = (Ok tt, w1) /\
    lambda_handler environ event w =
      (Ok {| statusCode := 500;
             response_body :=
               json_dumps (JDict [(lit "error", JStr (lit "Translation processing failed"));
                                  (lit "message", JStr (exn_str e))]) |}, w1).
Proof.
  intros Hrq Hrb Hbatch Hpre Hbad.
  destruct (process_records_completes rb pre Hpre w) as [w1 Hloop].
  exists w1. split; [exact Hloop|].
  rewrite lambda_handler_run. unfold environ_get. rewrite Hrq, Hrb, Hbatch. simpl.
  rewrite process_records_app, Hloop, process_records_cons, Hbad. reflexivity.
Qed.

(** X4.  For a fetched file, under a key of at least one character, whose
    [get_object] call goes through, that decodes to a valid request whose
    translation succeeds.  If the JSON text of the result can be encoded,
    the iteration reads the clock twice and makes one [put_object] call, to
    the response bucket, under the key derived from the input key and the
    time, with the encoded JSON text of the result as [application/json];
    when that call goes through the object is stored and the rest of the
    store is as before, and when it is refused or fails the iteration raises
    what the call raises and nothing is written.  If the text cannot be
    encoded (the result holds a lone surrogate), the iteration raises
    [UnicodeEncodeError] before the upload reads the clock: no [put_object]
    call is made and nothing is written. *)
Theorem X4_result_is_written (rb bucket key : str) (obj : s3object) (content : str)
    (req : json) (r : translation_result) (w w2 : world) :
  key <> [] ->
  service_fault (trace w) (GetObject (JStr bucket) (JStr key)) = None ->
  objects w !! (bucket, key) = Some obj ->
  decode_utf8 (body obj) = Some content ->
  json_loads content = Some req ->
  validate_translation_request req = Ok true ->
  process_translation req (record (GetObject (JStr bucket) (JStr key)) w) = (Ok r, w2) ->
  let w3 := record ReadClock w2 in
  let w4 := record ReadClock w3 in
  let out_key := output_key key (strftime_compact (now w3)) in
  match encode (json_dumps_indent (result_json r)) with
  | Ok text =>
      let put := upload_call rb out_key text (now w4) in
      (service_fault (trace w4) put = None ->
       exists w' stored,
         process_file rb (JStr bucket) key w = (Ok tt, w') /\
         objects w' = <[(rb, out_key) := stored]> (objects w) /\
         body stored = text /\
         content_type stored = lit "application/json" /\
         trace w' = trace w2 ++ [ReadClock; ReadClock; put]) /\
      (forall x, service_fault (trace w4) put = Some x ->
         process_file rb (JStr bucket) key w = (Raise x, record put w4))
  | Raise e =>
      e = UnicodeEncodeError /\
      process_file rb (JStr bucket) key w = (Raise e, w3)
  end.
Proof.
  intros Hkey Hfault Hobj Hdec Hload Hvalid Hrun w3 w4 out_key. subst w3 w4 out_key.
  rewrite (process_file_valid_run _ _ _ obj content req w Hkey Hfault Hobj Hdec Hload Hvalid).
  rewrite Hrun, upload_result_to_s3_run.
  apply process_translation_frame in Hrun as (Hobj2 & _). simpl in Hobj2.
  destruct (encode _) as [text|e] eqn:Henc.
  2:{ split; [|reflexivity]. unfold encode in Henc.
      destruct (existsb _ _); congruence. }
  cbv zeta. unfold upload_call. split.
  - intros Hput.
    rewrite (put_object_stores _ _ _ _ _ _ _ _ (result_metadata_valid _)
               (output_key_not_empty _ _) Hput).
    eexists _, _. split; [reflexivity|]. simpl. rewrite Hobj2.
    split; [reflexivity|]. split; [reflexivity|]. split; [reflexivity|].
    rewrite <- !app_assoc. reflexivity.
  - intros x Hput. rewrite put_object_run. cbv zeta.
    rewrite result_metadata_valid, Hput.
    destruct (output_key _ _) eqn:Hk; [destruct (output_key_not_empty _ _ Hk)|reflexivity].
Qed.

(** X5.  When handling an object raises, for whatever reason (the object is
    gone, is not UTF-8 or not JSON, validation or a translation fails, the
    upload is refused), the buckets are exactly as before the iteration, and
    the loop goes on with the next record. *)
Theorem X5_failed_object_leaves_no_trace (rb : str) (rec : json) (rest : list json)
    (bucket : json) (key : str) (e : exn) (w w' : world) :
  record_target rec = Ok (bucket, key) ->
  process_file rb bucket key w = (Raise e, w') ->
  objects w' = objects w /\
  process_records rb (rec :: rest) w = process_records rb rest w'.
Proof.
  intros Hrec Hfile. split.
  - apply (proj1 (proj2 (process_file_frame rb bucket key w w' (Raise e) Hfile)) e eq_refl).
  - rewrite process_records_cons, Hrec. simpl. unfold try_except. rewrite Hfile.
    reflexivity.
Qed.

(** X13.  The errors of fetching and parsing.  An empty key is refused by
    the client library: [ParamValidationError].  For a key of at least one
    character, a [get_object] call that is refused (a bucket name the client
    library does not accept, say) or fails raises its exception; when the
    call goes through, a record whose object does not exist raises
    [NoSuchKey], one whose bytes are not UTF-8 raises [UnicodeDecodeError],
    one whose text is not JSON raises [JSONDecodeError].  In each case the
    [get_object] call is the only interaction: nothing is validated,
    translated or written. *)
Theorem X13_unreadable_object (rb bucket key : str) (w : world) :
  let call := GetObject (JStr bucket) (JStr key) in
  let w1 := record call w in
  (key = [] -> process_file rb (JStr bucket) key w = (Raise ParamValidationError, w1)) /\
  (key <> [] -> forall x, service_fault (trace w) call = Some x ->
   process_file rb (JStr bucket) key w = (Raise x, w1)) /\
  (key <> [] -> service_fault (trace w) call = None ->
   (objects w !! (bucket, key) = None ->
    process_file rb (JStr bucket) key w = (Raise NoSuchKey, w1)) /\
   (forall obj, objects w !! (bucket, key) = Some obj -> decode_utf8 (body obj) = None ->
    process_file rb (JStr bucket) key w = (Raise UnicodeDecodeError, w1)) /\
   (forall obj content,
       objects w !! (bucket, key) = Some obj -> decode_utf8 (body obj) = Some content ->
       json_loads content = None ->
       process_file rb (JStr bucket) key w = (Raise JSONDecodeError, w1))).
Proof.
  intros call w1. subst call w1. rewrite process_file_run. cbv zeta.
  split; [intros ->; reflexivity|].
  destruct key as [|c k]; [split; intros Hkey; destruct (Hkey eq_refl)|].
  split; [intros _ x ->; reflexivity|].
  intros _ ->. split; [|split].
  - intros ->. reflexivity.
  - intros obj -> ->. reflexivity.
  - intros obj content -> -> ->. reflexivity.
Qed.

(** X6.  Whatever the event and whatever fails, the handler deletes
    nothing and changes no bucket other than the one named by
    [RESPONSE_BUCKET]: every object present before is present after, and
    objects in other buckets are untouched. *)
Theorem X6_only_the_response_bucket_grows (environ : gmap str str) (event : json)
    (w w' : world) (out : res response) :
  lambda_handler environ event w = (out, w') ->
  (forall key, is_Some (objects w !! key) -> is_Some (objects w' !! key)) /\
  (forall b k, environ !! lit "RESPONSE_BUCKET" <> Some b ->
               objects w' !! (b, k) = objects w !! (b, k)).
Proof.
  rewrite lambda_handler_run. unfold environ_get.
  destruct (environ !! lit "REQUEST_BUCKET") as [rq|]; simpl;
    [|intros [= <- <-]; auto].
  destruct (environ !! lit "RESPONSE_BUCKET") as [rb|]; simpl;
    [|intros [= <- <-]; auto].
  destruct (batch event) as [items|]; [|intros [= <- <-]; auto].
  destruct (process_records rb items w) as [[[]|e] w1] eqn:Hloop;
    apply process_records_frame in Hloop as [Hkeep Hother];
    intros [= <- <-]; (split; [exact Hkeep|]);
    intros b k Hb; apply Hother; congruence.
Qed.

End IngestionBatchMore.

(** * The derived key *)
Section OutputKey.
Import Ingestion.

Lemma splitext_scan_some (p : str) (dotIndex : Z) (n : nat) :
  forall i r,
    splitext_scan p dotIndex i n = Some r ->
    r = (slice_to p dotIndex, slice_from p dotIndex).
Proof.
  induction n as [|n IH]; intros i r; simpl; [discriminate|].
  destruct (negb (bool_decide (char_at p i = [extsep]))); [congruence|apply IH].
Qed.

Lemma rfind_lower_bound (p : str) (c : N) : -1 <= rfind p c.
Proof.
  unfold rfind. destruct (last_occurrence c p) as [Hno|(pre & post & -> & Hpost)].
  - rewrite rfind_from_absent by exact Hno. lia.
  - rewrite rfind_from_last by exact Hpost. unfold len. lia.
Qed.

(** [os.path.splitext] cuts its argument in two, and the second part is
    empty or starts with the dot. *)
Lemma splitext_parts (p : str) :
  fst (splitext p) ++ snd (splitext p) = p /\
  (snd (splitext p) = [] \/ exists rest, snd (splitext p) = extsep :: rest).
Proof.
  assert (Hwhole : fst (p, @nil N) ++ snd (p, @nil N) = p /\
                   (snd (p, @nil N) = [] \/ exists rest, snd (p, @nil N) = extsep :: rest)).
  { simpl. rewrite app_nil_r. auto. }
  pose proof (rfind_lower_bound p sep) as Hsep.
  unfold splitext.
  destruct (rfind p extsep >? rfind p sep) eqn:Hgt; [|exact Hwhole].
  rewrite Z.gtb_ltb in Hgt. apply Z.ltb_lt in Hgt.
  destruct (splitext_scan p (rfind p extsep) (rfind p sep + 1)
              (Z.to_nat (rfind p extsep - (rfind p sep + 1)))) as [r|] eqn:Hscan;
    [|exact Hwhole].
  apply splitext_scan_some in Hscan. subst r. simpl.
  unfold slice_to, slice_from. split; [apply firstn_skipn|].
  destruct (last_occurrence extsep p) as [Hno|(pre & post & Hp & Hpost)].
  - unfold rfind in Hgt at 2. rewrite rfind_from_absent in Hgt by exact Hno. lia.
  - right. exists post. rewrite Hp. unfold rfind.
    rewrite rfind_from_last by exact Hpost.
    unfold len. rewrite Z.add_0_l, Nat2Z.id, skipn_app, skipn_all, Nat.sub_diag.
    reflexivity.
Qed.

(** X12.  The key [generate_output_key] derives is the input key without
    the extension [os.path.splitext] finds, followed by ["_translated_"],
    the time and [".json"]; it is never the input key itself, so a result
    cannot overwrite its request. *)
Theorem X12_output_key_is_new (key ts : str) :
  (exists base ext,
      key = base ++ ext /\
      output_key key ts = base ++ lit "_translated_" ++ ts ++ lit ".json") /\
  output_key key ts <> key.
Proof.
  destruct (splitext_parts key) as [Hcut Hext]. split.
  - exists (fst (splitext key)), (snd (splitext key)). split; [symmetry; exact Hcut|reflexivity].
  - unfold output_key. intros Heq. rewrite <- Hcut in Heq at 2.
    apply app_inv_head in Heq.
    destruct Hext as [Hnil|[rest Hrest]]; rewrite ?Hnil, ?Hrest in Heq; discriminate.
Qed.

(** X11.  Two results derived from the same input key get the same key
    exactly when their formatted times agree: within one second of the
    format a second ingestion of a key replaces the first result, at any
    other time it adds a new object. *)
Theorem X11_same_key_only_at_same_time (key ts1 ts2 : str) :
  output_key key ts1 = output_key key ts2 <-> ts1 = ts2.
Proof.
  split; [|intros ->; reflexivity].
  unfold output_key. intros Heq.
  apply app_inv_head, app_inv_head in Heq. apply app_inv_tail in Heq. exact Heq.
Qed.

End OutputKey.

(** * Further properties of the retrieval handler *)
Section RetrievalMore.
Import Retrieval.
Context `{P : Platform}.

(** The request id of an event, as the handler reads it. *)
Lemma retrieval_run (rb : str) (event : json) (key : str) (w : world) :
  (params ← subscript event (lit "pathParameters");
   subscript params (lit "request_id")) = Ok (JStr key) ->
  lambda_handler rb event w =
  let w1 := record (GetObject (JStr rb) (JStr key)) w in
  match key with
  | [] =>
      (Ok {| statusCode := 500; headers := cors_headers;
             response_body := message "An internal server error occurred." |}, w1)
  | _ :: _ =>
      match service_fault (trace w) (GetObject (JStr rb) (JStr key)),
            objects w !! (rb, key) with
      | None, Some obj =>
          match decode_utf8 (body obj) with
          | Some text =>
              (Ok {| statusCode := 200; headers := cors_headers; response_body := text |},
               w1)
          | None =>
              (Ok {| statusCode := 500; headers := cors_headers;
                     response_body := message "An internal server error occurred." |}, w1)
          end
      | None, None =>
          (Ok {| statusCode := 404; headers := cors_headers;
                 response_body := message "Translation not found or still processing." |},
           w1)
      | Some _, _ =>
          (Ok {| statusCode := 500; headers := cors_headers;
                 response_body := message "An internal server error occurred." |}, w1)
      end
  end.
Proof.
  intros Hrid. unfold lambda_handler. rewrite Hrid. run_M.
  rewrite get_object_run. cbv zeta.
  destruct key as [|c k]; [reflexivity|].
  destruct (service_fault (trace w) (GetObject (JStr rb) (JStr (c :: k)))) as [x|] eqn:Hf.
  { destruct x; try reflexivity. destruct (service_fault_other _ _ Hf). }
  destruct (objects w !! (rb, c :: k)) as [obj|]; [|reflexivity]. simpl.
  destruct (decode_utf8 (body obj)); reflexivity.
Qed.

(** The handler on a key that has no object. *)
Lemma retrieval_missing (rb : str) (event : json) (key : str) (w : world) :
  (params ← subscript event (lit "pathParameters");
   subscript params (lit "request_id")) = Ok (JStr key) ->
  key <> [] ->
  service_fault (trace w) (GetObject (JStr rb) (JStr key)) = None ->
  objects w !! (rb, key) = None ->
  lambda_handler rb event w =
    (Ok {| statusCode := 404; headers := cors_headers;
           response_body := message "Translation not found or still processing." |},
     record (GetObject (JStr rb) (JStr key)) w).
Proof.
  intros Hrid Hkey Hfault Hnone. rewrite (retrieval_run rb event key w Hrid). cbv zeta.
  destruct key as [|c k]; [congruence|]. rewrite Hfault, Hnone. reflexivity.
Qed.

(** X14.  For an event whose path parameters give a string as
    ['request_id'].  When the string has at least one character and the
    [get_object] call goes through (it is not refused by the client library
    and the store answers it), the handler returns 200 with the decoded body
    of the object stored under that key in the response bucket, and 404
    with the "not found or still processing" message when there is no such
    object.  An empty ['request_id'] is refused by the client library as a
    key, and the handler returns 500.  In each case the handler makes the
    one [get_object] call. *)
Theorem X14_found_or_still_processing (rb : str) (event : json) (key : str) (w : world) :
  (params ← subscript event (lit "pathParameters");
   subscript params (lit "request_id")) = Ok (JStr key) ->
  let w1 := record (GetObject (JStr rb) (JStr key)) w in
  (key <> [] -> service_fault (trace w) (GetObject (JStr rb) (JStr key)) = None ->
   (forall obj text,
       objects w !! (rb, key) = Some obj -> decode_utf8 (body obj) = Some text ->
       lambda_handler rb event w =
         (Ok {| statusCode := 200; headers := cors_headers; response_body := text |}, w1)) /\
   (objects w !! (rb, key) = None ->
    lambda_handler rb event w =
      (Ok {| statusCode := 404; headers := cors_headers;
             response_body := message "Translation not found or still processing." |},
       w1))) /\
  (key = [] ->
   lambda_handler rb event w =
     (Ok {| statusCode := 500; headers := cors_headers;
            response_body := message "An internal server error occurred." |}, w1)).
Proof.
  intros Hrid w1. rewrite (retrieval_run rb event key w Hrid). cbv zeta. split.
  - intros Hkey Hfault. destruct key as [|c k]; [congruence|]. rewrite Hfault. split.
    + intros obj text -> ->. reflexivity.
    + intros ->. reflexivity.
  - intros ->. reflexivity.
Qed.

(** X15.  An event that is a mapping without ['pathParameters'], or whose
    ['pathParameters'] is a mapping without ['request_id'], gets the 400
    response, and the store is not asked at all. *)
Theorem X15_missing_request_id (rb : str) (d : list (str * json)) (w : world) :
  dict_get d (lit "pathParameters") = None \/
  (exists params, dict_get d (lit "pathParameters") = Some (JDict params) /\
                  dict_get params (lit "request_id") = None) ->
  lambda_handler rb (JDict d) w =
    (Ok {| statusCode := 400; headers := cors_headers;
           response_body := message "Error: Missing request_id in path." |}, w).
Proof.
  intros [Hnone|(params & Hsome & Hrid)]; unfold lambda_handler, subscript; run_M.
  - rewrite Hnone. reflexivity.
  - rewrite Hsome, Hrid. reflexivity.
Qed.

(** X16.  Every failure other than a missing object gives the same
    response, 500 with a fixed message that does not depend on the error:
    a ['request_id'] that is not a string, a request the store refuses, and
    stored bytes that are not UTF-8. *)
Theorem X16_failures_are_opaque (rb : str) (event rid : json) (w : world) :
  (params ← subscript event (lit "pathParameters");
   subscript params (lit "request_id")) = Ok rid ->
  (forall s, rid <> JStr s) \/
  (exists code, service_fault (trace w) (GetObject (JStr rb) rid) = Some code) \/
  (exists key obj, rid = JStr key /\ objects w !! (rb, key) = Some obj /\
                   decode_utf8 (body obj) = None) ->
  exists w',
    lambda_handler rb event w =
      (Ok {| statusCode := 500; headers := cors_headers;
             response_body := message "An internal server error occurred." |}, w').
Proof.
  intros Hrid Hcase.
  destruct rid as [| | | |key| |];
    try (unfold lambda_handler; rewrite Hrid; eexists; reflexivity).
  rewrite (retrieval_run rb event key w Hrid). cbv zeta.
  destruct key as [|c k]; [eexists; reflexivity|].
  destruct Hcase as [Hns|[[code Hf]|(key' & obj & [= <-] & Hobj & Hdec)]].
  - destruct (Hns _ eq_refl).
  - rewrite Hf. eexists. reflexivity.
  - rewrite Hobj, Hdec. destruct (service_fault _ _); eexists; reflexivity.
Qed.

(** X17.  The handler only reads: in every outcome the buckets are as
    before.  A response it returns carries the two headers and one of the
    statuses 200, 400, 404 and 500; if it raises, it raises [TypeError]
    before asking the store. *)
Theorem X17_retrieval_only_reads (rb : str) (event : json) (w w' : world)
    (out : res response) :
  lambda_handler rb event w = (out, w') ->
  objects w' = objects w /\
  match out with
  | Ok r =>
      headers r = cors_headers /\
      (statusCode r = 200 \/ statusCode r = 400 \/ statusCode r = 404 \/ statusCode r = 500)
  | Raise e => e = TypeError /\ w' = w
  end.
Proof.
  unfold lambda_handler.
  destruct (params ← subscript event (lit "pathParameters");
            subscript params (lit "request_id")) as [rid|e] eqn:Hrid.
  - destruct rid as [| | | |key| |];
      try (run_M; unfold get_object, refused; intros [= <- <-]; simpl; auto 6).
    pose proof (retrieval_run rb event key w Hrid) as Hrun.
    unfold lambda_handler in Hrun. rewrite Hrid in Hrun. rewrite Hrun. cbv zeta.
    destruct key as [|c k]; [intros [= <- <-]; simpl; auto 6|].
    destruct (service_fault _ _); [intros [= <- <-]; simpl; auto 6|].
    destruct (objects w !! (rb, c :: k)) as [obj|]; [|intros [= <- <-]; simpl; auto 6].
    destruct (decode_utf8 (body obj)); intros [= <- <-]; simpl; auto 6.
  - destruct e; try (run_M; intros [= <- <-]; simpl; auto 6).
    all: exfalso; unfold subscript in Hrid; run_M;
      destruct event as [| | | | | |d]; try discriminate;
      destruct (dict_get d (lit "pathParameters")) as [[| | | | | |p]|]; try discriminate;
      destruct (dict_get p (lit "request_id")); discriminate.
Qed.

(** X18.  Retrieval can be repeated: after a call that returned 200 or
    404, a second call for the same event, if the store answers it, returns
    the same response. *)
Theorem X18_retrieval_repeats (rb : str) (event : json) (w w' : world) (r : response) :
  lambda_handler rb event w = (Ok r, w') ->
  statusCode r = 200 \/ statusCode r = 404 ->
  (forall e, service_fault (trace w') e = None) ->
  exists w'', lambda_handler rb event w' = (Ok r, w'').
Proof.
  intros Hfirst Hstatus Hfault.
  destruct (params ← subscript event (lit "pathParameters");
            subscript params (lit "request_id")) as [rid|e] eqn:Hrid.
  2:{ unfold lambda_handler in Hfirst. rewrite Hrid in Hfirst.
      destruct e; try discriminate. run_M. injection Hfirst as <- _.
      simpl in Hstatus. destruct Hstatus; discriminate. }
  destruct rid as [| | | |key| |];
    try (unfold lambda_handler in Hfirst; rewrite Hrid in Hfirst;
         unfold get_object, refused in Hfirst; run_M; injection Hfirst as <- _;
         simpl in Hstatus; destruct Hstatus; discriminate).
  rewrite (retrieval_run rb event key w Hrid) in Hfirst.
  rewrite (retrieval_run rb event key w' Hrid). cbv zeta in *.
  destruct key as [|c k].
  { injection Hfirst as <- _. simpl in Hstatus. destruct Hstatus; discriminate. }
  rewrite Hfault.
  destruct (service_fault (trace w) _).
  { injection Hfirst as <- _. simpl in Hstatus. destruct Hstatus; discriminate. }
  destruct (objects w !! (rb, c :: k)) as [obj|] eqn:Hobj.
  - destruct (decode_utf8 (body obj)) eqn:Hdec.
    + injection Hfirst as <- <-. simpl. rewrite Hobj, Hdec. eauto.
    + injection Hfirst as <- _. simpl in Hstatus. destruct Hstatus; discriminate.
  - injection Hfirst as <- <-. simpl. rewrite Hobj. eauto.
Qed.

End RetrievalMore.

(** * Further properties of the client: requests *)
Section ClientRequests.
Import Ingestion Client.
Context `{P : Platform}.

Lemma create_translation_request_run (texts : list str) (src tgt : str)
    (rid : option str) (w : world) :
  exists id w',
    create_translation_request texts src tgt rid w =
      (Ok (JDict [(lit "request_id", JStr id);
                  (lit "source_language", JStr src);
                  (lit "target_language", JStr tgt);
                  (lit "texts", JList (structured_texts 0 texts));
                  (lit "timestamp", JStr (isoformat (now w')));
                  (lit "client_info",
                   JDict [(lit "version", JStr (lit "1.0"));
                          (lit "client_type", JStr (lit "python_client"))])]), w') /\
    objects w' = objects w /\
    exists ext, trace w' = trace w ++ ext /\ Forall (fun e => e = ReadClock) ext.
Proof.
  unfold create_translation_request, read_clock. run_M.
  destruct rid as [[|c rid]|]; cbv zeta.
  - exists (lit "req_" ++ strftime_compact (now (record ReadClock w))),
           (record ReadClock (record ReadClock w)).
    split; [reflexivity|]. split; [reflexivity|]. exists [ReadClock; ReadClock].
    simpl. rewrite <- app_assoc. split; [reflexivity|repeat constructor].
  - exists (c :: rid), (record ReadClock w).
    split; [reflexivity|]. split; [reflexivity|]. exists [ReadClock].
    split; [reflexivity|repeat constructor].
  - exists (lit "req_" ++ strftime_compact (now (record ReadClock w))),
           (record ReadClock (record ReadClock w)).
    split; [reflexivity|]. split; [reflexivity|]. exists [ReadClock; ReadClock].
    simpl. rewrite <- app_assoc. split; [reflexivity|repeat constructor].
Qed.

(** X19.  A request built by [create_translation_request] passes the
    ingestion handler's validation exactly when the list of texts is not
    empty; building it touches no bucket and calls no service: its only
    interactions are readings of the clock. *)
Theorem X19_created_request_validity (texts : list str) (src tgt : str)
    (rid : option str) (w : world) :
  exists req w',
    create_translation_request texts src tgt rid w = (Ok req, w') /\
    validate_translation_request req = Ok (negb (bool_decide (texts = []))) /\
    objects w' = objects w /\
    exists ext, trace w' = trace w ++ ext /\ Forall (fun e => e = ReadClock) ext.
Proof.
  destruct (create_translation_request_run texts src tgt rid w)
    as (id & w' & Hrun & Hobj & Hext).
  eexists _, _. split; [exact Hrun|]. split; [|split; [exact Hobj|exact Hext]].
  destruct texts; reflexivity.
Qed.

Lemma structured_item_fields (i : Z) (text : str) (n : Z) :
  item_fields (JDict [(lit "id", JInt i); (lit "text", JStr text)]) n = (JStr text, JInt i).
Proof. reflexivity. Qed.

Lemma structured_texts_Forall2 (texts : list str) :
  forall i0, Forall2 (fun item text => text_of item = Some text)
               (structured_texts i0 texts) texts.
Proof. induction texts as [|t texts IH]; intros i0; simpl; constructor; [reflexivity|apply IH]. Qed.

(** X20.  Encoding and ingestion compose: when the translation service
    answers, [process_translation] on the request built from [texts]
    returns a result whose entries are, position by position, the input
    strings with their 0-based positions as ids, and whose [total_texts] is
    the number of input strings. *)
Theorem X20_created_request_translates (texts : list str) (src tgt : str)
    (rid : option str) (w : world) :
  (forall h text, exists out, translate_response h text (JStr src) (JStr tgt) = Ok out) ->
  exists req w1 r w2,
    create_translation_request texts src tgt rid w = (Ok req, w1) /\
    process_translation req w1 = (Ok r, w2) /\
    map original_text (translations r) = texts /\
    (forall (i : nat) e, translations r !! i = Some e -> text_id e = JInt (Z.of_nat i)) /\
    total_texts (metadata_of r) = len texts.
Proof.
  intros Hans.
  destruct (create_translation_request_run texts src tgt rid w) as (id & w1 & Hrun & _).
  destruct (translate_items_total (JStr src) (JStr tgt) (structured_texts 0 texts) texts
              (structured_texts_Forall2 texts 0) [] 0 w1) as ([new total] & w2 & Hloop);
    [intros i text _ _; apply Hans|].
  eexists _, _, _, _. split; [exact Hrun|].
  rewrite (process_translation_run _ (JStr src) (JStr tgt) (structured_texts 0 texts) w1)
    by reflexivity.
  rewrite Hloop. split; [reflexivity|]. simpl.
  apply translate_items_ok in Hloop as (new' & Hnew & Hlen & _ & _ & _ & Hent).
  simpl in Hnew. subst new'.
  assert (Hitem : forall (i : nat) e, new !! i = Some e ->
            exists text, texts !! i = Some text /\ original_text e = text /\
                         text_id e = JInt (Z.of_nat i)).
  { intros i e He.
    destruct (texts !! i) as [text|] eqn:Ht.
    2:{ apply lookup_ge_None in Ht. apply lookup_lt_Some in He.
        rewrite structured_texts_length in Hlen. lia. }
    exists text. split; [reflexivity|].
    pose proof (structured_texts_lookup texts 0 i text Ht) as Hi.
    destruct (Hent i _ e Hi He) as [Hf _]. rewrite structured_item_fields in Hf.
    injection Hf as -> <-. split; [reflexivity|]. f_equal. }
  split; [|split].
  - apply list_eq. intros i. rewrite list_lookup_fmap.
    destruct (new !! i) as [e|] eqn:He; simpl.
    + destruct (Hitem i e He) as (text & Ht & <- & _). symmetry. exact Ht.
    + symmetry. apply lookup_ge_None. apply lookup_ge_None in He.
      rewrite structured_texts_length in Hlen. lia.
  - intros i e He. destruct (Hitem i e He) as (_ & _ & _ & Hid). exact Hid.
  - unfold len. rewrite structured_texts_length. reflexivity.
Qed.

(** The steps of [submit_translation_request] on a mapping. *)
Lemma submit_translation_request_run (self : client) (d : list (str * json)) (w : world) :
  submit_translation_request self (JDict d) w =
  match dict_get d (lit "request_id") with
  | None => (Raise (KeyError (lit "request_id")), w)
  | Some rid =>
      match encode (json_dumps_indent (JDict d)) with
      | Raise e => (Raise e, w)
      | Ok content =>
          match (source ← subscript (JDict d) (lit "source_language");
                 target ← subscript (JDict d) (lit "target_language");
                 texts ← subscript (JDict d) (lit "texts");
                 count ← py_len texts;
                 mret (source, target, count)) with
          | Raise e => (Raise e, w)
          | Ok (source, target, count) =>
              match put_object (request_bucket self) (request_filename (py_str rid))
                      content (lit "application/json") (lit "AES256")
                      [(lit "request-id", rid); (lit "source-language", source);
                       (lit "target-language", target);
                       (lit "text-count", JStr (int_str count))] w with
              | (Ok _, w') => (Ok (request_filename (py_str rid)), w')
              | (Raise e, w') => (Raise e, w')
              end
          end
      end
  end.
Proof.
  unfold submit_translation_request, subscript. run_M.
  destruct (dict_get d (lit "request_id")) as [rid|]; [|reflexivity].
  destruct (encode _) as [content|e]; [|reflexivity].
  destruct (dict_get d (lit "source_language")) as [source|]; [|reflexivity].
  destruct (dict_get d (lit "target_language")) as [target|]; [|reflexivity].
  destruct (dict_get d (lit "texts")) as [texts|]; [|reflexivity].
  destruct (py_len texts) as [count|e]; [|reflexivity].
  destruct (put_object _ _ _ _ _ _ w) as [[[]|e] w']; reflexivity.
Qed.

Lemma request_filename_not_empty (rid : str) : request_filename rid <> [].
Proof. discriminate. Qed.

(** The metadata of a request whose id and languages are ASCII strings
    pass the check of the client library. *)
Lemma request_metadata_valid (rid sl tl : str) (count : Z) :
  is_ascii rid = true -> is_ascii sl = true -> is_ascii tl = true ->
  validate_ascii_metadata
    [(lit "request-id", JStr rid); (lit "source-language", JStr sl);
     (lit "target-language", JStr tl); (lit "text-count", JStr (int_str count))] =
  Ok [(lit "request-id", rid); (lit "source-language", sl);
      (lit "target-language", tl); (lit "text-count", int_str count)].
Proof.
  intros Hrid Hsl Htl. simpl. rewrite Hrid, Hsl, Htl, int_str_ascii. reflexivity.
Qed.

(** What a submit leaves behind: nothing when it raises, the encoded
    request under the returned key when it returns. *)
Lemma submit_frame (self : client) (d : list (str * json)) (w w' : world)
    (out : res str) :
  submit_translation_request self (JDict d) w = (out, w') ->
  match out with
  | Raise _ => objects w' = objects w
  | Ok filename =>
      exists rid source target count stored,
        dict_get d (lit "request_id") = Some rid /\
        filename = request_filename (py_str rid) /\
        objects w' = <[(request_bucket self, filename) := stored]> (objects w) /\
        encode (json_dumps_indent (JDict d)) = Ok (body stored) /\
        (source ← subscript (JDict d) (lit "source_language");
         target ← subscript (JDict d) (lit "target_language");
         texts ← subscript (JDict d) (lit "texts");
         count ← py_len texts;
         mret (source, target, count)) = Ok (source, target, count) /\
        validate_ascii_metadata
          [(lit "request-id", rid); (lit "source-language", source);
           (lit "target-language", target); (lit "text-count", JStr (int_str count))]
        = Ok (metadata stored)
  end.
Proof.
  rewrite submit_translation_request_run.
  destruct (dict_get d (lit "request_id")) as [rid|]; [|intros [= <- <-]; reflexivity].
  destruct (encode _) as [content|e]; [|intros [= <- <-]; reflexivity].
  match goal with
  | |- context [match ?m with Ok _ => _ | Raise _ => _ end] =>
      destruct m as [[[source target] count]|] eqn:Hfields
  end; [|intros [= <- <-]; reflexivity].
  destruct (put_object _ _ _ _ _ _ w) as [[[]|e] w1] eqn:Hput;
    apply put_object_frame in Hput as [_ Hout]; intros [= <- <-]; [|exact Hout].
  destruct Hout as (obj & Hobj & Hbody & _ & Hmeta).
  exists rid, source, target, count, obj. rewrite Hbody. auto 10.
Qed.

(** A submit that goes through. *)
Lemma submit_stores (self : client) (d : list (str * json))
    (rid sl tl : str) (texts : json) (count : Z) (content : bytes) (w : world) :
  dict_get d (lit "request_id") = Some (JStr rid) ->
  dict_get d (lit "source_language") = Some (JStr sl) ->
  dict_get d (lit "target_language") = Some (JStr tl) ->
  dict_get d (lit "texts") = Some texts ->
  py_len texts = Ok count ->
  is_ascii rid = true -> is_ascii sl = true -> is_ascii tl = true ->
  encode (json_dumps_indent (JDict d)) = Ok content ->
  service_fault (trace w) (submit_call self rid sl tl count content) = None ->
  exists w' stored,
    submit_translation_request self (JDict d) w = (Ok (request_filename rid), w') /\
    objects w' = <[(request_bucket self, request_filename rid) := stored]> (objects w) /\
    body stored = content /\
    metadata stored = [(lit "request-id", rid); (lit "source-language", sl);
                       (lit "target-language", tl); (lit "text-count", int_str count)] /\
    trace w' = trace w ++ [submit_call self rid sl tl count content].
Proof.
  intros Hrid Hsl Htl Htexts Hlen Hr Hs Ht Henc Hfault. unfold submit_call in *.
  rewrite submit_translation_request_run, Hrid, Henc. unfold subscript. run_M.
  rewrite Hsl, Htl, Htexts, Hlen. change (py_str (JStr rid)) with rid.
  rewrite (put_object_stores _ _ _ _ _ _ _ _ (request_metadata_valid _ _ _ _ Hr Hs Ht)
             (request_filename_not_empty _) Hfault).
  eexists _, _. split; [reflexivity|].
  split; [reflexivity|]. split; [reflexivity|]. split; reflexivity.
Qed.

(** X21.  [submit_translation_request] on a request whose ['request_id']
    and languages are ASCII strings, whose ['texts'] has a length and whose
    JSON text can be encoded (it holds no lone surrogate), when its
    [put_object] call is neither refused by the client library nor failed by
    the store: it makes that one call, returns the key
    ["translation_request_<request_id>.json"] and has stored, under that key
    in the request bucket, the encoded JSON text of the request with the id,
    the languages and the number of texts as metadata; a [get_object] call
    for that key that goes through then returns the stored object. *)
Theorem X21_submit_stores_the_request (self : client) (d : list (str * json))
    (rid sl tl : str) (texts : json) (count : Z) (content : bytes) (w : world) :
  dict_get d (lit "request_id") = Some (JStr rid) ->
  dict_get d (lit "source_language") = Some (JStr sl) ->
  dict_get d (lit "target_language") = Some (JStr tl) ->
  dict_get d (lit "texts") = Some texts ->
  py_len texts = Ok count ->
  is_ascii rid = true -> is_ascii sl = true -> is_ascii tl = true ->
  encode (json_dumps_indent (JDict d)) = Ok content ->
  service_fault (trace w) (submit_call self rid sl tl count content) = None ->
  exists w' stored,
    submit_translation_request self (JDict d) w = (Ok (request_filename rid), w') /\
    trace w' = trace w ++ [submit_call self rid sl tl count content] /\
    objects w' = <[(request_bucket self, request_filename rid) := stored]> (objects w) /\
    body stored = content /\
    metadata stored = [(lit "request-id", rid); (lit "source-language", sl);
                       (lit "target-language", tl); (lit "text-count", int_str count)] /\
    let fetch := GetObject (JStr (request_bucket self)) (JStr (request_filename rid)) in
    (service_fault (trace w') fetch = None ->
     get_object (JStr (request_bucket self)) (JStr (request_filename rid)) w' =
       (Ok stored, record fetch w')).
Proof.
  intros Hrid Hsl Htl Htexts Hlen Hr Hs Ht Henc Hfault.
  destruct (submit_stores self d rid sl tl texts count content w
              Hrid Hsl Htl Htexts Hlen Hr Hs Ht Henc Hfault)
    as (w' & stored & Hrun & Hobj & Hbody & Hmeta & Htr).
  exists w', stored. split; [exact Hrun|]. split; [exact Htr|]. split; [exact Hobj|].
  split; [exact Hbody|]. split; [exact Hmeta|].
  intros fetch Hget. subst fetch. rewrite get_object_run. cbv zeta.
  destruct (request_filename rid) as [|c k] eqn:Hname;
    [destruct (request_filename_not_empty _ Hname)|].
  rewrite Hget, Hobj, lookup_insert_eq. reflexivity.
Qed.

(** X22.  A submit that raises has stored nothing, and one that returns
    has stored exactly the object under the returned key.  A request
    without ['request_id'] raises [KeyError], and one whose JSON text holds
    a lone surrogate raises [UnicodeEncodeError], both before [put_object]
    is called.  A ['request_id'] that is not a string, or is a string with a
    character outside ASCII, is refused by the client library's check of
    the metadata when [put_object] is called, with [AttributeError] and
    [ParamValidationError]; nothing is sent to the store. *)
Theorem X22_failed_submit_stores_nothing (self : client) (req : json) (w : world) :
  (forall out w',
      submit_translation_request self req w = (out, w') ->
      match out with
      | Raise _ => objects w' = objects w
      | Ok filename =>
          exists stored,
            objects w' = <[(request_bucket self, filename) := stored]> (objects w)
      end) /\
  (forall d, req = JDict d -> dict_get d (lit "request_id") = None ->
     submit_translation_request self req w = (Raise (KeyError (lit "request_id")), w)) /\
  (forall d rid, req = JDict d -> dict_get d (lit "request_id") = Some rid ->
     existsb is_surrogate (json_dumps_indent req) = true ->
     submit_translation_request self req w = (Raise UnicodeEncodeError, w)) /\
  (forall d v sl tl texts count content,
      req = JDict d -> dict_get d (lit "request_id") = Some v ->
      encode (json_dumps_indent req) = Ok content ->
      dict_get d (lit "source_language") = Some sl ->
      dict_get d (lit "target_language") = Some tl ->
      dict_get d (lit "texts") = Some texts -> py_len texts = Ok count ->
      let call :=
        PutObject (request_bucket self) (request_filename (py_str v)) content
          (lit "application/json") (lit "AES256")
          [(lit "request-id", v); (lit "source-language", sl);
           (lit "target-language", tl); (lit "text-count", JStr (int_str count))] in
      ((forall s, v <> JStr s) ->
       submit_translation_request self req w = (Raise AttributeError, record call w)) /\
      (forall s, v = JStr s -> is_ascii s = false ->
       submit_translation_request self req w = (Raise ParamValidationError, record call w))).
Proof.
  split; [|split; [|split]].
  - intros out w'. destruct req as [| | | | | |d];
      try (unfold submit_translation_request; run_M; intros [= <- <-]; reflexivity).
    intros Hrun. apply submit_frame in Hrun. destruct out as [filename|e]; [|exact Hrun].
    destruct Hrun as (rid & source & target & count & stored & _ & _ & Hobj & _). eauto.
  - intros d -> Hnone. rewrite submit_translation_request_run, Hnone. reflexivity.
  - intros d rid -> Hrid Hsur. rewrite submit_translation_request_run, Hrid.
    unfold encode. rewrite Hsur. reflexivity.
  - intros d v sl tl texts count content -> Hv Henc Hsl Htl Htexts Hlen call.
    rewrite submit_translation_request_run, Hv, Henc. unfold subscript. run_M.
    rewrite Hsl, Htl, Htexts, Hlen. fold call. rewrite put_object_run. cbv zeta.
    split.
    + intros Hns. simpl. destruct v; try reflexivity. destruct (Hns s eq_refl).
    + intros s -> Hs. simpl. rewrite Hs. reflexivity.
Qed.

End ClientRequests.

(** * Further properties of the client: polling *)
Section ClientPolling.
Import Ingestion Client.
Context `{P : Platform}.

(** What a listing shows is in the store, in the bucket and under the
    prefix asked for. *)
Lemma listing_sound (bucket prefix : str) (w : world) (k : str) (t : Z) :
  (k, t) ∈ listing bucket prefix w ->
  exists obj, objects w !! (bucket, k) = Some obj /\ startswith k prefix = true /\
              t = last_modified obj.
Proof.
  unfold listing. intros Hin.
  apply subseteq_take in Hin.
  rewrite merge_sort_Permutation in Hin.
  apply list_elem_of_omap in Hin as ([[b k'] o] & Hel & Hsome).
  apply elem_of_map_to_list in Hel.
  destruct (bool_decide (b = bucket)) eqn:Hb; simpl in Hsome; [|discriminate].
  apply bool_decide_eq_true in Hb. subst b.
  destruct (startswith k' prefix) eqn:Hp; [|discriminate].
  injection Hsome as <- <-. eauto.
Qed.

(** A matching object makes the listing non-empty. *)
Lemma listing_complete (bucket prefix : str) (w : world) (k : str) (obj : s3object) :
  objects w !! (bucket, k) = Some obj -> startswith k prefix = true ->
  listing bucket prefix w <> [].
Proof.
  intros Hobj Hp. unfold listing.
  match goal with |- context [merge_sort ?R ?l] => set (found := l) end.
  assert (Hin : (k, last_modified obj) ∈ merge_sort key_le found).
  { rewrite merge_sort_Permutation. subst found. apply list_elem_of_omap.
    exists (bucket, k, obj). split; [apply elem_of_map_to_list; exact Hobj|].
    rewrite bool_decide_eq_true_2 by reflexivity. simpl. rewrite Hp. reflexivity. }
  destruct (merge_sort key_le found); [inversion Hin|discriminate].
Qed.

(** X23.  The object the client picks from a listing is one of the listed
    objects with the latest modification time, and the first of them: all
    before it are strictly older, none after it is newer. *)
Theorem X23_latest_is_first_newest (first : str * Z) (others : list (str * Z)) :
  exists before after,
    first :: others = before ++ latest first others :: after /\
    Forall (fun x => snd x < snd (latest first others)) before /\
    Forall (fun x => snd x <= snd (latest first others)) after.
Proof.
  revert first. induction others as [|x rest IH]; intros best; simpl.
  - exists [], []. repeat split; constructor.
  - destruct (snd best <? snd x) eqn:Hlt.
    + apply Z.ltb_lt in Hlt.
      destruct (IH x) as (before & after & Hcut & Hb & Ha).
      exists (best :: before), after. rewrite Hcut. split; [reflexivity|].
      split; [|exact Ha]. constructor; [|exact Hb].
      assert (Hx : snd x <= snd (latest x rest)).
      { destruct before as [|y before]; simpl in Hcut.
        - injection Hcut as <- _. lia.
        - injection Hcut as <- _. inversion Hb; subst. lia. }
      lia.
    + apply Z.ltb_ge in Hlt.
      destruct (IH best) as (before & after & Hcut & Hb & Ha).
      destruct before as [|y before]; simpl in Hcut.
      * injection Hcut as Hbest Hrest. rewrite <- Hbest in Ha |- *. subst after.
        exists [], (x :: rest). split; [reflexivity|].
        split; [constructor|]. constructor; [lia|exact Ha].
      * injection Hcut as <- Hrest. exists (best :: x :: before), after.
        split; [simpl; do 2 f_equal; exact Hrest|]. split; [|exact Ha].
        inversion Hb; subst. repeat constructor; try assumption. lia.
Qed.

Lemma latest_listed (first : str * Z) (others : list (str * Z)) :
  latest first others ∈ first :: others.
Proof.
  revert first. induction others as [|x rest IH]; intros best; simpl.
  - apply list_elem_of_here.
  - destruct (snd best <? snd x).
    + apply list_elem_of_further, IH.
    + specialize (IH best). apply elem_of_cons in IH as [->|Hin].
      * apply list_elem_of_here.
      * do 2 apply list_elem_of_further. exact Hin.
Qed.

Lemma get_translation_result_run (self : client) (key : str) (w : world) :
  get_translation_result self key w =
  match get_object (JStr (response_bucket self)) (JStr key) w with
  | (Raise e, w1) => (Raise e, w1)
  | (Ok obj, w1) =>
      match decode_utf8 (body obj) with
      | None => (Raise UnicodeDecodeError, w1)
      | Some content =>
          match json_loads content with
          | None => (Raise JSONDecodeError, w1)
          | Some result => (Ok result, w1)
          end
      end
  end.
Proof.
  unfold get_translation_result. run_M.
  destruct (get_object _ _ w) as [[obj|e] w1]; [|reflexivity]. simpl.
  destruct (decode_utf8 (body obj)) as [content|]; [|reflexivity]. simpl.
  destruct (json_loads content); reflexivity.
Qed.

(** A key under the polled prefix has at least one character. *)
Lemma key_under_prefix_not_empty (key request_id : str) :
  startswith key (result_prefix request_id) = true -> key <> [].
Proof. intros Hp ->. discriminate Hp. Qed.

Lemma sleep_frame (secs : Z) (w w' : world) (out : res unit) :
  sleep secs w = (out, w') ->
  objects w' = objects w /\
  exists ext, trace w' = trace w ++ ext /\ Forall not_put ext.
Proof.
  unfold sleep. destruct (secs <? 0); intros [= <- <-]; simpl.
  - split; [reflexivity|]. exists []. rewrite app_nil_r. split; [reflexivity|constructor].
  - split; [reflexivity|]. eexists. split; [reflexivity|]. repeat constructor.
Qed.

(** One pass through the loop body, whatever happens: nothing is written,
    and a result it yields was read from a matching object. *)
Lemma guarded_poll_frame (self : client) (request_id : str) (poll_interval : Z)
    (w w' : world) (out : res (option json)) :
  try_except (poll_once self request_id poll_interval)
    (fun _ => _ ← sleep poll_interval; mret None) w = (out, w') ->
  objects w' = objects w /\
  (exists ext, trace w' = trace w ++ ext /\ Forall not_put ext) /\
  (forall result, out = Ok (Some result) -> read_from self request_id w result).
Proof.
  assert (Hhandler : forall w1 ext1,
            objects w1 = objects w -> trace w1 = trace w ++ ext1 -> Forall not_put ext1 ->
            (_ ← sleep poll_interval; mret None) w1 = (out, w') ->
            objects w' = objects w /\
            (exists ext, trace w' = trace w ++ ext /\ Forall not_put ext) /\
            (forall result, out = Ok (Some result) -> read_from self request_id w result)).
  { intros w1 ext1 Hobj1 Htr1 Hext1. run_M.
    destruct (sleep poll_interval w1) as [[[]|e] w2] eqn:Hs;
      apply sleep_frame in Hs as (Hobj2 & ext2 & Htr2 & Hext2);
      intros [= <- <-]; (split; [congruence|]);
      (split; [exists (ext1 ++ ext2); rewrite Htr2, Htr1, app_assoc;
               split; [reflexivity|apply Forall_app; split; assumption]|discriminate]). }
  unfold try_except, poll_once, list_objects_v2, service_call, read_clock. run_M.
  set (e0 := ListObjectsV2 (response_bucket self) (result_prefix request_id)).
  destruct (service_fault (trace w) e0).
  { apply (Hhandler _ [e0]); [reflexivity|reflexivity|repeat constructor]. }
  simpl.
  destruct (listing (response_bucket self) (result_prefix request_id) (record e0 w))
    as [|first others] eqn:Hlist.
  - destruct (sleep poll_interval (record ReadClock (record e0 w))) as [[[]|e] w2] eqn:Hs.
    + apply sleep_frame in Hs as (Hobj2 & ext2 & Htr2 & Hext2). intros [= <- <-].
      split; [exact Hobj2|]. split; [|discriminate].
      exists ([e0; ReadClock] ++ ext2). rewrite Htr2. simpl. rewrite <- !app_assoc.
      split; [reflexivity|]. repeat constructor. exact Hext2.
    + apply sleep_frame in Hs as (Hobj2 & ext2 & Htr2 & Hext2).
      apply (Hhandler _ ([e0; ReadClock] ++ ext2)); [exact Hobj2| |].
      * rewrite Htr2. simpl. rewrite <- !app_assoc. reflexivity.
      * repeat constructor. exact Hext2.
  - rewrite get_translation_result_run.
    set (key := fst (latest first others)).
    set (e1 := GetObject (JStr (response_bucket self)) (JStr key)).
    assert (Hp : startswith key (result_prefix request_id) = true).
    { subst key. pose proof (latest_listed first others) as Hin. rewrite <- Hlist in Hin.
      destruct (latest first others) as [k t].
      apply listing_sound in Hin as (obj & Hobj & Hp & _). exact Hp. }
    destruct (get_object _ _ (record e0 w)) as [[obj|x] wg] eqn:Hget;
      apply get_object_frame in Hget as [-> Hgot].
    2:{ apply (Hhandler _ [e0; e1]); [reflexivity| |repeat constructor].
        simpl. rewrite <- app_assoc. reflexivity. }
    destruct (Hgot obj eq_refl) as (b' & k' & [= <-] & [= <-] & _ & _ & Hobj).
    change (objects (record e0 w)) with (objects w) in Hobj.
    destruct (decode_utf8 (body obj)) as [content|] eqn:Hdec.
    2:{ apply (Hhandler _ [e0; e1]); [reflexivity| |repeat constructor].
        simpl. rewrite <- app_assoc. reflexivity. }
    destruct (json_loads content) as [result|] eqn:Hload.
    2:{ apply (Hhandler _ [e0; e1]); [reflexivity| |repeat constructor].
        simpl. rewrite <- app_assoc. reflexivity. }
    intros [= <- <-]. split; [reflexivity|]. split.
    + exists [e0; e1]. simpl. rewrite <- app_assoc. split; [reflexivity|repeat constructor].
    + intros result' [= <-]. exists key, obj, content. auto.
Qed.

Lemma polling_frame (self : client) (request_id : str) (timeout poll_interval start : Z) :
  forall (fuel : nat) (w w' : world) (out : res (option (option json))),
    polling fuel self request_id timeout poll_interval start w = (out, w') ->
    objects w' = objects w /\
    (exists ext, trace w' = trace w ++ ext /\ Forall not_put ext) /\
    (forall result, out = Ok (Some (Some result)) -> read_from self request_id w result).
Proof.
  induction fuel as [|fuel IH]; intros w w' out.
  - simpl. run_M. intros [= <- <-]. split; [reflexivity|]. split; [|discriminate].
    exists []. rewrite app_nil_r. split; [reflexivity|constructor].
  - rewrite polling_succ. cbv zeta.
    destruct (now (record ReadClock w) - start <? timeout * tick).
    2:{ intros [= <- <-]. split; [reflexivity|]. split; [|discriminate].
        exists [ReadClock]. split; [reflexivity|repeat constructor]. }
    destruct (try_except _ _ (record ReadClock w)) as [[[result|]|e] w2] eqn:Hpass;
      apply guarded_poll_frame in Hpass as (Hobj & (ext & Htr & Hext) & Hread);
      simpl in Hobj, Htr.
    + intros [= <- <-]. split; [exact Hobj|]. split.
      * exists (ReadClock :: ext). rewrite Htr, <- app_assoc. split; [reflexivity|].
        constructor; [exact I|exact Hext].
      * intros result' [= <-]. destruct (Hread result eq_refl) as (k & o & c & H).
        exists k, o, c. exact H.
    + intros Hrest. apply IH in Hrest as (Hobj' & (ext' & Htr' & Hext') & Hread').
      split; [congruence|]. split.
      * exists (ReadClock :: ext ++ ext'). rewrite Htr', Htr, <- !app_assoc.
        split; [reflexivity|]. constructor; [exact I|apply Forall_app; split; assumption].
      * intros result Hout. destruct (Hread' result Hout) as (k & o & c & Ho & H).
        exists k, o, c. rewrite <- Hobj. split; [exact Ho|exact H].
    + intros [= <- <-]. split; [exact Hobj|]. split; [|discriminate].
      exists (ReadClock :: ext). rewrite Htr, <- app_assoc. split; [reflexivity|].
      constructor; [exact I|exact Hext].
Qed.

(** X24.  Polling only reads, and what it returns is in the store: in
    every outcome of [wait_for_translation_result] the buckets are as before
    and no [put_object] was issued; a result it returns is the parsed body
    of an object of the response bucket whose key lies under the prefix
    polled for the request id. *)
Theorem X24_polling_reads_a_matching_object (fuel : nat) (self : client)
    (request_id : str) (timeout poll_interval : Z) (w w' : world)
    (out : res (option (option json))) :
  wait_for_translation_result fuel self request_id timeout poll_interval w = (out, w') ->
  objects w' = objects w /\
  (exists ext, trace w' = trace w ++ ext /\ Forall not_put ext) /\
  (forall result, out = Ok (Some (Some result)) -> read_from self request_id w result).
Proof.
  unfold wait_for_translation_result, read_clock. run_M. intros Hrun.
  apply polling_frame in Hrun as (Hobj & (ext & Htr & Hext) & Hread).
  split; [exact Hobj|]. split; [|exact Hread].
  exists (ReadClock :: ext). rewrite Htr. simpl. rewrite <- app_assoc.
  split; [reflexivity|]. constructor; [exact I|exact Hext].
Qed.

(** The first poll when a readable result is there. *)
Lemma first_poll_finds (fuel : nat) (self : client) (request_id : str)
    (timeout poll_interval : Z) (w : world) (key0 : str) (obj0 : s3object) :
  (forall h, service_fault h
               (ListObjectsV2 (response_bucket self) (result_prefix request_id)) = None) ->
  (forall key obj,
      objects w !! (response_bucket self, key) = Some obj ->
      startswith key (result_prefix request_id) = true ->
      forall h, service_fault h (GetObject (JStr (response_bucket self)) (JStr key)) = None) ->
  objects w !! (response_bucket self, key0) = Some obj0 ->
  startswith key0 (result_prefix request_id) = true ->
  (forall key obj,
      objects w !! (response_bucket self, key) = Some obj ->
      startswith key (result_prefix request_id) = true ->
      exists content result,
        decode_utf8 (body obj) = Some content /\ json_loads content = Some result) ->
  Z.of_N (elapsed (trace w ++ [ReadClock]) ReadClock) < timeout * tick ->
  exists result key w',
    wait_for_translation_result (S fuel) self request_id timeout poll_interval w
      = (Ok (Some (Some result)), w') /\
    read_from self request_id w result /\
    trace w' = trace w ++ [ReadClock; ReadClock;
                           ListObjectsV2 (response_bucket self) (result_prefix request_id);
                           GetObject (JStr (response_bucket self)) (JStr key)].
Proof.
  intros Hlisted Hfetched Hobj0 Hp0 Hreadable Hdeadline.
  unfold wait_for_translation_result, read_clock. run_M. cbv zeta.
  rewrite polling_succ. cbv zeta.
  destruct (now (record ReadClock (record ReadClock w)) - now (record ReadClock w)
            <? timeout * tick) eqn:Hcond.
  2:{ apply Z.ltb_ge in Hcond. simpl in Hcond. lia. }
  unfold try_except, poll_once, list_objects_v2, service_call. run_M.
  rewrite Hlisted. simpl.
  set (w2 := record (ListObjectsV2 _ _) _).
  destruct (listing (response_bucket self) (result_prefix request_id) w2)
    as [|first others] eqn:Hlist.
  { exfalso. exact (listing_complete _ _ w2 key0 obj0 Hobj0 Hp0 Hlist). }
  rewrite get_translation_result_run, get_object_run. cbv zeta.
  pose proof (latest_listed first others) as Hin. rewrite <- Hlist in Hin.
  destruct (latest first others) as [k t].
  apply listing_sound in Hin as (obj & Hobj & Hp & _). simpl in Hobj. simpl fst.
  rewrite (Hfetched k obj Hobj Hp).
  pose proof (key_under_prefix_not_empty _ _ Hp) as Hk.
  destruct k as [|c k]; [congruence|].
  change (objects w2) with (objects w). rewrite Hobj. cbn [or_raise].
  destruct (Hreadable _ obj Hobj Hp) as (content & result & Hdec & Hload).
  rewrite Hdec, Hload. exists result, (c :: k). eexists. split; [reflexivity|].
  split; [exists (c :: k), obj, content; auto|].
  simpl. rewrite <- !app_assoc. reflexivity.
Qed.

(** X25.  A result that is there is found at the first poll: when the
    response bucket holds an object under the polled prefix, every such
    object is readable JSON, the listing call and the [get_object] calls for
    those objects are neither refused nor failed, and the deadline has not
    passed by the first check, [wait_for_translation_result] returns a
    result after one listing and one [get_object], without sleeping. *)
Theorem X25_present_result_is_found (fuel : nat) (self : client) (request_id : str)
    (timeout poll_interval : Z) (w : world) (key0 : str) (obj0 : s3object) :
  (forall h, service_fault h
               (ListObjectsV2 (response_bucket self) (result_prefix request_id)) = None) ->
  (forall key obj,
      objects w !! (response_bucket self, key) = Some obj ->
      startswith key (result_prefix request_id) = true ->
      forall h, service_fault h (GetObject (JStr (response_bucket self)) (JStr key)) = None) ->
  objects w !! (response_bucket self, key0) = Some obj0 ->
  startswith key0 (result_prefix request_id) = true ->
  (forall key obj,
      objects w !! (response_bucket self, key) = Some obj ->
      startswith key (result_prefix request_id) = true ->
      exists content result,
        decode_utf8 (body obj) = Some content /\ json_loads content = Some result) ->
  Z.of_N (elapsed (trace w ++ [ReadClock]) ReadClock) < timeout * tick ->
  exists result key w',
    wait_for_translation_result (S fuel) self request_id timeout poll_interval w
      = (Ok (Some (Some result)), w') /\
    read_from self request_id w result /\
    trace w' = trace w ++ [ReadClock; ReadClock;
                           ListObjectsV2 (response_bucket self) (result_prefix request_id);
                           GetObject (JStr (response_bucket self)) (JStr key)].
Proof. apply first_poll_finds. Qed.

(** X26.  A negative poll interval is an error: when nothing matches and
    the deadline has not passed by the first check, the first pass through
    the loop ends in [time.sleep] raising [ValueError], which leaves the
    method. *)
Theorem X26_negative_interval_raises (fuel : nat) (self : client) (request_id : str)
    (timeout poll_interval : Z) (w : world) :
  poll_interval < 0 ->
  (forall key obj, objects w !! (response_bucket self, key) = Some obj ->
                   startswith key (result_prefix request_id) = false) ->
  Z.of_N (elapsed (trace w ++ [ReadClock]) ReadClock) < timeout * tick ->
  exists w',
    wait_for_translation_result (S fuel) self request_id timeout poll_interval w
      = (Raise ValueError, w').
Proof.
  intros Hneg Hno Hdeadline.
  assert (Hsl : (poll_interval <? 0) = true) by (apply Z.ltb_lt; exact Hneg).
  unfold wait_for_translation_result, read_clock. run_M. cbv zeta.
  rewrite polling_succ. cbv zeta.
  destruct (now (record ReadClock (record ReadClock w)) - now (record ReadClock w)
            <? timeout * tick) eqn:Hcond.
  2:{ apply Z.ltb_ge in Hcond. simpl in Hcond. lia. }
  unfold try_except, poll_once, list_objects_v2, service_call, read_clock, sleep. run_M.
  destruct (service_fault _ _).
  - rewrite Hsl. eexists. reflexivity.
  - simpl. rewrite (listing_without_match _ _ (record _ _)); [|exact Hno].
    rewrite Hsl. eexists. reflexivity.
Qed.

(** X27.  With a timeout of zero or less the method returns the timeout
    value at once: it reads the clock twice and asks the store nothing,
    whether or not a result is there. *)
Theorem X27_no_time_no_poll (fuel : nat) (self : client) (request_id : str)
    (timeout poll_interval : Z) (w : world) :
  timeout <= 0 ->
  wait_for_translation_result (S fuel) self request_id timeout poll_interval w
    = (Ok (Some None), record ReadClock (record ReadClock w)).
Proof.
  intros Htime. unfold wait_for_translation_result, read_clock. run_M. cbv zeta.
  rewrite polling_succ. cbv zeta.
  destruct (now (record ReadClock (record ReadClock w)) - now (record ReadClock w)
            <? timeout * tick) eqn:Hcond; [|reflexivity].
  apply Z.ltb_lt in Hcond. simpl in Hcond. unfold tick in Hcond. nia.
Qed.

End ClientPolling.

(** * The direct path and the ingestion path *)
Section DirectAndIngestion.
Import Ingestion Client.
Context `{P : Platform}.

(** On bare strings the two loops are the same computation. *)
Lemma direct_items_as_translate_items (src tgt : str) (texts : list str) :
  forall (acc : list translation) (total : Z) (w : world),
    direct_items src tgt (len acc) texts (acc, total) w =
    translate_items (JStr src) (JStr tgt) (map JStr texts) (acc, total) w.
Proof.
  induction texts as [|text texts IH]; intros acc total w; [reflexivity|].
  assert (Hnext : forall e : translation, len acc + 1 = len (acc ++ [e])).
  { intros e. unfold len. rewrite length_app. simpl. lia. }
  simpl map. rewrite direct_items_cons, translate_items_cons.
  rewrite direct_item_run, translate_item_run.
  change (item_fields (JStr text) (len acc)) with (JStr text, JInt (len acc)).
  cbv iota beta.
  destruct (is_blank text).
  - rewrite (Hnext {| text_id := JInt (len acc); original_text := text;
                      translated_text := []; character_count := 0 |}). apply IH.
  - destruct (translate_response (trace w) text (JStr src) (JStr tgt)) as [out|e];
      [|reflexivity].
    rewrite (Hnext {| text_id := JInt (len acc); original_text := text;
                      translated_text := out; character_count := len text |}). apply IH.
Qed.

(** X28.  [translate_direct] on a list of strings and
    [process_translation] on the request that carries the same strings as
    bare items, with the same languages, do the same: they send the same
    calls, fail with the same error at the same call, or return results with
    the same entries, the same totals and the same timestamp. *)
Theorem X28_direct_agrees_with_ingestion (self : client) (texts : list str)
    (src tgt : str) (req : json) (w : world) :
  subscript req (lit "source_language") = Ok (JStr src) ->
  subscript req (lit "target_language") = Ok (JStr tgt) ->
  subscript req (lit "texts") = Ok (JList (map JStr texts)) ->
  match translate_direct self texts src tgt w, process_translation req w with
  | (Ok dr, w1), (Ok r, w2) =>
      w1 = w2 /\
      direct_translations dr = translations r /\
      direct_total_characters (direct_metadata_of dr) = total_characters (metadata_of r) /\
      direct_total_texts (direct_metadata_of dr) = total_texts (metadata_of r) /\
      direct_timestamp (direct_metadata_of dr) = timestamp (metadata_of r)
  | (Raise e1, w1), (Raise e2, w2) => e1 = e2 /\ w1 = w2
  | _, _ => False
  end.
Proof.
  intros Hs Ht Hx.
  rewrite translate_direct_run, (process_translation_run req _ _ _ w Hs Ht Hx).
  change 0 with (len (@nil translation)) at 1.
  rewrite direct_items_as_translate_items.
  destruct (translate_items (JStr src) (JStr tgt) (map JStr texts) ([], 0) w)
    as [[st|e] w1]; simpl; [|auto].
  unfold len. rewrite length_map. auto 6.
Qed.

End DirectAndIngestion.

(** * From submission to the polled result *)
Section EndToEnd.
Import Ingestion Client.
Context `{P : Platform}.



End EndToEnd.

(** * The synchronous call *)
Section SyncCall.
Import Ingestion Client.
Context `{P : Platform}.

(** With an interval that is not negative, a pass through the loop body
    returns: whatever the [try] raises is caught, and the sleep succeeds. *)
Lemma guarded_poll_returns (self : client) (request_id : str) (poll_interval : Z)
    (w : world) :
  0 <= poll_interval ->
  exists found w',
    try_except (poll_once self request_id poll_interval)
      (fun _ => _ ← sleep poll_interval; mret None) w = (Ok found, w').
Proof.
  intros Hpos.
  assert (Hlt : (poll_interval <? 0) = false) by (apply Z.ltb_ge; lia).
  unfold try_except, poll_once. run_M.
  destruct (list_objects_v2 _ _ w) as [[[|first others]|e] w1].
  - unfold read_clock, sleep. rewrite Hlt. eauto.
  - destruct (get_translation_result self _ w1) as [[r|e] w2]; [eauto|].
    unfold sleep. rewrite Hlt. eauto.
  - unfold sleep. rewrite Hlt. eauto.
Qed.

Lemma polling_returns (self : client) (request_id : str)
    (timeout poll_interval start : Z) :
  0 <= poll_interval ->
  forall (fuel : nat) (w : world),
    exists answer w',
      polling fuel self request_id timeout poll_interval start w = (Ok answer, w').
Proof.
  intros Hpos. induction fuel as [|fuel IH]; intros w; [simpl; run_M; eauto|].
  rewrite polling_succ. cbv zeta.
  destruct (now (record ReadClock w) - start <? timeout * tick); [|eauto].
  destruct (guarded_poll_returns self request_id poll_interval (record ReadClock w) Hpos)
    as ([result|] & w2 & ->); [eauto|apply IH].
Qed.

(** The synchronous call, step by step. *)
Lemma translate_texts_sync_run (fuel : nat) (self : client) (texts : list str)
    (src tgt : str) (timeout : Z) (w : world) :
  let w1 := record ReadClock (record ReadClock w) in
  let rid := lit "req_" ++ strftime_compact (now (record ReadClock w)) in
  let req := JDict [(lit "request_id", JStr rid);
                    (lit "source_language", JStr src);
                    (lit "target_language", JStr tgt);
                    (lit "texts", JList (structured_texts 0 texts));
                    (lit "timestamp", JStr (isoformat (now w1)));
                    (lit "client_info",
                     JDict [(lit "version", JStr (lit "1.0"));
                            (lit "client_type", JStr (lit "python_client"))])] in
  translate_texts_sync fuel self texts src tgt timeout w =
  match submit_translation_request self req w1 with
  | (Ok _, w2) => wait_for_translation_result fuel self rid timeout 5 w2
  | (Raise e, w2) => (Raise e, w2)
  end.
Proof.
  intros w1 rid req.
  unfold translate_texts_sync, create_translation_request, read_clock. run_M.
  fold w1. fold rid. fold req.
  destruct (submit_translation_request self req w1) as [[filename|e] w2]; reflexivity.
Qed.

(** X30.  [translate_texts_sync] names its request ["req_<time>"], with
    the time of its first look at the clock.  It raises only when the upload
    of the request raises (the JSON text cannot be encoded, the client
    library refuses the call, the store fails): the exception is the one of
    [submit_translation_request], the buckets are as before and the store
    was never polled.  Otherwise, whether it returns a result or [None], it
    has stored exactly one object, the encoded request under
    ["translation_request_<id>.json"] in the request bucket, with the id,
    the languages and the number of texts as metadata; and a result it
    returns is the parsed body of an object of the response bucket under
    the prefix polled for that id. *)
Theorem X30_sync_call_stores_its_request (fuel : nat) (self : client) (texts : list str)
    (src tgt : str) (timeout : Z) (w w' : world) (out : res (option (option json))) :
  translate_texts_sync fuel self texts src tgt timeout w = (out, w') ->
  let rid := lit "req_" ++ strftime_compact (now (record ReadClock w)) in
  exists req w1,
    create_translation_request texts src tgt None w = (Ok req, w1) /\
    match out with
    | Raise e =>
        submit_translation_request self req w1 = (Raise e, w') /\
        objects w' = objects w
    | Ok answer =>
        exists stored,
          objects w' =
            <[(request_bucket self, request_filename rid) := stored]> (objects w) /\
          encode (json_dumps_indent req) = Ok (body stored) /\
          metadata stored = [(lit "request-id", rid); (lit "source-language", src);
                             (lit "target-language", tgt);
                             (lit "text-count", int_str (len texts))] /\
          forall result, answer = Some (Some result) -> read_from self rid w' result
    end.
Proof.
  intros Hrun rid. revert Hrun.
  rewrite translate_texts_sync_run. cbv zeta. fold rid.
  eexists _, _. split; [reflexivity|]. revert Hrun.
  destruct (submit_translation_request self _ _) as [[filename|e] w2] eqn:Hsub.
  2:{ intros [= <- <-]. split; [reflexivity|]. apply submit_frame in Hsub. exact Hsub. }
  apply submit_frame in Hsub
    as (rid' & source & target & count & stored & [= <-] & -> & Hobj & Henc & [= <- <- <-]
        & Hmeta).
  apply (validate_ascii_metadata_strings
           [(lit "request-id", rid); (lit "source-language", src);
            (lit "target-language", tgt);
            (lit "text-count", int_str (len (structured_texts 0 texts)))]) in Hmeta.
  unfold wait_for_translation_result, read_clock. run_M.
  match goal with
  | |- polling fuel self ?id timeout 5 ?start ?w0 = _ -> _ =>
      destruct (polling_returns self id timeout 5 start ltac:(lia) fuel w0)
        as (answer & w3 & Hpoll);
      rewrite Hpoll; apply polling_frame in Hpoll as (Hobj3 & _ & Hread)
  end.
  intros [= <- <-]. simpl in Hobj3. exists stored.
  split; [rewrite Hobj3; exact Hobj|]. split; [exact Henc|].
  split; [rewrite Hmeta; unfold len; rewrite structured_texts_length; reflexivity|].
  intros result Hres. destruct (Hread result (f_equal Ok Hres)) as (key & obj & content & H).
  exists key, obj, content. rewrite Hobj3. exact H.
Qed.

End SyncCall.

(** * Whole runs of the translation step and of the batch loop *)
Section WholeRuns.
Import Ingestion Client.
Context `{P : Platform}.

Lemma translate_item_visible (source target item : json) (st : progress) (w w' : world)
    (out : res progress) :
  translate_item source target item st w = (out, w') ->
  exists ext, trace w' = trace w ++ ext /\ Forall sends_visible_text ext.
Proof.
  assert (Hnone : forall (o : res progress), (o, w) = (out, w') ->
            exists ext, trace w' = trace w ++ ext /\ Forall sends_visible_text ext).
  { intros o [= <- <-]. exists []. rewrite app_nil_r. split; [reflexivity|constructor]. }
  destruct st as [acc total]. rewrite translate_item_run.
  destruct (item_fields item (len acc)) as [text tid].
  destruct text as [| | | |text| |]; try apply Hnone.
  destruct (is_blank text) eqn:Hb; [apply Hnone|].
  destruct (translate_response (trace w) text source target);
    intros [= <- <-]; eexists; (split; [reflexivity|]);
    (constructor; [exact Hb|constructor]).
Qed.

(** Whatever its outcome, the loop sends only texts that are not blank. *)
Lemma translate_items_visible (source target : json) (items : list json) :
  forall (st : progress) (w w' : world) (out : res progress),
    translate_items source target items st w = (out, w') ->
    exists ext, trace w' = trace w ++ ext /\ Forall sends_visible_text ext.
Proof.
  induction items as [|item items IH]; intros st w w' out.
  - simpl. run_M. intros [= <- <-]. exists []. rewrite app_nil_r.
    split; [reflexivity|constructor].
  - rewrite translate_items_cons.
    destruct (translate_item source target item st w) as [[st1|e] w1] eqn:H1;
      apply translate_item_visible in H1 as (ext & Htr & Hext).
    + intros Hrest. apply IH in Hrest as (ext' & Htr' & Hext').
      exists (ext ++ ext'). rewrite Htr', Htr, app_assoc.
      split; [reflexivity|]. apply Forall_app; split; assumption.
    + intros [= <- <-]. eauto.
Qed.

Lemma process_translation_visible (req : json) (w w' : world)
    (out : res translation_result) :
  process_translation req w = (out, w') ->
  exists ext, trace w' = trace w ++ ext /\ Forall sends_visible_text ext.
Proof.
  assert (Hstay : forall e : exn, (@Raise translation_result e, w) = (out, w') ->
            exists ext, trace w' = trace w ++ ext /\ Forall sends_visible_text ext).
  { intros e [= <- <-]. exists []. rewrite app_nil_r. split; [reflexivity|constructor]. }
  unfold process_translation. run_M.
  destruct (subscript req (lit "source_language")) as [source|e]; [|apply Hstay].
  destruct (subscript req (lit "target_language")) as [target|e]; [|apply Hstay].
  destruct (subscript req (lit "texts")) as [texts|e]; [|apply Hstay].
  destruct (py_iter texts) as [items|e]; [|apply Hstay].
  destruct (translate_items source target items ([], 0) w) as [[st|e] w1] eqn:Hloop;
    apply translate_items_visible in Hloop as (ext & Htr & Hext).
  - destruct (py_len texts) as [count|e].
    + unfold read_clock. intros [= <- <-]. simpl.
      exists (ext ++ [ReadClock]). rewrite Htr, app_assoc. split; [reflexivity|].
      apply Forall_app; split; [exact Hext|repeat constructor].
    + intros [= <- <-]. eauto.
  - intros [= <- <-]. eauto.
Qed.

(** A returned result of [process_translation], with the run of the loop
    behind it. *)
Lemma process_translation_returns (req : json) (items : list json) (w w' : world)
    (r : translation_result) :
  subscript req (lit "texts") = Ok (JList items) ->
  process_translation req w = (Ok r, w') ->
  exists w1,
    translate_items (source_language (metadata_of r)) (target_language (metadata_of r))
      items ([], 0) w = (Ok (translations r, total_characters (metadata_of r)), w1) /\
    w' = record ReadClock w1.
Proof.
  intros Hx. unfold process_translation. run_M.
  destruct (subscript req (lit "source_language")) as [source|]; [|discriminate].
  destruct (subscript req (lit "target_language")) as [target|]; [|discriminate].
  rewrite Hx. simpl.
  destruct (translate_items source target items ([], 0) w) as [[[new total]|e] w1]
    eqn:Hloop; [|discriminate].
  intros [= <- <-]. simpl. exists w1. split; [exact Hloop|reflexivity].
Qed.

(** The entries of a run of the loop carry the texts of the items. *)
Lemma entries_of_items (source target : json) (items : list json)
    (new : list translation) (total : Z) (w w1 : world) :
  translate_items source target items ([], 0) w = (Ok (new, total), w1) ->
  total = sum_Z (map character_count new) /\
  length new = length items /\
  trace w1 = trace w ++ calls source target (map original_text new) /\
  forall (i : nat) item,
    items !! i = Some item ->
    exists e,
      new !! i = Some e /\
      entry_for source target
        (trace w ++ calls source target (map original_text (take i new)))
        (Z.of_nat i) item e.
Proof.
  intros Hloop.
  apply translate_items_ok in Hloop as (new' & Hnew & Hlen & Htotal & Htr & _ & Hent).
  simpl in Hnew. subst new'. split; [lia|]. split; [exact Hlen|]. split; [exact Htr|].
  intros i item Hi.
  destruct (new !! i) as [e|] eqn:He.
  2:{ apply lookup_ge_None in He. apply lookup_lt_Some in Hi. lia. }
  exists e. split; [reflexivity|]. exact (Hent i item e Hi He).
Qed.

(** C3.  A text item whose trimmed text is empty is never sent to the
    translation service and gets an empty entry, on both paths.  Whatever
    the outcome of [process_translation], and of [translate_direct], every
    call the run makes to the translation service carries a text that is
    not blank.  When the run returns a result, its calls to the service are
    exactly one for each entry whose text is not blank, in order, and the
    entry at the position of a blank item carries the item's text, an empty
    [translated_text] and a [character_count] of zero. *)
Theorem C3_blank_item_not_sent :
  (forall (req : json) (items : list json) (w w' : world) (out : res translation_result),
      subscript req (lit "texts") = Ok (JList items) ->
      process_translation req w = (out, w') ->
      (exists ext, trace w' = trace w ++ ext /\ Forall sends_visible_text ext) /\
      forall r, out = Ok r ->
        trace w' = trace w
                   ++ calls (source_language (metadata_of r)) (target_language (metadata_of r))
                        (map original_text (translations r))
                   ++ [ReadClock] /\
        forall (i : nat) item text,
          items !! i = Some item -> text_of item = Some text -> is_blank text = true ->
          exists e,
            translations r !! i = Some e /\ original_text e = text /\
            translated_text e = [] /\ character_count e = 0) /\
  (forall (self : client) (texts : list str) (src tgt : str) (w w' : world)
          (out : res direct_result),
      translate_direct self texts src tgt w = (out, w') ->
      (exists ext, trace w' = trace w ++ ext /\ Forall sends_visible_text ext) /\
      forall r, out = Ok r ->
        trace w' = trace w ++ calls (JStr src) (JStr tgt) texts ++ [ReadClock] /\
        forall (i : nat) text,
          texts !! i = Some text -> is_blank text = true ->
          exists e,
            direct_translations r !! i = Some e /\ original_text e = text /\
            translated_text e = [] /\ character_count e = 0).
Proof.
  split.
  - intros req items w w' out Hx Hrun.
    split; [exact (process_translation_visible req w w' out Hrun)|].
    intros r ->.
    destruct (process_translation_returns req items w w' r Hx Hrun) as (w1 & Hloop & ->).
    apply entries_of_items in Hloop as (_ & _ & Htr & Hent). split.
    + simpl. rewrite Htr, <- app_assoc. reflexivity.
    + intros i item text Hi Htext Hb.
      destruct (Hent i item Hi) as (e & He & Hf & Hcase).
      rewrite (item_fields_text item text _ Htext) in Hf. injection Hf as Hf _.
      exists e. rewrite <- Hf in *. rewrite Hb in Hcase. tauto.
  - intros self texts src tgt w w' out. rewrite translate_direct_run.
    rewrite (direct_items_as_translate_items src tgt texts [] 0 w).
    destruct (translate_items (JStr src) (JStr tgt) (map JStr texts) ([], 0) w)
      as [[[new total]|e] w1] eqn:Hloop.
    2:{ intros [= <- <-]. split; [|discriminate].
        exact (translate_items_visible _ _ _ _ _ _ _ Hloop). }
    intros [= <- <-].
    pose proof (translate_items_visible _ _ _ _ _ _ _ Hloop) as (ext & Htr0 & Hext).
    split.
    { exists (ext ++ [ReadClock]). simpl. rewrite Htr0, app_assoc. split; [reflexivity|].
      apply Forall_app; split; [exact Hext|repeat constructor]. }
    intros r [= <-]. simpl.
    apply entries_of_items in Hloop as (_ & Hlen & Htr & Hent).
    rewrite length_map in Hlen.
    assert (Htexts : map original_text new = texts).
    { apply list_eq. intros i. rewrite list_lookup_fmap.
      destruct (texts !! i) as [text|] eqn:Ht.
      - destruct (Hent i (JStr text)) as (e & He & Hf & _).
        { rewrite list_lookup_fmap, Ht. reflexivity. }
        rewrite He. simpl. injection Hf as Hf _. congruence.
      - destruct (new !! i) as [e|] eqn:He; [|reflexivity].
        exfalso. apply lookup_ge_None in Ht. apply lookup_lt_Some in He. lia. }
    split; [rewrite Htr, Htexts, <- app_assoc; reflexivity|].
    intros i text Hi Hb.
    destruct (Hent i (JStr text)) as (e & He & Hf & Hcase).
    { rewrite list_lookup_fmap, Hi. reflexivity. }
    injection Hf as Hf _. exists e. rewrite <- Hf in *. rewrite Hb in Hcase. tauto.
Qed.



(** C10.  [validate_translation_request] accepts a request that has both
    language fields and a non-empty list as ['texts'], whatever the items
    are.  In a result of [process_translation], an item that is neither a
    string nor a mapping with a ['text'] key has been worked on as
    [str(item)]: that string is never blank, it was sent to the translation
    service, and the entry at the item's position records it as
    [original_text], with the answer of the service as [translated_text],
    its position as [id] and its length as [character_count];
    [total_characters] is the sum of the [character_count] of all entries,
    so the item is counted.  And the handler does not reject such items:
    when every item gives a string to work on and the service answers,
    [process_translation] returns a result. *)
Theorem C10_items_of_any_shape :
  (forall (d : list (str * json)) (source target item : json) (items : list json),
      dict_get d (lit "source_language") = Some source ->
      dict_get d (lit "target_language") = Some target ->
      dict_get d (lit "texts") = Some (JList (item :: items)) ->
      validate_translation_request (JDict d) = Ok true) /\
  (forall (req : json) (items : list json) (w w' : world) (r : translation_result),
      subscript req (lit "texts") = Ok (JList items) ->
      process_translation req w = (Ok r, w') ->
      let source := source_language (metadata_of r) in
      let target := target_language (metadata_of r) in
      total_characters (metadata_of r) = sum_Z (map character_count (translations r)) /\
      forall (i : nat) item,
        items !! i = Some item -> coerced item ->
        is_blank (py_str item) = false /\
        (exists ext, trace w' = trace w ++ ext /\
                     In (TranslateText (py_str item) source target) ext) /\
        exists e,
          translations r !! i = Some e /\
          text_id e = JInt (Z.of_nat i) /\
          original_text e = py_str item /\
          character_count e = len (py_str item) /\
          translate_response
            (trace w ++ calls source target (map original_text (take i (translations r))))
            (py_str item) source target = Ok (translated_text e)) /\
  (forall (req source target : json) (items : list json) (texts : list str) (w : world),
      subscript req (lit "source_language") = Ok source ->
      subscript req (lit "target_language") = Ok target ->
      subscript req (lit "texts") = Ok (JList items) ->
      Forall2 (fun item text => text_of item = Some text) items texts ->
      (forall (i : nat) text,
          texts !! i = Some text -> is_blank text = false ->
          exists out,
            translate_response (trace w ++ calls source target (take i texts))
              text source target = Ok out) ->
      exists r w', process_translation req w = (Ok r, w')).
Proof.
  split; [|split].
  - intros d source target item items Hs Ht Hx.
    unfold validate_translation_request, required_fields, fields_present, py_in, subscript.
    run_M. rewrite Hs, Ht, Hx. reflexivity.
  - intros req items w w' r Hx Hrun source target.
    destruct (process_translation_returns req items w w' r Hx Hrun) as (w1 & Hloop & ->).
    fold source target in Hloop.
    apply entries_of_items in Hloop as (Htotal & _ & Htr & Hent).
    split; [exact Htotal|].
    intros i item Hi Hc.
    assert (Hb : is_blank (py_str item) = false).
    { apply py_str_not_blank. intros s ->. exact Hc. }
    split; [exact Hb|].
    destruct (Hent i item Hi) as (e & He & Hf & Hcase).
    rewrite (item_fields_coerced item _ Hc) in Hf. injection Hf as Htext Hid.
    rewrite <- Htext, Hb in Hcase. destruct Hcase as [Hans Hcount].
    split.
    + exists (calls source target (map original_text (translations r)) ++ [ReadClock]).
      simpl. rewrite Htr, <- app_assoc. split; [reflexivity|].
      apply in_or_app. left. unfold calls.
      apply (in_map (fun text => TranslateText text source target)).
      apply filter_In. rewrite Hb. split; [|reflexivity].
      rewrite Htext. apply in_map.
      apply list_elem_of_In, (list_elem_of_lookup_2 _ i). exact He.
    + exists e. rewrite <- Htext. split; [exact He|]. split; [congruence|].
      split; [reflexivity|]. split; [exact Hcount|exact Hans].
  - intros req source target items texts w Hs Ht Hx Hitems Hans.
    destruct (translate_items_total source target items texts Hitems [] 0 w Hans)
      as (st & w1 & Hloop).
    rewrite (process_translation_run req source target items w Hs Ht Hx), Hloop.
    eauto.
Qed.

End WholeRuns.

(** * Examples for the further properties *)

(** X3 on a batch whose second record is empty. *)
Lemma X3_malformed_record_ends_batch_witness :
  exists r w',
    @Ingestion.lambda_handler (platform_reading incomplete_request) configured
      (JDict [(lit "Records",
               JList [s3_event_record "requests" "translation_request_r1.json";
                      JDict [];
                      s3_event_record "requests" "translation_request_r2.json"])])
      one_upload = (Ok r, w') /\
    Ingestion.statusCode r = 500.
Proof.
  destruct (@X3_malformed_record_ends_batch (platform_reading incomplete_request)
              configured (lit "requests") (lit "responses")
              (JDict [(lit "Records",
                       JList [s3_event_record "requests" "translation_request_r1.json";
                              JDict [];
                              s3_event_record "requests" "translation_request_r2.json"])])
              [s3_event_record "requests" "translation_request_r1.json"] (JDict [])
              [s3_event_record "requests" "translation_request_r2.json"]
              (KeyError (lit "s3")) one_upload) as (w1 & _ & Hrun).
  - reflexivity.
  - reflexivity.
  - reflexivity.
  - repeat (constructor; [do 6 eexists; repeat split; reflexivity|]). constructor.
  - reflexivity.
  - eexists _, _. split; [exact Hrun|reflexivity].
Defined.

(** X4 on a file that holds the request for ["Hello"] and ["World"]. *)
Lemma X4_result_is_written_witness :
  exists w',
    @Ingestion.process_file (platform_reading request_r1) (lit "responses")
      (JStr (lit "requests")) (lit "translation_request_r1.json") one_upload = (Ok tt, w') /\
    is_Some (objects w' !! (lit "responses",
                            lit "translation_request_r1_translated_20240101_000000.json")).
Proof.
  destruct (@Ingestion.process_translation (platform_reading request_r1) request_r1
              (@record (platform_reading request_r1)
                 (GetObject (JStr (lit "requests")) (JStr (lit "translation_request_r1.json")))
                 one_upload)) as [[r|e] w2] eqn:Hrun; [|vm_compute in Hrun; discriminate].
  pose proof (@X4_result_is_written (platform_reading request_r1) (lit "responses")
                (lit "requests") (lit "translation_request_r1.json") (uploaded "{}")
                (lit "{}") request_r1 r one_upload w2
                ltac:(discriminate) eq_refl (lookup_singleton_eq _ _) eq_refl eq_refl
                eq_refl Hrun)
    as Hwritten.
  assert (Henc : @encode (platform_reading request_r1)
                   (@json_dumps_indent (platform_reading request_r1)
                      (Ingestion.result_json r))
                 = Ok (ascii_bytes (lit "{}"))) by reflexivity.
  cbv zeta in Hwritten. rewrite Henc in Hwritten.
  destruct (proj1 Hwritten eq_refl) as (w' & stored & Hfile & Hobj & _).
  exists w'. split; [exact Hfile|]. rewrite Hobj.
  change (Ingestion.output_key (lit "translation_request_r1.json")
            (strftime_compact (now (record ReadClock w2))))
    with (lit "translation_request_r1_translated_20240101_000000.json").
  rewrite lookup_insert_eq. eauto.
Defined.

(** X5 on a record whose object does not exist. *)
Lemma X5_failed_object_leaves_no_trace_witness :
  exists w',
    @Ingestion.process_file working_platform (lit "responses") (JStr (lit "requests"))
      (lit "translation_request_r2.json") one_upload = (Raise NoSuchKey, w') /\
    objects w' = objects one_upload.
Proof.
  destruct (@Ingestion.process_file working_platform (lit "responses") (JStr (lit "requests"))
              (lit "translation_request_r2.json") one_upload) as [[[]|e] w'] eqn:Hfile;
    [vm_compute in Hfile; discriminate|].
  assert (He : e = NoSuchKey) by (vm_compute in Hfile; congruence). subst e.
  exists w'. split; [reflexivity|].
  apply (@X5_failed_object_leaves_no_trace working_platform (lit "responses")
           (s3_event_record "requests" "translation_request_r2.json") []
           (JStr (lit "requests")) (lit "translation_request_r2.json") NoSuchKey
           one_upload w' eq_refl Hfile).
Defined.

(** X6 on a batch of one valid request. *)
Lemma X6_only_the_response_bucket_grows_witness :
  exists out w',
    @Ingestion.lambda_handler (platform_reading request_r1) configured
      (JDict [(lit "Records",
               JList [s3_event_record "requests" "translation_request_r1.json"])])
      one_upload = (out, w') /\
    is_Some (objects w' !! (lit "requests", lit "translation_request_r1.json")).
Proof.
  destruct (@Ingestion.lambda_handler (platform_reading request_r1) configured
              (JDict [(lit "Records",
                       JList [s3_event_record "requests" "translation_request_r1.json"])])
              one_upload) as [out w'] eqn:Hrun.
  exists out, w'. split; [reflexivity|].
  apply (proj1 (@X6_only_the_response_bucket_grows (platform_reading request_r1) configured
                  _ one_upload w' out Hrun)).
  simpl. rewrite lookup_singleton_eq. eauto.
Defined.

(** X7 on the request for ["Hello"] and ["World"]. *)
Lemma X7_one_call_per_visible_text_witness :
  exists r w',
    @Ingestion.process_translation working_platform request_r1 empty_world = (Ok r, w') /\
    trace w' = [TranslateText (lit "Hello") (JStr (lit "en")) (JStr (lit "es"));
                TranslateText (lit "World") (JStr (lit "en")) (JStr (lit "es"));
                ReadClock].
Proof.
  destruct (@Ingestion.process_translation working_platform request_r1 empty_world)
    as [[r|e] w'] eqn:Hrun; [|vm_compute in Hrun; discriminate].
  exists r, w'. split; [reflexivity|].
  destruct (@X7_one_call_per_visible_text working_platform request_r1 two_items
              empty_world w' r eq_refl Hrun) as (Htr & _).
  rewrite Htr. vm_compute in Hrun. injection Hrun as <- _. reflexivity.
Defined.

(** X8 on two items when the service fails at its second call. *)
Lemma X8_service_error_aborts_request_witness :
  exists w',
    @Ingestion.process_translation flaky_platform request_r1 empty_world
      = (Raise (ClientError (lit "ThrottlingException")), w') /\
    trace w' = [TranslateText (lit "Hello") (JStr (lit "en")) (JStr (lit "es"));
                TranslateText (lit "World") (JStr (lit "en")) (JStr (lit "es"))].
Proof.
  destruct (@Ingestion.translate_items flaky_platform (JStr (lit "en")) (JStr (lit "es"))
              [JStr (lit "Hello")] ([], 0) empty_world) as [[st|e] w1] eqn:Hpre;
    [|vm_compute in Hpre; discriminate].
  assert (Htrace : trace w1 = [TranslateText (lit "Hello") (JStr (lit "en")) (JStr (lit "es"))]).
  { vm_compute in Hpre. injection Hpre as _ <-. reflexivity. }
  eexists. split.
  - apply (@X8_service_error_aborts_request flaky_platform request_r1
             (JStr (lit "en")) (JStr (lit "es")) [JStr (lit "Hello")]
             (JDict [(lit "text", JStr (lit "World"))]) [] (lit "World") st empty_world w1
             (ClientError (lit "ThrottlingException")) eq_refl eq_refl eq_refl Hpre
             eq_refl eq_refl).
    rewrite Htrace. reflexivity.
  - simpl. rewrite Htrace. reflexivity.
Defined.

(** X9 on an item whose text is the number 5. *)
Lemma X9_text_must_be_a_string_witness :
  exists w',
    @Ingestion.process_translation working_platform (request_of numeric_text_items)
      empty_world = (Raise AttributeError, w') /\
    trace w' = [TranslateText (lit "Hello") (JStr (lit "en")) (JStr (lit "es"))].
Proof.
  destruct (@Ingestion.translate_items working_platform (JStr (lit "en")) (JStr (lit "es"))
              [JStr (lit "Hello")] ([], 0) empty_world) as [[st|e] w1] eqn:Hpre;
    [|vm_compute in Hpre; discriminate].
  exists w1. split.
  - apply (@X9_text_must_be_a_string working_platform (request_of numeric_text_items)
             (JStr (lit "en")) (JStr (lit "es")) [JStr (lit "Hello")]
             [(lit "text", JInt 5)] (JInt 5) [JStr (lit "World")] st empty_world w1
             eq_refl eq_refl eq_refl Hpre eq_refl).
    intros s. discriminate.
  - vm_compute in Hpre. injection Hpre as _ <-. reflexivity.
Defined.

(** X10 on an item labelled ["a7"]. *)
Lemma X10_given_id_is_kept_witness :
  exists r w',
    @Ingestion.process_translation working_platform (request_of labelled_items) empty_world
      = (Ok r, w') /\
    exists e, Ingestion.translations r !! 0%nat = Some e /\
              Ingestion.text_id e = JStr (lit "a7").
Proof.
  destruct (@Ingestion.process_translation working_platform (request_of labelled_items)
              empty_world) as [[r|e] w'] eqn:Hrun; [|vm_compute in Hrun; discriminate].
  exists r, w'. split; [reflexivity|].
  apply (@X10_given_id_is_kept working_platform (request_of labelled_items) labelled_items
           empty_world w' r 0%nat
           [(lit "id", JStr (lit "a7")); (lit "text", JStr (lit "Hello"))]
           (JStr (lit "Hello")) (JStr (lit "a7")) eq_refl Hrun eq_refl eq_refl eq_refl).
Defined.

(** X13 on a record whose object does not exist. *)
Lemma X13_unreadable_object_witness :
  @Ingestion.process_file working_platform (lit "responses") (JStr (lit "requests"))
    (lit "translation_request_r2.json") one_upload
  = (Raise NoSuchKey,
     @record working_platform
       (GetObject (JStr (lit "requests")) (JStr (lit "translation_request_r2.json")))
       one_upload).
Proof.
  apply (proj1 (proj2 (proj2 (@X13_unreadable_object working_platform (lit "responses")
                                (lit "requests") (lit "translation_request_r2.json")
                                one_upload))
                 ltac:(discriminate) eq_refl)).
  apply lookup_singleton_ne. vm_compute. discriminate.
Defined.

(** X14 on the stored result of request ["r1"]. *)
Lemma X14_found_or_still_processing_witness :
  @Retrieval.lambda_handler working_platform (lit "responses")
    (retrieval_event (JStr (lit "translation_request_r1_translated_20240101_000000.json")))
    one_result
  = (Ok {| Retrieval.statusCode := 200; Retrieval.headers := Retrieval.cors_headers;
           Retrieval.response_body := lit "{}" |},
     @record working_platform
       (GetObject (JStr (lit "responses"))
          (JStr (lit "translation_request_r1_translated_20240101_000000.json")))
       one_result).
Proof.
  apply (proj1 (proj1 (@X14_found_or_still_processing working_platform (lit "responses")
                         (retrieval_event
                            (JStr (lit "translation_request_r1_translated_20240101_000000.json")))
                         (lit "translation_request_r1_translated_20240101_000000.json")
                         one_result eq_refl)
                 ltac:(discriminate) eq_refl) (uploaded "{}") (lit "{}")).
  - apply lookup_singleton_eq.
  - reflexivity.
Defined.

(** X15 on an event without path parameters. *)
Lemma X15_missing_request_id_witness :
  exists r,
    @Retrieval.lambda_handler working_platform (lit "responses")
      (JDict [(lit "httpMethod", JStr (lit "GET"))]) one_result = (Ok r, one_result) /\
    Retrieval.statusCode r = 400.
Proof.
  eexists. split.
  - apply (@X15_missing_request_id working_platform (lit "responses")
             [(lit "httpMethod", JStr (lit "GET"))] one_result).
    left. reflexivity.
  - reflexivity.
Defined.

(** X16 on a numeric request id. *)
Lemma X16_failures_are_opaque_witness :
  exists w',
    @Retrieval.lambda_handler working_platform (lit "responses") (retrieval_event (JInt 7))
      one_result
    = (Ok {| Retrieval.statusCode := 500; Retrieval.headers := Retrieval.cors_headers;
             Retrieval.response_body :=
               @Retrieval.message working_platform "An internal server error occurred." |},
       w').
Proof.
  apply (@X16_failures_are_opaque working_platform (lit "responses")
           (retrieval_event (JInt 7)) (JInt 7) one_result eq_refl).
  left. intros s. discriminate.
Defined.

(** X17 on the stored result of request ["r1"]. *)
Lemma X17_retrieval_only_reads_witness :
  exists out w',
    @Retrieval.lambda_handler working_platform (lit "responses")
      (retrieval_event (JStr (lit "translation_request_r1_translated_20240101_000000.json")))
      one_result = (out, w') /\
    objects w' = objects one_result.
Proof.
  destruct (@Retrieval.lambda_handler working_platform (lit "responses")
              (retrieval_event
                 (JStr (lit "translation_request_r1_translated_20240101_000000.json")))
              one_result) as [out w'] eqn:Hrun.
  exists out, w'. split; [reflexivity|].
  apply (proj1 (@X17_retrieval_only_reads working_platform (lit "responses") _ one_result
                  w' out Hrun)).
Defined.

(** X18 on a key that has no object yet. *)
Lemma X18_retrieval_repeats_witness :
  exists r w' w'',
    @Retrieval.lambda_handler working_platform (lit "responses")
      (retrieval_event (JStr (lit "translation_request_r2_translated"))) one_result
      = (Ok r, w') /\
    @Retrieval.lambda_handler working_platform (lit "responses")
      (retrieval_event (JStr (lit "translation_request_r2_translated"))) w' = (Ok r, w'') /\
    Retrieval.statusCode r = 404.
Proof.
  assert (Hnone : objects one_result
                    !! (lit "responses", lit "translation_request_r2_translated") = None)
    by (apply lookup_singleton_ne; vm_compute; discriminate).
  pose proof (@retrieval_missing working_platform (lit "responses")
                (retrieval_event (JStr (lit "translation_request_r2_translated")))
                (lit "translation_request_r2_translated") one_result eq_refl
                ltac:(discriminate) eq_refl Hnone) as Hrun.
  destruct (@X18_retrieval_repeats working_platform (lit "responses") _ one_result _ _ Hrun)
    as [w'' Hagain].
  - right. reflexivity.
  - intros e. reflexivity.
  - eexists _, _, w''. split; [exact Hrun|]. split; [exact Hagain|reflexivity].
Defined.

(** X20 on ["Hello"] and two spaces. *)
Lemma X20_created_request_translates_witness :
  exists req w1 r w2,
    @Client.create_translation_request working_platform [lit "Hello"; lit "  "]
      (lit "en") (lit "es") None empty_world = (Ok req, w1) /\
    @Ingestion.process_translation working_platform req w1 = (Ok r, w2) /\
    map Ingestion.original_text (Ingestion.translations r) = [lit "Hello"; lit "  "].
Proof.
  destruct (@X20_created_request_translates working_platform [lit "Hello"; lit "  "]
              (lit "en") (lit "es") None empty_world)
    as (req & w1 & r & w2 & Hreq & Hrun & Horig & _).
  - intros h text. eexists. reflexivity.
  - exists req, w1, r, w2. split; [exact Hreq|]. split; [exact Hrun|exact Horig].
Defined.

(** X21 on the request with the id ["r1"]. *)
Lemma X21_submit_stores_the_request_witness :
  exists w',
    @Client.submit_translation_request working_platform a_client request_r1 empty_world
      = (Ok (lit "translation_request_r1.json"), w') /\
    is_Some (objects w' !! (lit "requests", lit "translation_request_r1.json")).
Proof.
  destruct (@X21_submit_stores_the_request working_platform a_client
              [(lit "request_id", JStr (lit "r1"));
               (lit "source_language", JStr (lit "en"));
               (lit "target_language", JStr (lit "es"));
               (lit "texts", JList two_items)]
              (lit "r1") (lit "en") (lit "es") (JList two_items) 2
              (ascii_bytes (lit "{}")) empty_world)
    as (w' & stored & Hrun & _ & Hobj & _); try reflexivity.
  exists w'. split; [exact Hrun|]. rewrite Hobj.
  change (Client.request_bucket a_client, Client.request_filename (lit "r1"))
    with (lit "requests", lit "translation_request_r1.json").
  rewrite lookup_insert_eq. eauto.
Defined.

(** X22 on a request without an id. *)
Lemma X22_failed_submit_stores_nothing_witness :
  @Client.submit_translation_request working_platform a_client
    (request_of two_items) empty_world
  = (Raise (KeyError (lit "request_id")), empty_world).
Proof.
  apply (proj1 (proj2 (@X22_failed_submit_stores_nothing working_platform a_client
                         (request_of two_items) empty_world)) _ eq_refl eq_refl).
Defined.

(** X24 on a bucket that holds the result. *)
Lemma X24_polling_reads_a_matching_object_witness :
  exists out w',
    @Client.wait_for_translation_result (platform_reading request_r1) 3 a_client (lit "r1")
      10 1 one_result = (out, w') /\
    objects w' = objects one_result.
Proof.
  destruct (@Client.wait_for_translation_result (platform_reading request_r1) 3 a_client
              (lit "r1") 10 1 one_result) as [out w'] eqn:Hrun.
  exists out, w'. split; [reflexivity|].
  apply (proj1 (@X24_polling_reads_a_matching_object (platform_reading request_r1) 3
                  a_client (lit "r1") 10 1 one_result w' out Hrun)).
Defined.

(** X25 on a bucket that holds the result. *)
Lemma X25_present_result_is_found_witness :
  exists result w',
    @Client.wait_for_translation_result (platform_reading request_r1) 1 a_client (lit "r1")
      10 1 one_result = (Ok (Some (Some result)), w').
Proof.
  destruct (@X25_present_result_is_found (platform_reading request_r1) 0 a_client (lit "r1")
              10 1 one_result
              (lit "translation_request_r1_translated_20240101_000000.json") (uploaded "{}"))
    as (result & key & w' & Hrun & _).
  - intros h. reflexivity.
  - intros key obj _ _ h. reflexivity.
  - apply lookup_singleton_eq.
  - reflexivity.
  - intros key obj _ _. eexists _, _. split; reflexivity.
  - reflexivity.
  - exists result, w'. exact Hrun.
Defined.

(** X26 on empty buckets with an interval of minus one second. *)
Lemma X26_negative_interval_raises_witness :
  exists w',
    @Client.wait_for_translation_result working_platform 1 a_client (lit "r1") 10 (-1)
      empty_world = (Raise ValueError, w').
Proof.
  apply (@X26_negative_interval_raises working_platform 0 a_client (lit "r1") 10 (-1)
           empty_world).
  - lia.
  - intros key obj Hobj. simpl in Hobj. rewrite lookup_empty in Hobj. discriminate.
  - reflexivity.
Defined.

(** X27 on a bucket that holds the result, with a timeout of zero. *)
Lemma X27_no_time_no_poll_witness :
  @Client.wait_for_translation_result working_platform 1 a_client (lit "r1") 0 5 one_result
  = (Ok (Some None),
     @record working_platform ReadClock (@record working_platform ReadClock one_result)).
Proof.
  apply (@X27_no_time_no_poll working_platform 0 a_client (lit "r1") 0 5 one_result). lia.
Defined.

(** X28 on ["Hello"] and two spaces. *)
Lemma X28_direct_agrees_with_ingestion_witness :
  match @Client.translate_direct working_platform a_client [lit "Hello"; lit "  "]
          (lit "en") (lit "es") empty_world,
        @Ingestion.process_translation working_platform
          (request_of [JStr (lit "Hello"); JStr (lit "  ")]) empty_world with
  | (Ok dr, _), (Ok r, _) => Client.direct_translations dr = Ingestion.translations r
  | (Raise e1, _), (Raise e2, _) => e1 = e2
  | _, _ => False
  end.
Proof.
  pose proof (@X28_direct_agrees_with_ingestion working_platform a_client
                [lit "Hello"; lit "  "] (lit "en") (lit "es")
                (request_of [JStr (lit "Hello"); JStr (lit "  ")]) empty_world
                eq_refl eq_refl eq_refl) as H.
  destruct (@Client.translate_direct working_platform a_client [lit "Hello"; lit "  "]
              (lit "en") (lit "es") empty_world) as [[dr|e1] w1];
    destruct (@Ingestion.process_translation working_platform
                (request_of [JStr (lit "Hello"); JStr (lit "  ")]) empty_world)
      as [[r|e2] w2]; try exact H; [apply H|apply H].
Defined.


(** X30 on a call that leaves the polling no time. *)
Lemma X30_sync_call_stores_its_request_witness :
  exists answer w' stored,
    @Client.translate_texts_sync working_platform 3 a_client [lit "Hello"]
      (lit "en") (lit "es") 0 empty_world = (Ok answer, w') /\
    objects w'
      !! (lit "requests",
          Client.request_filename
            (lit "req_" ++ @strftime_compact working_platform
                             (now (@record working_platform ReadClock empty_world))))
    = Some stored.
Proof.
  destruct (@Client.translate_texts_sync working_platform 3 a_client [lit "Hello"]
              (lit "en") (lit "es") 0 empty_world) as [[answer|e] w'] eqn:Hrun;
    [|apply (f_equal fst) in Hrun; lazy in Hrun; discriminate].
  destruct (@X30_sync_call_stores_its_request working_platform 3 a_client [lit "Hello"]
              (lit "en") (lit "es") 0 empty_world w' (Ok answer) Hrun)
    as (req & w1 & _ & stored & Hobj & _).
  exists answer, w', stored. split; [reflexivity|].
  rewrite Hobj. apply lookup_insert_eq.
Defined.

(** * Examples for whole runs *)

(** C3 on the request for ["Hello"], two spaces and ["World"], on both
    paths. *)
Lemma C3_blank_item_not_sent_witness :
  (exists r w',
      @Ingestion.process_translation working_platform (request_of three_items) empty_world
        = (Ok r, w') /\
      exists e,
        Ingestion.translations r !! 1%nat = Some e /\ Ingestion.original_text e = lit "  " /\
        Ingestion.translated_text e = [] /\ Ingestion.character_count e = 0) /\
  (exists r w',
      @Client.translate_direct working_platform a_client
        [lit "Hello"; lit "  "; lit "World"] (lit "en") (lit "es") empty_world = (Ok r, w') /\
      trace w' = [TranslateText (lit "Hello") (JStr (lit "en")) (JStr (lit "es"));
                  TranslateText (lit "World") (JStr (lit "en")) (JStr (lit "es"));
                  ReadClock]).
Proof.
  split.
  - destruct (@Ingestion.process_translation working_platform (request_of three_items)
                empty_world) as [[r|e] w'] eqn:Hrun;
      [|apply (f_equal fst) in Hrun; lazy in Hrun; discriminate].
    destruct (proj1 (@C3_blank_item_not_sent working_platform) (request_of three_items)
                three_items empty_world w' (Ok r) eq_refl Hrun) as [_ Hok].
    destruct (Hok r eq_refl) as [_ Hblank].
    exists r, w'. split; [reflexivity|].
    apply (Hblank 1%nat (JStr (lit "  ")) (lit "  ")); reflexivity.
  - destruct (@Client.translate_direct working_platform a_client
                [lit "Hello"; lit "  "; lit "World"] (lit "en") (lit "es") empty_world)
      as [[r|e] w'] eqn:Hrun;
      [|apply (f_equal fst) in Hrun; lazy in Hrun; discriminate].
    destruct (proj2 (@C3_blank_item_not_sent working_platform) a_client
                [lit "Hello"; lit "  "; lit "World"] (lit "en") (lit "es") empty_world w'
                (Ok r) Hrun) as [_ Hok].
    destruct (Hok r eq_refl) as [Htr _].
    exists r, w'. split; [reflexivity|exact Htr].
Defined.


(** C10 on the items [42] and [null]. *)
Lemma C10_items_of_any_shape_witness :
  Ingestion.validate_translation_request (request_of [JInt 42; JNull]) = Ok true /\
  exists r w',
    @Ingestion.process_translation working_platform (request_of [JInt 42; JNull]) empty_world
      = (Ok r, w') /\
    exists e,
      Ingestion.translations r !! 0%nat = Some e /\
      Ingestion.original_text e = lit "42" /\ Ingestion.character_count e = 2.
Proof.
  split.
  - apply (proj1 (@C10_items_of_any_shape working_platform)
             _ (JStr (lit "en")) (JStr (lit "es")) (JInt 42) [JNull]); reflexivity.
  - destruct (proj2 (proj2 (@C10_items_of_any_shape working_platform))
                (request_of [JInt 42; JNull]) (JStr (lit "en")) (JStr (lit "es"))
                [JInt 42; JNull] [lit "42"; lit "None"] empty_world
                eq_refl eq_refl eq_refl) as (r & w' & Hrun).
    + repeat constructor.
    + intros i text _ _. eexists. reflexivity.
    + exists r, w'. split; [exact Hrun|].
      destruct (proj1 (proj2 (@C10_items_of_any_shape working_platform))
                  (request_of [JInt 42; JNull]) [JInt 42; JNull] empty_world w' r
                  eq_refl Hrun) as [_ Hitem].
      destruct (Hitem 0%nat (JInt 42) eq_refl I) as (_ & _ & e & He & _ & Htext & Hcount & _).
      exists e. split; [exact He|]. split; [exact Htext|exact Hcount].
Defined.
